(** * Instagram analytics worker: a shallow embedding of the collection pipeline

  The development follows the worker of the repository:
  - [Js]: the few JavaScript notions the code relies on (exceptions,
    truthiness, [String.prototype.includes]);
  - [Worker]: the job table, [getNextPendingJob], [updateJobStatus],
    [InstagramClient.login]/[close] and [processJob] of
    [apps/worker/src/index.ts];
  - [Encryption]: the session encryption service, and the session table
    behind [saveEncryptedSession] and [getDecryptedSession];
  - [Followers]: the followers sync of [SupabaseService] and the table it
    writes;
  - [MediaSync]: [SupabaseService.syncMedia];
  - [Pagination]: the GraphQL pagination loop of [InstagramClient];
  - [Scraping]: [InstagramClient.scrapeFollowers];
  - [Metrics]: [SupabaseService.deriveMetrics].

  External collaborators (the record store, the browser, the clock) are
  represented by an environment record that fixes the outcome of every
  call the code makes to them. *)

From Stdlib Require Import ZArith List Bool String Ascii Lia.
From Stdlib Require Floats.PrimFloat Numbers.Cyclic.Int63.Uint63.
Import ListNotations.
Local Open Scope string_scope.
Local Open Scope Z_scope.

(* ===================================================================== *)
(** ** JavaScript preliminaries *)
(* ===================================================================== *)

Module Js.

(** What a [throw] can carry in this code base: an [AppError] (with its
    [code] and [message]) or a plain [Error] (Playwright, TypeError, the
    [new Error(...)] of the services). *)
Inductive JsError : Type :=
| AppError (code : string) (message : string)
| Error (message : string).

(** The completion of an awaited call. *)
Inductive Outcome (A : Type) : Type :=
| Returned (a : A)
| Thrown (e : JsError).
Arguments Returned {A} a.
Arguments Thrown {A} e.

(** [s.includes(sub)] *)
Fixpoint includes (s sub : string) : bool :=
  String.prefix sub s ||
  match s with
  | EmptyString => false
  | String _ s' => includes s' sub
  end.

(** Truthiness of an optional string ([undefined], [null] and [""] are
    falsy). *)
Definition truthy (o : option string) : bool :=
  match o with
  | Some s => negb (String.eqb s "")
  | None => false
  end.

(** [s.trim()], for the ASCII white space characters. *)
Definition is_space (c : ascii) : bool :=
  let n := nat_of_ascii c in
  ((9 <=? n)%nat && (n <=? 13)%nat) || (n =? 32)%nat.

Fixpoint trim_start (s : string) : string :=
  match s with
  | String c s' => if is_space c then trim_start s' else s
  | EmptyString => EmptyString
  end.

Fixpoint trim_end (s : string) : string :=
  match s with
  | String c s' =>
      match trim_end s' with
      | EmptyString => if is_space c then EmptyString else String c EmptyString
      | t => String c t
      end
  | EmptyString => EmptyString
  end.

Definition trim (s : string) : string := trim_end (trim_start s).

(** [a || b] on optional strings. *)
Definition str_or (o : option string) (d : string) : string :=
  if truthy o then match o with Some s => s | None => d end else d.

End Js.
Import Js.

(** [ErrorCodes] of [packages/shared/src/types.ts] (those the core uses). *)
Module ErrorCodes.
Definition SESSION_EXPIRED := "SESSION_EXPIRED".
Definition INVALID_INPUT := "INVALID_INPUT".
Definition IG_LOGIN_FAILED := "IG_LOGIN_FAILED".
Definition IG_2FA_REQUIRED := "IG_2FA_REQUIRED".
Definition IG_SCRAPE_FAILED := "IG_SCRAPE_FAILED".
Definition DATABASE_ERROR := "DATABASE_ERROR".
Definition NOT_FOUND := "NOT_FOUND".
Definition INTERNAL_SERVER_ERROR := "INTERNAL_SERVER_ERROR".
End ErrorCodes.

(* ===================================================================== *)
(** ** The job dispatcher *)
(* ===================================================================== *)

Module Worker.

Inductive JobType : Type :=
| LOGIN | RECONNECT | SYNC_PROFILE | SYNC_FOLLOWERS | SYNC_MEDIA
| SYNC_STORIES | DERIVE_METRICS.

Inductive JobStatus : Type := PENDING | RUNNING | COMPLETED | FAILED.

Inductive ConnectionState : Type :=
| CONNECTED | EXPIRED | NEEDS_2FA.

(** [job.metadata as any], of which only three keys are read. *)
Record Metadata : Type := {
  username : option string;
  password : option string;
  two_fa_code : option string;
}.

Definition no_metadata : Metadata :=
  {| username := None; password := None; two_fa_code := None |}.

(** A row of [sync_jobs] ([SyncJob] of the shared types). Times are
    milliseconds since the epoch. *)
Record SyncJob : Type := {
  id : string;
  profile_id : string;
  user_id : string;
  job_type : JobType;
  status : JobStatus;
  started_at : option Z;
  finished_at : option Z;
  processed_items : Z;
  error_message : option string;
  metadata : Metadata;
  created_at : Z;
}.

Definition JobStatus_eqb (a b : JobStatus) : bool :=
  match a, b with
  | PENDING, PENDING | RUNNING, RUNNING
  | COMPLETED, COMPLETED | FAILED, FAILED => true
  | _, _ => false
  end.

(** The mutable world of one worker process: the [sync_jobs] table, the
    [connection_state] column of [profiles], and the [browser] field of
    the [InstagramClient] of the job being processed ([true]: a browser
    is held, [false]: [null]). *)
Record State : Type := {
  sync_jobs : list SyncJob;
  connection_state : string -> option ConnectionState;
  browser : bool;
}.

Definition set_jobs (t : list SyncJob) (s : State) : State :=
  {| sync_jobs := t; connection_state := connection_state s;
     browser := browser s |}.

Definition set_browser (b : bool) (s : State) : State :=
  {| sync_jobs := sync_jobs s; connection_state := connection_state s;
     browser := b |}.

Definition set_connection (p : string) (c : ConnectionState) (s : State)
  : State :=
  {| sync_jobs := sync_jobs s;
     connection_state := fun q =>
       if String.eqb q p
       then match connection_state s q with
            | Some _ => Some c
            | None => None
            end
       else connection_state s q;
     browser := browser s |}.

(** Computations of the worker: state passing with exceptions. *)
Definition M (A : Type) : Type := State -> Outcome A * State.

Definition ret {A} (a : A) : M A := fun s => (Returned a, s).
Definition throw {A} (e : JsError) : M A := fun s => (Thrown e, s).
Definition bind {A B} (m : M A) (k : A -> M B) : M B :=
  fun s =>
    match m s with
    | (Returned a, s') => k a s'
    | (Thrown e, s') => (Thrown e, s')
    end.
Definition modify (f : State -> State) : M unit :=
  fun s => (Returned tt, f s).
Definition get {A} (f : State -> A) : M A := fun s => (Returned (f s), s).

(** [try { m } catch (e) { h e }] *)
Definition try_catch {A} (m : M A) (h : JsError -> M A) : M A :=
  fun s =>
    match m s with
    | (Returned a, s') => (Returned a, s')
    | (Thrown e, s') => h e s'
    end.

Declare Scope worker_scope.
Delimit Scope worker_scope with worker.
Notation "x <- m ;; k" := (bind m (fun x => k))
  (at level 61, m at next level, right associativity) : worker_scope.
Notation "m ;; k" := (bind m (fun _ => k))
  (at level 61, right associativity) : worker_scope.
Local Open Scope worker_scope.

(** [if (err) throw ...] for an optional failure of the environment. *)
Definition fail_if {E} (o : option E) (mk : E -> JsError) : M unit :=
  match o with
  | Some e => throw (mk e)
  | None => ret tt
  end.

(** *** The environment *)

(** The login page as the browser shows it to [InstagramClient.login]. *)
Record LoginPage : Type := {
  submit_error : option string;      (* goto / fill / click rejects *)
  has2FAInput : bool;
  has2FAText : bool;
  poll_error : option string;        (* the page rejects during the poll *)
  manualLoginSuccess : bool;         (* outcome of the 10 minute poll *)
  code_entry_error : option string;  (* filling the 2FA code rejects *)
  isLoggedIn : bool;
  errorText : option string;         (* text of #slfErrorAlert *)
  save_info_error : option string;   (* dismissing "Save Info" rejects *)
  cookies_error : option string;     (* context.cookies() rejects *)
}.

(** The outcome of every call [processJob] makes outside this module. *)
Record Env : Type := {
  now : Z;                                      (* new Date() *)
  uuid : JobType -> string;                     (* gen_random_uuid() *)
  select_error : option (string * string);      (* code, message *)
  mark_running_error : option string;
  update_status_error : option string;
  profile_state_error_body : option string;     (* updateProfileState in the switch *)
  profile_state_error_catch : option string;    (* updateProfileState in the catch *)
  launch_error : option string;                 (* chromium.launch *)
  close_error_login : option string;            (* browser.close() in login *)
  close_error_finally : option string;          (* browser.close() in processJob *)
  context_error : option string;                (* newContext / addCookies / newPage *)
  login_page : LoginPage;
  save_session_error : option JsError;          (* saveEncryptedSession *)
  decrypted_session : Outcome bool;             (* getDecryptedSession: a payload? *)
  session_check : option bool;                  (* goto + isVisible in checkSession *)
  profile_lookup : option string;               (* ig_username of the profile *)
  scrape_profile_error : option JsError;
  profile_update_error : bool;
  scrape_followers_error : option JsError;
  sync_followers_result : Outcome Z;
  scrape_media_error : option JsError;
  sync_media_result : Outcome Z;
  derive_metrics_error : option JsError;
}.

(** *** SupabaseService: job management *)

Definition is_pending (j : SyncJob) : bool := JobStatus_eqb (status j) PENDING.

(** [.eq('status','PENDING').order('created_at', {ascending: true}).limit(1)]:
    the pending row of least [created_at] (the first such row of the table
    among equals). *)
Fixpoint oldest (best : SyncJob) (rows : list SyncJob) : SyncJob :=
  match rows with
  | [] => best
  | r :: rows' =>
      if created_at r <? created_at best then oldest r rows'
      else oldest best rows'
  end.

Definition select_oldest_pending (t : list SyncJob) : option SyncJob :=
  match filter is_pending t with
  | [] => None
  | r :: rows => Some (oldest r rows)
  end.

(** [.update(f).eq('id', k)] *)
Definition update_by_id (k : string) (f : SyncJob -> SyncJob)
  (t : list SyncJob) : list SyncJob :=
  map (fun r => if String.eqb (id r) k then f r else r) t.

Definition mark_running (t : Z) (j : SyncJob) : SyncJob :=
  {| id := id j; profile_id := profile_id j; user_id := user_id j;
     job_type := job_type j; status := RUNNING; started_at := Some t;
     finished_at := finished_at j; processed_items := processed_items j;
     error_message := error_message j; metadata := metadata j;
     created_at := created_at j |}.

Definition mark_finished (st : JobStatus) (t : Z) (n : Z)
  (msg : option string) (j : SyncJob) : SyncJob :=
  {| id := id j; profile_id := profile_id j; user_id := user_id j;
     job_type := job_type j; status := st; started_at := started_at j;
     finished_at := Some t; processed_items := n;
     error_message := msg; metadata := metadata j;
     created_at := created_at j |}.

Definition database_error (what msg : string) : JsError :=
  AppError ErrorCodes.DATABASE_ERROR (what ++ msg).

Definition getNextPendingJob (env : Env) : M (option SyncJob) :=
  (* the select, with .single(): no row is reported as error PGRST116 *)
  job <- get (fun s =>
           match select_error env with
           | Some _ => None
           | None => select_oldest_pending (sync_jobs s)
           end) ;;
  let selectError :=
    match select_error env, job with
    | Some e, _ => Some e
    | None, None => Some ("PGRST116", "No rows found")
    | None, Some _ => None
    end in
  match selectError with
  | Some (code, msg) =>
      if negb (String.eqb code "PGRST116")
      then throw (database_error "Failed to select pending job: " msg)
      else ret tt
  | None => ret tt
  end ;;
  match job with
  | None => ret None
  | Some j =>
      match mark_running_error env with
      | Some msg => throw (database_error "Failed to mark job as RUNNING: " msg)
      | None =>
          modify (fun s =>
            set_jobs (update_by_id (id j) (mark_running (now env)) (sync_jobs s)) s) ;;
          ret (Some j)
      end
  end.

Definition status_name (st : JobStatus) : string :=
  match st with
  | PENDING => "PENDING" | RUNNING => "RUNNING"
  | COMPLETED => "COMPLETED" | FAILED => "FAILED"
  end.

Definition updateJobStatus (env : Env) (jobId : string) (st : JobStatus)
  (processedItems : Z) (errorMessage : option string) : M unit :=
  match update_status_error env with
  | Some msg =>
      throw (database_error
               ("Failed to update job status to " ++ status_name st ++ ": ") msg)
  | None =>
      modify (fun s =>
        set_jobs (update_by_id jobId
                    (mark_finished st (now env) processedItems errorMessage)
                    (sync_jobs s)) s)
  end.

Definition updateProfileState (err : option string) (profileId : string)
  (c : ConnectionState) : M unit :=
  match err with
  | Some msg => throw (database_error "Failed to update profile state: " msg)
  | None => modify (set_connection profileId c)
  end.

(** [supabase.from('sync_jobs').insert(row)]: the row gets a generated
    [id]; a primary key conflict (or any other failure) is reported in
    the result, which the caller does not read. *)
Definition insert_job (env : Env) (job : SyncJob) (ty : JobType) : M unit :=
  modify (fun s =>
    let row := {| id := uuid env ty; profile_id := profile_id job;
                  user_id := user_id job; job_type := ty; status := PENDING;
                  started_at := None; finished_at := None;
                  processed_items := 0; error_message := None;
                  metadata := no_metadata; created_at := now env |} in
    if existsb (fun r => String.eqb (id r) (id row)) (sync_jobs s)
    then s
    else set_jobs (sync_jobs s ++ [row]) s).

(** *** InstagramClient *)

(** [initBrowser]: [chromium.launch] sets [this.browser]; the context and
    the page are created afterwards. *)
Definition initBrowser (env : Env) : M unit :=
  fail_if (launch_error env) Error ;;
  modify (set_browser true) ;;
  fail_if (context_error env) Error.

(** [close]: releases the browser when one is held. *)
Definition close (err : option string) : M unit :=
  b <- get browser ;;
  if b then fail_if err Error ;; modify (set_browser false)
  else ret tt.

Definition is_2fa_error (e : JsError) : bool :=
  match e with
  | AppError code _ => String.eqb code ErrorCodes.IG_2FA_REQUIRED
  | Error _ => false
  end.

(** The [try] block of [login], up to its [return]. *)
Definition login_body (env : Env) (twoFaCode : option string) : M unit :=
  let pg := login_page env in
  fail_if (submit_error pg) Error ;;
  let is2faRequired := has2FAInput pg || has2FAText pg in
  (if is2faRequired then
     if negb (truthy twoFaCode) then
       fail_if (poll_error pg) Error ;;
       if negb (manualLoginSuccess pg)
       then throw (AppError ErrorCodes.IG_2FA_REQUIRED
                     "2FA was not completed within 10 minutes.")
       else ret tt
     else fail_if (code_entry_error pg) Error
   else ret tt) ;;
  (if negb (isLoggedIn pg) then
     if truthy (errorText pg)
     then throw (AppError ErrorCodes.IG_LOGIN_FAILED
                   ("Login failed: " ++ trim (str_or (errorText pg) "")))
     else throw (AppError ErrorCodes.IG_LOGIN_FAILED
                   "Login failed for an unknown reason.")
   else ret tt) ;;
  fail_if (save_info_error pg) Error.

(** [getSessionPayload]. The session payload is not inspected by the
    dispatcher, so the model returns [tt] for it. *)
Definition getSessionPayload (env : Env) : M unit :=
  fail_if (cookies_error (login_page env)) Error.

(** [login]. The [try] block ends with [return this.getSessionPayload()]:
    the promise is returned without [await], so its rejection is not seen
    by the [catch] block of [login]. *)
Definition login (env : Env) (twoFaCode : option string) : M unit :=
  initBrowser env ;;
  try_catch (login_body env twoFaCode)
    (fun error =>
       (if negb (is_2fa_error error) then close (close_error_login env)
        else ret tt) ;;
       match error with
       | AppError _ _ => throw error
       | Error _ =>
           throw (AppError ErrorCodes.IG_LOGIN_FAILED
                    "An unexpected error occurred during login.")
       end) ;;
  getSessionPayload env.

Definition checkSession (env : Env) : M bool :=
  initBrowser env ;;
  ret (match session_check env with Some b => b | None => false end).

Definition getDecryptedSession (env : Env) : M bool :=
  match decrypted_session env with
  | Returned b => ret b
  | Thrown e => throw e
  end.

(** *** processJob *)

Definition JobType_name (ty : JobType) : string :=
  match ty with
  | LOGIN => "LOGIN" | RECONNECT => "RECONNECT"
  | SYNC_PROFILE => "SYNC_PROFILE" | SYNC_FOLLOWERS => "SYNC_FOLLOWERS"
  | SYNC_MEDIA => "SYNC_MEDIA" | SYNC_STORIES => "SYNC_STORIES"
  | DERIVE_METRICS => "DERIVE_METRICS"
  end.

(** The session lookup shared by the three scraping jobs. *)
Definition require_session (env : Env) (job : SyncJob) (what : string)
  : M unit :=
  sess <- getDecryptedSession env ;;
  if negb sess then
    updateProfileState (profile_state_error_body env) (profile_id job) EXPIRED ;;
    throw (AppError ErrorCodes.SESSION_EXPIRED
             ("Session expired. Cannot sync " ++ what ++ "."))
  else initBrowser env.

Definition require_profile (env : Env) : M string :=
  match profile_lookup env with
  | Some ig_username => ret ig_username
  | None => throw (AppError ErrorCodes.NOT_FOUND "Profile not found.")
  end.

Definition of_outcome {A} (o : Outcome A) : M A :=
  match o with
  | Returned a => ret a
  | Thrown e => throw e
  end.

(** The [switch (job.job_type)] of the [try] block; the value returned is
    [processedItems]. *)
Definition handler (env : Env) (job : SyncJob) : M Z :=
  match job_type job with
  | LOGIN =>
      let md := metadata job in
      if negb (truthy (username md)) || negb (truthy (password md))
      then throw (AppError ErrorCodes.INVALID_INPUT
                    "Missing username or password in job metadata.")
      else
        login env (two_fa_code md) ;;
        fail_if (save_session_error env) (fun e => e) ;;
        updateProfileState (profile_state_error_body env) (profile_id job)
          CONNECTED ;;
        insert_job env job SYNC_PROFILE ;;
        insert_job env job SYNC_FOLLOWERS ;;
        insert_job env job SYNC_MEDIA ;;
        insert_job env job DERIVE_METRICS ;;
        ret 0
  | RECONNECT =>
      sess <- getDecryptedSession env ;;
      if negb sess
      then throw (AppError ErrorCodes.SESSION_EXPIRED
                    "No valid session found for reconnection.")
      else
        isValid <- checkSession env ;;
        if negb isValid then
          updateProfileState (profile_state_error_body env) (profile_id job)
            EXPIRED ;;
          throw (AppError ErrorCodes.SESSION_EXPIRED
                   "Session check failed. Session is expired.")
        else ret 0
  | SYNC_PROFILE =>
      _ <- require_profile env ;;
      require_session env job "profile" ;;
      fail_if (scrape_profile_error env) (fun e => e) ;;
      (if profile_update_error env
       then throw (AppError ErrorCodes.DATABASE_ERROR
                     "Failed to save profile data")
       else ret tt) ;;
      ret 1
  | SYNC_FOLLOWERS =>
      _ <- require_profile env ;;
      require_session env job "followers" ;;
      fail_if (scrape_followers_error env) (fun e => e) ;;
      of_outcome (sync_followers_result env)
  | SYNC_MEDIA =>
      _ <- require_profile env ;;
      require_session env job "media" ;;
      fail_if (scrape_media_error env) (fun e => e) ;;
      of_outcome (sync_media_result env)
  | DERIVE_METRICS =>
      fail_if (derive_metrics_error env) (fun e => e) ;;
      ret 1
  | SYNC_STORIES =>
      throw (AppError ErrorCodes.INVALID_INPUT
               ("Unknown job type: " ++ JobType_name (job_type job)))
  end.

(** [errorMessage] as the [catch] block formats it. *)
Definition format_error (e : JsError) : string :=
  match e with
  | AppError code message => code ++ ": " ++ message
  | Error message => "Internal Error: " ++ message
  end.

(** The profile update of the [catch] block. *)
Definition catch_block (env : Env) (job : SyncJob) (error : JsError) : M unit :=
  match error with
  | AppError code _ =>
      if String.eqb code ErrorCodes.IG_2FA_REQUIRED then
        updateProfileState (profile_state_error_catch env) (profile_id job)
          NEEDS_2FA
      else if String.eqb code ErrorCodes.SESSION_EXPIRED then
        updateProfileState (profile_state_error_catch env) (profile_id job)
          EXPIRED
      else ret tt
  | Error _ => ret tt
  end.

(** [errorMessage?.includes('IG_2FA_REQUIRED')] *)
Definition is2FACase (errorMessage : option string) : bool :=
  match errorMessage with
  | Some m => includes m "IG_2FA_REQUIRED"
  | None => false
  end.

(** The [finally] block. *)
Definition finally_block (env : Env) (job : SyncJob) (jobStatus : JobStatus)
  (processedItems : Z) (errorMessage : option string) : M unit :=
  (if negb (is2FACase errorMessage) then close (close_error_finally env)
   else ret tt) ;;
  updateJobStatus env (id job) jobStatus processedItems errorMessage.

(** [processJob]: [try { client = new InstagramClient(); switch ... }
    catch { ... } finally { ... }]. An exception of the [finally] block
    replaces the pending completion; otherwise an exception of the [catch]
    block is rethrown once the [finally] block has run. *)
Definition processJob (env : Env) (job : SyncJob) : M unit :=
  fun s0 =>
    let '(r, s1) := (modify (set_browser false) ;; handler env job) s0 in
    let processedItems := match r with Returned n => n | Thrown _ => 0 end in
    let jobStatus := match r with Returned _ => COMPLETED | Thrown _ => FAILED end in
    let errorMessage :=
      match r with Returned _ => None | Thrown e => Some (format_error e) end in
    let '(c, s2) :=
      match r with
      | Returned _ => (Returned tt, s1)
      | Thrown e => catch_block env job e s1
      end in
    let '(f, s3) :=
      finally_block env job jobStatus processedItems errorMessage s2 in
    match f with
    | Thrown e => (Thrown e, s3)
    | Returned _ => (c, s3)
    end.

(** One turn of [workerLoop]: errors are logged and the loop goes on. *)
Definition workerLoopTurn (envClaim envJob : Env) (s : State) : State :=
  match getNextPendingJob envClaim s with
  | (Returned (Some job), s1) => snd (processJob envJob job s1)
  | (_, s1) => s1
  end.

(** *** Reading the job table *)

Local Open Scope list_scope.

(** The row of key [k] ([id] is the primary key of [sync_jobs]). *)
Definition lookup_job (k : string) (t : list SyncJob) : option SyncJob :=
  find (fun r => String.eqb (id r) k) t.

Definition terminal (st : JobStatus) : Prop := st = COMPLETED \/ st = FAILED.

(** What [processJob] may append to the table: pending rows under new keys. *)
Definition appended (t t' : list SyncJob) : Prop :=
  exists news,
    t' = t ++ news /\
    Forall (fun r => status r = PENDING) news /\
    (NoDup (map id t) -> NoDup (map id t')).

(** [m] only appends rows to [sync_jobs]. *)
Definition appends {A} (m : M A) : Prop :=
  forall s r s', m s = (r, s') -> appended (sync_jobs s) (sync_jobs s').

(** [m] leaves [sync_jobs] alone. *)
Definition keeps_jobs {A} (m : M A) : Prop :=
  forall s r s', m s = (r, s') -> sync_jobs s' = sync_jobs s.

(** [m] leaves the [connection_state] column alone. *)
Definition keeps_connection {A} (m : M A) : Prop :=
  forall s r s', m s = (r, s') -> connection_state s' = connection_state s.

(** *** Environments and states for the concrete runs *)

Definition quiet_page : LoginPage :=
  {| submit_error := None; has2FAInput := false; has2FAText := false;
     poll_error := None; manualLoginSuccess := false; code_entry_error := None;
     isLoggedIn := true; errorText := None; save_info_error := None;
     cookies_error := None |}.

(** An environment in which every call succeeds. *)
Definition quiet_env : Env :=
  {| now := 1000;
     uuid := fun ty => String.append "job-" (JobType_name ty);
     select_error := None; mark_running_error := None;
     update_status_error := None; profile_state_error_body := None;
     profile_state_error_catch := None; launch_error := None;
     close_error_login := None; close_error_finally := None;
     context_error := None; login_page := quiet_page;
     save_session_error := None; decrypted_session := Returned true;
     session_check := Some true; profile_lookup := Some "someone";
     scrape_profile_error := None; profile_update_error := false;
     scrape_followers_error := None; sync_followers_result := Returned 3;
     scrape_media_error := None; sync_media_result := Returned 2;
     derive_metrics_error := None |}.

Definition new_job (k : string) (ty : JobType) (md : Metadata) (t : Z)
  : SyncJob :=
  {| id := k; profile_id := "profile-1"; user_id := "user-1";
     job_type := ty; status := PENDING; started_at := None;
     finished_at := None; processed_items := 0; error_message := None;
     metadata := md; created_at := t |}.

Definition credentials : Metadata :=
  {| username := Some "someone"; password := Some "secret";
     two_fa_code := None |}.

Definition login_job : SyncJob := new_job "job-1" LOGIN credentials 10.

Definition example_state : State :=
  {| sync_jobs :=
       [ mark_finished FAILED 7 0 (Some "NOT_FOUND: Profile not found.")
           (mark_running 5 (new_job "job-0" SYNC_PROFILE no_metadata 1));
         new_job "job-2" DERIVE_METRICS no_metadata 20;
         login_job ];
     connection_state := fun _ => Some EXPIRED;
     browser := false |}.

Definition claimed_state : State :=
  snd (getNextPendingJob quiet_env example_state).

Definition finished_state : State :=
  snd (processJob quiet_env login_job claimed_state).

(** The login page asks for a second factor and nobody answers. *)
Definition two_factor_page : LoginPage :=
  {| submit_error := None; has2FAInput := true; has2FAText := true;
     poll_error := None; manualLoginSuccess := false; code_entry_error := None;
     isLoggedIn := false; errorText := None; save_info_error := None;
     cookies_error := None |}.

Definition two_factor_env : Env :=
  {| now := 1000;
     uuid := fun ty => String.append "job-" (JobType_name ty);
     select_error := None; mark_running_error := None;
     update_status_error := None; profile_state_error_body := None;
     profile_state_error_catch := None; launch_error := None;
     close_error_login := None; close_error_finally := None;
     context_error := None; login_page := two_factor_page;
     save_session_error := None; decrypted_session := Returned true;
     session_check := Some true; profile_lookup := Some "someone";
     scrape_profile_error := None; profile_update_error := false;
     scrape_followers_error := None; sync_followers_result := Returned 3;
     scrape_media_error := None; sync_media_result := Returned 2;
     derive_metrics_error := None |}.

(** [errorMessage] at the [finally] block of [processJob]. *)
Definition errorMessage_of (env : Env) (job : SyncJob) (s : State)
  : option string :=
  match fst ((modify (set_browser false) ;; handler env job) s) with
  | Returned _ => None
  | Thrown e => Some (format_error e)
  end.

(** [jobStatus] at the [finally] block of [processJob]. *)
Definition jobStatus_of (env : Env) (job : SyncJob) (s : State) : JobStatus :=
  match fst ((modify (set_browser false) ;; handler env job) s) with
  | Returned _ => COMPLETED
  | Thrown _ => FAILED
  end.

(** The state in which the [finally] block of [processJob] starts. *)
Definition state_at_finally (env : Env) (job : SyncJob) (s : State) : State :=
  let '(r, s1) := (modify (set_browser false) ;; handler env job) s in
  match r with
  | Returned _ => s1
  | Thrown e => snd (catch_block env job e s1)
  end.

(** The call fails. *)
Definition rejects (err : option string) : bool :=
  match err with Some _ => true | None => false end.

(** The [finally] block calls [client.close()] while a browser is held,
    and the call rejects. *)
Definition close_rejects (env : Env) (job : SyncJob) (s : State) : bool :=
  negb (is2FACase (errorMessage_of env job s)) &&
  browser (state_at_finally env job s) &&
  rejects (close_error_finally env).

(** The [finally] block does not reach its end: [close] rejects (the
    status write is then skipped), or the status write is rejected. *)
Definition finally_fails (env : Env) (job : SyncJob) (s : State) : bool :=
  close_rejects env job s || rejects (update_status_error env).

(** A profile scrape that fails with a navigation error quoting the
    profile address. *)
Definition navigation_error : JsError :=
  Error "page.goto: Timeout 30000ms exceeded. navigating to https://www.instagram.com/IG_2FA_REQUIRED/".

Definition failing_scrape_env : Env :=
  {| now := 1000;
     uuid := fun ty => String.append "job-" (JobType_name ty);
     select_error := None; mark_running_error := None;
     update_status_error := None; profile_state_error_body := None;
     profile_state_error_catch := None; launch_error := None;
     close_error_login := None; close_error_finally := None;
     context_error := None; login_page := quiet_page;
     save_session_error := None; decrypted_session := Returned true;
     session_check := Some true; profile_lookup := Some "IG_2FA_REQUIRED";
     scrape_profile_error := Some navigation_error;
     profile_update_error := false;
     scrape_followers_error := None; sync_followers_result := Returned 3;
     scrape_media_error := None; sync_media_result := Returned 2;
     derive_metrics_error := None |}.

Definition scrape_job : SyncJob :=
  mark_running 900 (new_job "job-3" SYNC_PROFILE no_metadata 30).

Definition scrape_state : State :=
  {| sync_jobs := [scrape_job];
     connection_state := fun _ => Some CONNECTED;
     browser := false |}.

(** The row [insert_job] adds for the job type [ty]. *)
Definition follow_up (env : Env) (job : SyncJob) (ty : JobType) : SyncJob :=
  {| id := uuid env ty; profile_id := profile_id job;
     user_id := user_id job; job_type := ty; status := PENDING;
     started_at := None; finished_at := None;
     processed_items := 0; error_message := None;
     metadata := no_metadata; created_at := now env |}.

(** The jobs a successful LOGIN enqueues, in the order of [syncJobs]. *)
Definition follow_ups (env : Env) (job : SyncJob) : list SyncJob :=
  map (follow_up env job)
    [SYNC_PROFILE; SYNC_FOLLOWERS; SYNC_MEDIA; DERIVE_METRICS].

(** The subject of the message of a scraping job without session. *)
Definition sync_subject (ty : JobType) : option string :=
  match ty with
  | SYNC_PROFILE => Some "profile"
  | SYNC_FOLLOWERS => Some "followers"
  | SYNC_MEDIA => Some "media"
  | _ => None
  end.

(** No session is stored for the profile. *)
Definition no_session_env : Env :=
  {| now := 1000;
     uuid := fun ty => String.append "job-" (JobType_name ty);
     select_error := None; mark_running_error := None;
     update_status_error := None; profile_state_error_body := None;
     profile_state_error_catch := None; launch_error := None;
     close_error_login := None; close_error_finally := None;
     context_error := None; login_page := quiet_page;
     save_session_error := None; decrypted_session := Returned false;
     session_check := Some true; profile_lookup := Some "someone";
     scrape_profile_error := None; profile_update_error := false;
     scrape_followers_error := None; sync_followers_result := Returned 3;
     scrape_media_error := None; sync_media_result := Returned 2;
     derive_metrics_error := None |}.

(** Every call succeeds but the status write of the [finally] block. *)
Definition failing_status_env : Env :=
  {| now := 1000;
     uuid := fun ty => String.append "job-" (JobType_name ty);
     select_error := None; mark_running_error := None;
     update_status_error := Some "connection reset";
     profile_state_error_body := None;
     profile_state_error_catch := None; launch_error := None;
     close_error_login := None; close_error_finally := None;
     context_error := None; login_page := quiet_page;
     save_session_error := None; decrypted_session := Returned true;
     session_check := Some true; profile_lookup := Some "someone";
     scrape_profile_error := None; profile_update_error := false;
     scrape_followers_error := None; sync_followers_result := Returned 3;
     scrape_media_error := None; sync_media_result := Returned 2;
     derive_metrics_error := None |}.

(** Every call succeeds but the release of the browser in the [finally]
    block. *)
Definition failing_close_env : Env :=
  {| now := 1000;
     uuid := fun ty => String.append "job-" (JobType_name ty);
     select_error := None; mark_running_error := None;
     update_status_error := None;
     profile_state_error_body := None;
     profile_state_error_catch := None; launch_error := None;
     close_error_login := None;
     close_error_finally := Some "browser.close: Target page, context or browser has been closed";
     context_error := None; login_page := quiet_page;
     save_session_error := None; decrypted_session := Returned true;
     session_check := Some true; profile_lookup := Some "someone";
     scrape_profile_error := None; profile_update_error := false;
     scrape_followers_error := None; sync_followers_result := Returned 3;
     scrape_media_error := None; sync_media_result := Returned 2;
     derive_metrics_error := None |}.

(** A LOGIN job whose metadata carries no password. *)
Definition incomplete_login_job : SyncJob :=
  mark_running 900
    (new_job "job-4" LOGIN
       {| username := Some "someone"; password := None; two_fa_code := None |}
       40).

Definition incomplete_login_state : State :=
  {| sync_jobs := [incomplete_login_job];
     connection_state := fun _ => Some CONNECTED;
     browser := false |}.

(* --------------------------------------------------------------------- *)
(** *** Lemmas on the table operations *)

Lemma oldest_In (rows : list SyncJob) :
  forall best, In (oldest best rows) (best :: rows).
Proof.
  induction rows as [|r rows IH]; intros best; simpl.
  - now left.
  - destruct (created_at r <? created_at best).
    + right. apply IH.
    + destruct (IH best) as [H|H]; [left | right; right]; assumption.
Qed.

Lemma select_oldest_pending_spec (t : list SyncJob) (j : SyncJob) :
  select_oldest_pending t = Some j -> In j t /\ status j = PENDING.
Proof.
  unfold select_oldest_pending.
  destruct (filter is_pending t) as [|r rows] eqn:E; [discriminate|].
  intros H; injection H as <-.
  assert (Hin : In (oldest r rows) (filter is_pending t))
    by (rewrite E; apply oldest_In).
  apply filter_In in Hin. destruct Hin as [Hin Hp]. split; [assumption|].
  unfold is_pending in Hp. destruct (status (oldest r rows)); simpl in Hp;
    congruence.
Qed.

Lemma oldest_least (rows : list SyncJob) :
  forall best,
    created_at (oldest best rows) <= created_at best /\
    forall r, In r rows -> created_at (oldest best rows) <= created_at r.
Proof.
  induction rows as [|x rows IH]; intros best; simpl.
  - split; [lia | contradiction].
  - destruct (Z.ltb_spec (created_at x) (created_at best)) as [Hlt|Hge].
    + destruct (IH x) as [H1 H2]. split; [lia|].
      intros r [<-|Hr]; [assumption | now apply H2].
    + destruct (IH best) as [H1 H2]. split; [assumption|].
      intros r [<-|Hr]; [lia | now apply H2].
Qed.

(** The job selected is the oldest pending one. *)
Lemma select_oldest_pending_least (t : list SyncJob) (j r : SyncJob) :
  select_oldest_pending t = Some j ->
  In r t -> status r = PENDING ->
  created_at j <= created_at r.
Proof.
  unfold select_oldest_pending. intros E Hr Hp.
  assert (Hin : In r (filter is_pending t)).
  { apply filter_In. split; [assumption|]. unfold is_pending. now rewrite Hp. }
  destruct (filter is_pending t) as [|b rows]; [discriminate|].
  injection E as <-. destruct (oldest_least rows b) as [H1 H2].
  destruct Hin as [<-|Hin]; [assumption | now apply H2].
Qed.

Lemma lookup_job_unique (t : list SyncJob) (j : SyncJob) :
  NoDup (map id t) -> In j t -> lookup_job (id j) t = Some j.
Proof.
  induction t as [|r t IH]; simpl; intros Hnd Hin; [contradiction|].
  inversion Hnd as [|x l Hnotin Hnd']; subst.
  destruct Hin as [->|Hin].
  - now rewrite String.eqb_refl.
  - destruct (String.eqb_spec (id r) (id j)) as [Heq|Hne].
    + exfalso. apply Hnotin. rewrite Heq. now apply in_map.
    + now apply IH.
Qed.

Lemma lookup_job_Some (k : string) (t : list SyncJob) (r : SyncJob) :
  lookup_job k t = Some r -> In r t /\ id r = k.
Proof.
  unfold lookup_job. intros H. apply find_some in H.
  destruct H as [Hin Heq]. split; [assumption|].
  now apply String.eqb_eq.
Qed.

Lemma lookup_job_app (k : string) (t news : list SyncJob) :
  lookup_job k (t ++ news) =
  match lookup_job k t with
  | Some r => Some r
  | None => lookup_job k news
  end.
Proof.
  unfold lookup_job. induction t as [|r t IH]; simpl; [reflexivity|].
  destruct (String.eqb (id r) k); [reflexivity | exact IH].
Qed.

Section UpdateById.

Variable k : string.
Variable f : SyncJob -> SyncJob.
Hypothesis f_id : forall r, id (f r) = id r.

Lemma map_id_update (t : list SyncJob) :
  map id (update_by_id k f t) = map id t.
Proof.
  unfold update_by_id. rewrite map_map. apply map_ext.
  intros r. destruct (String.eqb (id r) k); [apply f_id | reflexivity].
Qed.

Lemma lookup_update_same (t : list SyncJob) :
  lookup_job k (update_by_id k f t) = option_map f (lookup_job k t).
Proof.
  unfold lookup_job, update_by_id.
  induction t as [|r t IH]; simpl; [reflexivity|].
  destruct (String.eqb (id r) k) eqn:E.
  - now rewrite f_id, E.
  - now rewrite E.
Qed.

Lemma lookup_update_other (k' : string) (t : list SyncJob) :
  k' <> k -> lookup_job k' (update_by_id k f t) = lookup_job k' t.
Proof.
  intros Hne. unfold lookup_job, update_by_id.
  induction t as [|r t IH]; simpl; [reflexivity|].
  destruct (String.eqb (id r) k) eqn:E.
  - rewrite f_id. apply String.eqb_eq in E. rewrite E.
    destruct (String.eqb_spec k k'); [congruence | exact IH].
  - destruct (String.eqb (id r) k'); [reflexivity | exact IH].
Qed.

End UpdateById.

Lemma mark_running_id (t : Z) (r : SyncJob) : id (mark_running t r) = id r.
Proof. reflexivity. Qed.

Lemma mark_finished_id st t n msg (r : SyncJob) :
  id (mark_finished st t n msg r) = id r.
Proof. reflexivity. Qed.

(* --------------------------------------------------------------------- *)
(** *** What each computation does to [sync_jobs] *)

Lemma appended_refl (t : list SyncJob) : appended t t.
Proof.
  exists []. rewrite app_nil_r. repeat split; auto.
Qed.

Lemma appended_trans (t1 t2 t3 : list SyncJob) :
  appended t1 t2 -> appended t2 t3 -> appended t1 t3.
Proof.
  intros (n1 & -> & P1 & D1) (n2 & -> & P2 & D2).
  exists (n1 ++ n2). rewrite app_assoc. repeat split; auto.
  apply Forall_app; now split.
Qed.

Lemma keeps_appends {A} (m : M A) : keeps_jobs m -> appends m.
Proof.
  intros H s r s' E. rewrite (H _ _ _ E). apply appended_refl.
Qed.

Lemma keeps_ret {A} (a : A) : keeps_jobs (ret a).
Proof. intros s r s' E. now inversion E. Qed.

Lemma keeps_throw {A} (e : JsError) : keeps_jobs (@throw A e).
Proof. intros s r s' E. now inversion E. Qed.

Lemma keeps_get {A} (f : State -> A) : keeps_jobs (get f).
Proof. intros s r s' E. now inversion E. Qed.

Lemma keeps_modify (f : State -> State) :
  (forall s, sync_jobs (f s) = sync_jobs s) -> keeps_jobs (modify f).
Proof. intros H s r s' E. inversion E; subst. apply H. Qed.

Lemma keeps_bind {A B} (m : M A) (k : A -> M B) :
  keeps_jobs m -> (forall a, keeps_jobs (k a)) -> keeps_jobs (bind m k).
Proof.
  intros Hm Hk s r s' E. unfold bind in E.
  destruct (m s) as [[a|e] s1] eqn:Em.
  - rewrite (Hk _ _ _ _ E). eapply Hm; eassumption.
  - inversion E; subst. eapply Hm; eassumption.
Qed.

Lemma keeps_try_catch {A} (m : M A) (h : JsError -> M A) :
  keeps_jobs m -> (forall e, keeps_jobs (h e)) -> keeps_jobs (try_catch m h).
Proof.
  intros Hm Hh s r s' E. unfold try_catch in E.
  destruct (m s) as [[a|e] s1] eqn:Em.
  - inversion E; subst. eapply Hm; eassumption.
  - rewrite (Hh _ _ _ _ E). eapply Hm; eassumption.
Qed.

Lemma keeps_fail_if {E} (o : option E) (mk : E -> JsError) :
  keeps_jobs (fail_if o mk).
Proof. destruct o; [apply keeps_throw | apply keeps_ret]. Qed.

Lemma keeps_of_outcome {A} (o : Outcome A) : keeps_jobs (of_outcome o).
Proof. destruct o; [apply keeps_ret | apply keeps_throw]. Qed.

Lemma appends_bind {A B} (m : M A) (k : A -> M B) :
  appends m -> (forall a, appends (k a)) -> appends (bind m k).
Proof.
  intros Hm Hk s r s' E. unfold bind in E.
  destruct (m s) as [[a|e] s1] eqn:Em.
  - eapply appended_trans; [eapply Hm | eapply Hk]; eassumption.
  - inversion E; subst. eapply Hm; eassumption.
Qed.

Create HintDb jobs discriminated.
#[local] Hint Resolve keeps_ret keeps_throw keeps_get keeps_fail_if
  keeps_of_outcome : jobs.
#[local] Hint Extern 2 (keeps_jobs (bind _ _)) =>
  apply keeps_bind; [ | intros ? ] : jobs.
#[local] Hint Extern 2 (keeps_jobs (try_catch _ _)) =>
  apply keeps_try_catch; [ | intros ? ] : jobs.
#[local] Hint Extern 2 (keeps_jobs (modify _)) =>
  apply keeps_modify; intros ?; reflexivity : jobs.
#[local] Hint Extern 3 (keeps_jobs (if ?b then _ else _)) => destruct b : jobs.
#[local] Hint Extern 3 (keeps_jobs (match ?o with Some _ => _ | None => _ end)) =>
  destruct o : jobs.
#[local] Hint Extern 3 (keeps_jobs (match ?e with AppError _ _ => _ | Error _ => _ end)) =>
  destruct e : jobs.

Ltac keeps := solve [auto 20 with jobs].

Lemma keeps_updateProfileState err p c : keeps_jobs (updateProfileState err p c).
Proof. unfold updateProfileState. keeps. Qed.

Lemma keeps_initBrowser env : keeps_jobs (initBrowser env).
Proof. unfold initBrowser. keeps. Qed.

Lemma keeps_close err : keeps_jobs (close err).
Proof. unfold close. keeps. Qed.

#[local] Hint Resolve keeps_updateProfileState keeps_initBrowser keeps_close
  : jobs.

Lemma keeps_login env code : keeps_jobs (login env code).
Proof. unfold login, login_body, getSessionPayload, is_2fa_error. keeps. Qed.

Lemma keeps_getDecryptedSession env : keeps_jobs (getDecryptedSession env).
Proof. unfold getDecryptedSession. destruct (decrypted_session env); keeps. Qed.

Lemma keeps_checkSession env : keeps_jobs (checkSession env).
Proof. unfold checkSession. keeps. Qed.

#[local] Hint Resolve keeps_login keeps_getDecryptedSession keeps_checkSession
  : jobs.

Lemma keeps_require_session env job what :
  keeps_jobs (require_session env job what).
Proof. unfold require_session. keeps. Qed.

Lemma keeps_require_profile env : keeps_jobs (require_profile env).
Proof. unfold require_profile. keeps. Qed.

Lemma keeps_catch_block env job e : keeps_jobs (catch_block env job e).
Proof. unfold catch_block. keeps. Qed.

#[local] Hint Resolve keeps_require_session keeps_require_profile
  keeps_catch_block : jobs.

Lemma appends_insert_job env job ty : appends (insert_job env job ty).
Proof.
  intros s r s' E. unfold insert_job, modify in E. inversion E; subst; clear E.
  match goal with |- context [existsb ?p ?l] => destruct (existsb p l) eqn:Ex end.
  - apply appended_refl.
  - simpl. eexists. split; [reflexivity|]. split.
    + repeat constructor.
    + intros Hnd. rewrite map_app. simpl.
      apply NoDup_app_remove_l with (l := []). simpl.
      apply NoDup_Add with (a := uuid env ty) (l := map id (sync_jobs s)).
      * rewrite <- (app_nil_r (map id (sync_jobs s))) at 1.
        apply Add_app.
      * split; [assumption|].
        intros Hin. apply in_map_iff in Hin. destruct Hin as (x & Hx & Hin).
        assert (existsb (fun r0 => String.eqb (id r0) (uuid env ty)) (sync_jobs s) = true).
        { apply existsb_exists. exists x. split; [assumption|].
          now apply String.eqb_eq. }
        simpl in Ex. congruence.
Qed.

Lemma appends_handler env job : appends (handler env job).
Proof.
  unfold handler.
  destruct (job_type job);
    try (apply keeps_appends; keeps).
  destruct (negb (truthy (username (metadata job))) ||
            negb (truthy (password (metadata job)))).
  - apply keeps_appends; keeps.
  - repeat match goal with
           | |- appends (bind _ _) => apply appends_bind; [ | intros ? ]
           end;
      try apply appends_insert_job; apply keeps_appends; keeps.
Qed.

(* --------------------------------------------------------------------- *)
(** *** Claiming and finishing a job *)

Lemma getNextPendingJob_Some env s job s1 :
  getNextPendingJob env s = (Returned (Some job), s1) ->
  select_oldest_pending (sync_jobs s) = Some job /\
  sync_jobs s1 = update_by_id (id job) (mark_running (now env)) (sync_jobs s) /\
  browser s1 = browser s.
Proof.
  unfold getNextPendingJob, bind, get, modify, ret, throw.
  destruct (select_error env) as [[code msg]|].
  - destruct (negb (String.eqb code "PGRST116")); discriminate.
  - destruct (select_oldest_pending (sync_jobs s)) as [j|]; simpl.
    + destruct (mark_running_error env); [discriminate|].
      intros H. inversion H; subst. auto.
    + discriminate.
Qed.

(** With no pending row the call returns [null] and writes nothing. *)
Lemma getNextPendingJob_None env s :
  select_error env = None ->
  select_oldest_pending (sync_jobs s) = None ->
  getNextPendingJob env s = (Returned None, s).
Proof.
  intros He Hs. unfold getNextPendingJob, bind, get, modify, ret, throw.
  now rewrite He, Hs.
Qed.

Lemma finally_block_jobs env job st n msg s r s' :
  finally_block env job st n msg s = (r, s') ->
  (r = Returned tt /\
   sync_jobs s' =
     update_by_id (id job) (mark_finished st (now env) n msg) (sync_jobs s)) \/
  ((exists e, r = Thrown e) /\ sync_jobs s' = sync_jobs s).
Proof.
  unfold finally_block, bind. intros E.
  destruct ((if negb (is2FACase msg) then close (close_error_finally env)
             else ret tt) s) as [[[]|e] s1] eqn:E1.
  - assert (Hk : sync_jobs s1 = sync_jobs s).
    { destruct (negb (is2FACase msg));
        [eapply keeps_close | eapply keeps_ret]; eassumption. }
    unfold updateJobStatus in E.
    destruct (update_status_error env).
    + inversion E; subst. right. split; [eauto | assumption].
    + inversion E; subst. left. simpl. now rewrite Hk.
  - inversion E; subst. right. split; [eauto|].
    destruct (negb (is2FACase msg));
      [eapply keeps_close | eapply keeps_ret]; eassumption.
Qed.

Lemma finally_block_returns env job st n msg s :
  close_error_finally env = None -> update_status_error env = None ->
  exists s', finally_block env job st n msg s = (Returned tt, s').
Proof.
  intros Hf Hu.
  unfold finally_block, updateJobStatus, close, get, modify, fail_if, ret, bind.
  rewrite Hf, Hu.
  destruct (negb (is2FACase msg)); simpl; [destruct (browser s)|]; eauto.
Qed.

(** The shape of the table after [processJob]: rows appended by the
    handler, then at most one write on the row of the job, to a terminal
    status. The write is made whenever [processJob] returns, and whenever
    the release of the browser and the write itself do not fail. *)
Lemma processJob_jobs env job s r s' :
  processJob env job s = (r, s') ->
  exists t1 st n msg,
    appended (sync_jobs s) t1 /\ terminal st /\
    (sync_jobs s' = update_by_id (id job) (mark_finished st (now env) n msg) t1 \/
     (sync_jobs s' = t1 /\ (exists e, r = Thrown e) /\
      (close_error_finally env = None -> update_status_error env = None ->
       False))).
Proof.
  unfold processJob. intros E.
  destruct ((modify (set_browser false) ;; handler env job) s)
    as [h s1] eqn:Eh.
  assert (Happ : appended (sync_jobs s) (sync_jobs s1)).
  { revert Eh. apply appends_bind; [ | intros ? ].
    - apply keeps_appends. keeps.
    - apply appends_handler. }
  destruct h as [n|e].
  - destruct (finally_block env job COMPLETED n None s1) as [f s3] eqn:Ef.
    exists (sync_jobs s1), COMPLETED, n, None.
    split; [assumption|]. split; [now left|].
    destruct (finally_block_jobs _ _ _ _ _ _ _ _ Ef) as [[-> Ht]|[[e ->] Ht]];
      inversion E; subst; [now left|].
    right. split; [assumption|]. split; [eauto|].
    intros Hf Hu.
    destruct (finally_block_returns env job COMPLETED n None s1 Hf Hu) as [s4 E4].
    congruence.
  - destruct (catch_block env job e s1) as [c s2] eqn:Ec.
    pose proof (keeps_catch_block _ _ _ _ _ _ Ec) as Hc.
    destruct (finally_block env job FAILED 0 (Some (format_error e)) s2)
      as [f s3] eqn:Ef.
    exists (sync_jobs s1), FAILED, 0, (Some (format_error e)).
    split; [assumption|]. split; [now right|].
    destruct (finally_block_jobs _ _ _ _ _ _ _ _ Ef) as [[-> Ht]|[[e' ->] Ht]];
      rewrite Hc in Ht; inversion E; subst; [now left|].
    right. split; [assumption|]. split; [eauto|].
    intros Hf Hu.
    destruct (finally_block_returns env job FAILED 0 (Some (format_error e))
                s2 Hf Hu) as [s4 E4].
    congruence.
Qed.

(** [processJob] returns normally as soon as the two writes of its [catch]
    and [finally] blocks and the release of the browser succeed, whatever
    the handler did. *)
Lemma processJob_returns env job s :
  profile_state_error_catch env = None ->
  close_error_finally env = None ->
  update_status_error env = None ->
  exists s', processJob env job s = (Returned tt, s').
Proof.
  intros Hc Hf Hu. unfold processJob.
  destruct ((modify (set_browser false) ;; handler env job) s)
    as [[n|e] s1].
  - unfold finally_block, updateJobStatus, close, get, modify, fail_if, ret, bind.
    rewrite Hf, Hu. simpl. destruct (browser s1); eauto.
  - assert (Hcb : exists s2, catch_block env job e s1 = (Returned tt, s2)).
    { unfold catch_block, updateProfileState, modify, ret. rewrite Hc.
      destruct e as [code m|m]; [|eauto].
      destruct (String.eqb code ErrorCodes.IG_2FA_REQUIRED); [eauto|].
      destruct (String.eqb code ErrorCodes.SESSION_EXPIRED); eauto. }
    destruct Hcb as [s2 ->].
    unfold finally_block, updateJobStatus, close, get, modify, fail_if, ret, bind.
    rewrite Hf, Hu.
    destruct (negb (is2FACase (Some (format_error e)))); simpl;
      [destruct (browser s2)|]; eauto.
Qed.

Lemma finally_block_outcome env job st n msg s :
  let fails := (negb (is2FACase msg) && browser s &&
                rejects (close_error_finally env)) ||
               rejects (update_status_error env) in
  (fails = true ->
   exists e s', finally_block env job st n msg s = (Thrown e, s') /\
                sync_jobs s' = sync_jobs s) /\
  (fails = false ->
   exists s', finally_block env job st n msg s = (Returned tt, s') /\
              sync_jobs s' =
              update_by_id (id job) (mark_finished st (now env) n msg) (sync_jobs s)).
Proof.
  unfold finally_block, updateJobStatus, close, get, modify, fail_if, ret,
    throw, bind.
  destruct (is2FACase msg); destruct (browser s) eqn:Hb;
    destruct (close_error_finally env); destruct (update_status_error env);
    cbn; rewrite ?Hb; cbn; split; intros H; try discriminate; eauto.
Qed.

(** The table after [processJob]: the rows appended by the handler, then
    the write of the [finally] block on the row of the job, unless that
    block fails. *)
Lemma processJob_table env job s r s' :
  processJob env job s = (r, s') ->
  exists t1,
    appended (sync_jobs s) t1 /\
    if finally_fails env job s
    then sync_jobs s' = t1 /\ exists e, r = Thrown e
    else exists n,
           sync_jobs s' =
           update_by_id (id job)
             (mark_finished (jobStatus_of env job s) (now env) n
                (errorMessage_of env job s)) t1.
Proof.
  unfold processJob, finally_fails, close_rejects, state_at_finally,
    jobStatus_of, errorMessage_of.
  intros E.
  destruct ((modify (set_browser false) ;; handler env job) s)
    as [h s1] eqn:Eh.
  assert (Happ : appended (sync_jobs s) (sync_jobs s1)).
  { revert Eh. apply appends_bind; [ | intros ? ].
    - apply keeps_appends. apply keeps_modify. reflexivity.
    - apply appends_handler. }
  exists (sync_jobs s1). split; [assumption|]. cbn [fst].
  destruct h as [n|e].
  - destruct (finally_block_outcome env job COMPLETED n None s1) as [Hf Hs].
    cbv zeta in Hf, Hs.
    destruct (negb (is2FACase None) && browser s1 &&
              rejects (close_error_finally env) ||
              rejects (update_status_error env)).
    + destruct (Hf eq_refl) as (e & s3 & Ef & Ht). rewrite Ef in E.
      inversion E; subst. split; [assumption | eauto].
    + destruct (Hs eq_refl) as (s3 & Ef & Ht). rewrite Ef in E.
      inversion E; subst. eauto.
  - destruct (catch_block env job e s1) as [c s2] eqn:Ec.
    pose proof (keeps_catch_block _ _ _ _ _ _ Ec) as Hc. cbn [snd].
    destruct (finally_block_outcome env job FAILED 0 (Some (format_error e)) s2)
      as [Hf Hs].
    cbv zeta in Hf, Hs.
    destruct (negb (is2FACase (Some (format_error e))) && browser s2 &&
              rejects (close_error_finally env) ||
              rejects (update_status_error env)).
    + destruct (Hf eq_refl) as (e' & s3 & Ef & Ht). rewrite Ef in E.
      inversion E; subst. split; [congruence | eauto].
    + destruct (Hs eq_refl) as (s3 & Ef & Ht). rewrite Ef in E.
      inversion E; subst. exists 0. congruence.
Qed.

(** **** C1 *)

(** C1 (as amended). A job claimed by [getNextPendingJob] was PENDING and
    is written RUNNING with its start time. [processJob] then writes its
    row at most once. When the [finally] block completes, the row is
    COMPLETED if the handler returned and FAILED if it threw, with the
    finish time and the message of the error. When the [finally] block
    fails, because [close] rejects (the status write is then skipped) or
    because the status write is rejected, [processJob] throws, the turn of
    the worker loop ends in the same state, and the row stays as the claim
    left it: RUNNING. No other row of the table is written, and the rows
    the handler adds enter as PENDING. *)
Theorem C1_job_status_lifecycle
  (envClaim envJob : Env) (s0 s1 s2 : State) (job : SyncJob) (r : Outcome unit) :
  NoDup (map id (sync_jobs s0)) ->
  getNextPendingJob envClaim s0 = (Returned (Some job), s1) ->
  processJob envJob job s1 = (r, s2) ->
  (lookup_job (id job) (sync_jobs s0) = Some job /\ status job = PENDING) /\
  (exists j1, lookup_job (id job) (sync_jobs s1) = Some j1 /\
     status j1 = RUNNING /\ started_at j1 = Some (now envClaim)) /\
  (exists j2, lookup_job (id job) (sync_jobs s2) = Some j2 /\
     (status j2 = RUNNING \/
      (terminal (status j2) /\ finished_at j2 = Some (now envJob))) /\
     (r = Returned tt \/
      (close_error_finally envJob = None /\ update_status_error envJob = None) ->
      terminal (status j2) /\ finished_at j2 = Some (now envJob))) /\
  (finally_fails envJob job s1 = false ->
   exists j2, lookup_job (id job) (sync_jobs s2) = Some j2 /\
     status j2 = jobStatus_of envJob job s1 /\ terminal (status j2) /\
     finished_at j2 = Some (now envJob) /\
     error_message j2 = errorMessage_of envJob job s1 /\
     started_at j2 = Some (now envClaim)) /\
  (finally_fails envJob job s1 = true ->
   (exists e, r = Thrown e) /\
   lookup_job (id job) (sync_jobs s2) = Some (mark_running (now envClaim) job) /\
   status (mark_running (now envClaim) job) = RUNNING /\
   workerLoopTurn envClaim envJob s0 = s2) /\
  (forall k, k <> id job ->
     lookup_job k (sync_jobs s1) = lookup_job k (sync_jobs s0)) /\
  (forall k row, k <> id job ->
     lookup_job k (sync_jobs s1) = Some row ->
     lookup_job k (sync_jobs s2) = Some row) /\
  (forall k row,
     lookup_job k (sync_jobs s1) = None ->
     lookup_job k (sync_jobs s2) = Some row -> status row = PENDING) /\
  NoDup (map id (sync_jobs s2)).
Proof.
  intros Hnd Hclaim Hproc.
  assert (Hturn : workerLoopTurn envClaim envJob s0 = s2).
  { unfold workerLoopTurn. now rewrite Hclaim, Hproc. }
  apply getNextPendingJob_Some in Hclaim. destruct Hclaim as (Hsel & Ht1 & _).
  apply select_oldest_pending_spec in Hsel. destruct Hsel as [Hin Hpend].
  pose proof (lookup_job_unique _ _ Hnd Hin) as Hl0.
  assert (Hl1 : lookup_job (id job) (sync_jobs s1) =
                Some (mark_running (now envClaim) job)).
  { rewrite Ht1, lookup_update_same by apply mark_running_id. now rewrite Hl0. }
  assert (Hnd1 : NoDup (map id (sync_jobs s1))).
  { rewrite Ht1, map_id_update by apply mark_running_id. assumption. }
  pose proof (processJob_table _ _ _ _ _ Hproc) as Htab.
  apply processJob_jobs in Hproc.
  destruct Hproc as (t1 & st & n & msg & (news & -> & Hnew & Hndn) & Hterm & Hw).
  assert (Hl1' : lookup_job (id job) (sync_jobs s1 ++ news) =
                 Some (mark_running (now envClaim) job)).
  { rewrite lookup_job_app. now rewrite Hl1. }
  split; [now split|].
  split; [eexists; split; [exact Hl1 | now split]|].
  split.
  { destruct Hw as [Hw|(Hw & [e ->] & Hfail)].
    - eexists. split.
      + rewrite Hw, lookup_update_same by apply mark_finished_id.
        rewrite Hl1'. reflexivity.
      + simpl. split; [right|intros _]; now split.
    - eexists. split; [rewrite Hw; exact Hl1'|]. simpl.
      split; [now left|].
      intros [Hr|[Hf Hu]]; [discriminate | now destruct (Hfail Hf Hu)]. }
  split.
  { intros Hok. rewrite Hok in Htab.
    destruct Htab as (t1 & (news' & -> & _) & n' & Ht).
    eexists. split.
    - rewrite Ht, lookup_update_same by apply mark_finished_id.
      rewrite lookup_job_app, Hl1. reflexivity.
    - cbn [mark_finished status finished_at error_message started_at mark_running].
      repeat split; try reflexivity.
      unfold terminal, jobStatus_of.
      destruct (fst _); [now left | now right]. }
  split.
  { intros Hko. rewrite Hko in Htab.
    destruct Htab as (t1 & (news' & -> & _) & Ht & He).
    split; [exact He|]. split; [|split; [reflexivity | exact Hturn]].
    rewrite Ht, lookup_job_app, Hl1. reflexivity. }
  split.
  { intros k Hk. rewrite Ht1. now apply lookup_update_other. }
  split.
  { intros k row Hk Hrow.
    assert (Hl : lookup_job k (sync_jobs s1 ++ news) = Some row)
      by (rewrite lookup_job_app; now rewrite Hrow).
    destruct Hw as [Hw|[Hw _]]; rewrite Hw; [|assumption].
    rewrite lookup_update_other; [assumption | apply mark_finished_id | assumption]. }
  split.
  { intros k row Hnone Hrow.
    assert (Hk : k <> id job) by (intros ->; congruence).
    assert (Hl : lookup_job k (sync_jobs s1 ++ news) = Some row).
    { destruct Hw as [Hw|[Hw _]]; rewrite Hw in Hrow; [|assumption].
      rewrite lookup_update_other in Hrow;
        [assumption | apply mark_finished_id | assumption]. }
    rewrite lookup_job_app, Hnone in Hl.
    apply lookup_job_Some in Hl. destruct Hl as [Hl _].
    rewrite Forall_forall in Hnew. now apply Hnew. }
  destruct Hw as [Hw|[Hw _]]; rewrite Hw.
  - rewrite map_id_update by apply mark_finished_id. auto.
  - auto.
Qed.

(* --------------------------------------------------------------------- *)
(** *** Concrete runs *)

Lemma C1_job_status_lifecycle_witness :
  NoDup (map id (sync_jobs example_state)) /\
  getNextPendingJob quiet_env example_state =
    (Returned (Some login_job), claimed_state) /\
  processJob quiet_env login_job claimed_state = (Returned tt, finished_state) /\
  (exists j2, lookup_job "job-1" (sync_jobs finished_state) = Some j2 /\
     terminal (status j2) /\ finished_at j2 = Some 1000) /\
  finally_fails failing_close_env login_job claimed_state = true /\
  lookup_job "job-1"
    (sync_jobs (snd (processJob failing_close_env login_job claimed_state))) =
  Some (mark_running 1000 login_job).
Proof.
  assert (Hnd : NoDup (map id (sync_jobs example_state))).
  { simpl. repeat constructor; simpl; intuition discriminate. }
  split; [exact Hnd|]. split; [reflexivity|]. split; [reflexivity|].
  split; [|split; [reflexivity|]].
  - destruct (C1_job_status_lifecycle quiet_env quiet_env example_state
                claimed_state finished_state login_job (Returned tt)
                Hnd eq_refl eq_refl)
      as (_ & _ & (j2 & Hj2 & _ & Hterm) & _).
    exists j2. split; [exact Hj2|]. exact (Hterm (or_introl eq_refl)).
  - destruct (C1_job_status_lifecycle quiet_env failing_close_env example_state
                claimed_state
                (snd (processJob failing_close_env login_job claimed_state))
                login_job
                (fst (processJob failing_close_env login_job claimed_state))
                Hnd eq_refl eq_refl)
      as (_ & _ & _ & _ & Hfail & _).
    exact (proj1 (proj2 (Hfail eq_refl))).
Defined.

(** C1 (counterexample). The LOGIN job of the example is claimed and its
    handler returns; the release of the browser then rejects in the
    [finally] block, the status write is skipped and [processJob] throws.
    The worker loop goes on, and the job is left RUNNING without finish
    time. The same row is left when the release succeeds and the status
    write is rejected. *)
Lemma C1_counterexample :
  getNextPendingJob quiet_env example_state =
    (Returned (Some login_job), claimed_state) /\
  fst ((modify (set_browser false) ;; handler failing_close_env login_job)
         claimed_state) = Returned 0 /\
  fst (processJob failing_close_env login_job claimed_state) =
    Thrown (Error "browser.close: Target page, context or browser has been closed") /\
  option_map (fun j => (status j, finished_at j))
    (lookup_job "job-1"
       (sync_jobs (workerLoopTurn quiet_env failing_close_env example_state)))
  = Some (RUNNING, None) /\
  option_map (fun j => (status j, finished_at j))
    (lookup_job "job-1"
       (sync_jobs (workerLoopTurn quiet_env failing_status_env example_state)))
  = Some (RUNNING, None).
Proof. repeat split; reflexivity. Qed.

(** The successful login above leaves the four follow-up jobs pending. *)
Example login_follow_up_jobs :
  map (fun r => (id r, status r)) (sync_jobs finished_state) =
  [ ("job-0", FAILED); ("job-2", PENDING); ("job-1", COMPLETED);
    ("job-SYNC_PROFILE", PENDING); ("job-SYNC_FOLLOWERS", PENDING);
    ("job-SYNC_MEDIA", PENDING); ("job-DERIVE_METRICS", PENDING) ].
Proof. reflexivity. Qed.

(* --------------------------------------------------------------------- *)
(** *** The browser at the end of [processJob] *)

Lemma browser_updateJobStatus env k st n msg s r s' :
  updateJobStatus env k st n msg s = (r, s') -> browser s' = browser s.
Proof.
  unfold updateJobStatus, throw, modify.
  destruct (update_status_error env); intros E; inversion E; reflexivity.
Qed.

(** Whenever the recorded message does not contain the text
    [IG_2FA_REQUIRED] (in particular on success), [processJob] calls
    [close], and no browser is held afterwards. *)
Lemma processJob_releases_browser env job s r s' :
  processJob env job s = (r, s') ->
  close_error_finally env = None ->
  is2FACase (errorMessage_of env job s) = false ->
  browser s' = false.
Proof.
  unfold processJob, errorMessage_of. intros E Hclose Hmsg.
  destruct ((modify (set_browser false) ;; handler env job) s)
    as [h s1] eqn:Eh. simpl in Hmsg.
  set (msg := match h with
              | Returned _ => None
              | Thrown e => Some (format_error e)
              end) in *.
  destruct (match h with
            | Returned _ => (Returned tt, s1)
            | Thrown e => catch_block env job e s1
            end) as [c s2].
  destruct (finally_block env job
              match h with Returned _ => COMPLETED | Thrown _ => FAILED end
              match h with Returned n => n | Thrown _ => 0 end msg s2)
    as [f s3] eqn:Ef.
  assert (Hs3 : browser s3 = false).
  { revert Ef. unfold finally_block. rewrite Hmsg. simpl.
    unfold close, get, fail_if, modify, ret, bind. rewrite Hclose.
    destruct (browser s2) eqn:Hb; intros Ef;
      apply browser_updateJobStatus in Ef; rewrite Ef; simpl; auto. }
  destruct f; inversion E; subst; assumption.
Qed.

(** A LOGIN job that meets the second-factor prompt without a code, and
    whose manual completion does not arrive, is written FAILED with the
    code [IG_2FA_REQUIRED] and keeps its browser. *)
Lemma processJob_2fa_keeps_browser env job s :
  job_type job = LOGIN ->
  truthy (username (metadata job)) = true ->
  truthy (password (metadata job)) = true ->
  truthy (two_fa_code (metadata job)) = false ->
  launch_error env = None -> context_error env = None ->
  submit_error (login_page env) = None ->
  has2FAInput (login_page env) || has2FAText (login_page env) = true ->
  poll_error (login_page env) = None ->
  manualLoginSuccess (login_page env) = false ->
  update_status_error env = None ->
  exists r s',
    processJob env job s = (r, s') /\ browser s' = true /\
    sync_jobs s' =
      update_by_id (id job)
        (mark_finished FAILED (now env) 0
           (Some "IG_2FA_REQUIRED: 2FA was not completed within 10 minutes."))
        (sync_jobs s).
Proof.
  intros Hty Hu Hp Hc Hl Hx Hs H2 Hpoll Hm Hw.
  unfold processJob, handler. rewrite Hty, Hu, Hp. simpl.
  unfold login, login_body, initBrowser, try_catch, fail_if, modify, ret,
    throw, bind.
  rewrite Hl, Hx, Hs, H2, Hc, Hpoll, Hm. simpl.
  unfold catch_block, finally_block, updateProfileState, updateJobStatus,
    throw, modify, ret, bind. simpl.
  rewrite Hw.
  destruct (profile_state_error_catch env); simpl; eauto.
Qed.

Lemma processJob_releases_browser_witness :
  processJob quiet_env login_job claimed_state = (Returned tt, finished_state) /\
  is2FACase (errorMessage_of quiet_env login_job claimed_state) = false /\
  browser finished_state = false.
Proof.
  split; [reflexivity|]. split; [reflexivity|].
  exact (processJob_releases_browser quiet_env login_job claimed_state
           (Returned tt) finished_state eq_refl eq_refl eq_refl).
Defined.

Lemma processJob_2fa_keeps_browser_witness :
  exists r s',
    processJob two_factor_env login_job claimed_state = (r, s') /\
    browser s' = true /\
    option_map error_message (lookup_job "job-1" (sync_jobs s')) =
    Some (Some "IG_2FA_REQUIRED: 2FA was not completed within 10 minutes.").
Proof.
  destruct (processJob_2fa_keeps_browser two_factor_env login_job claimed_state
              eq_refl eq_refl eq_refl eq_refl eq_refl eq_refl eq_refl eq_refl
              eq_refl eq_refl eq_refl) as (r & s' & E & Hb & Ht).
  exists r, s'. split; [exact E|]. split; [exact Hb|].
  rewrite Ht. reflexivity.
Defined.

(** **** C5 *)

(** C5 (failing input). A SYNC_PROFILE job fails with a plain navigation
    error, not with the second-factor code; the message happens to contain
    the text IG_2FA_REQUIRED, so the [finally] block skips [close]: the job
    is written FAILED and the browser launched for the scrape stays held. *)
Theorem C5_browser_kept_on_other_failure :
  fst ((modify (set_browser false) ;; handler failing_scrape_env scrape_job)
         scrape_state) = Thrown navigation_error /\
  is_2fa_error navigation_error = false /\
  fst (processJob failing_scrape_env scrape_job scrape_state) = Returned tt /\
  browser (snd (processJob failing_scrape_env scrape_job scrape_state)) = true /\
  option_map status
    (lookup_job "job-3"
       (sync_jobs (snd (processJob failing_scrape_env scrape_job scrape_state))))
  = Some FAILED.
Proof. repeat split; reflexivity. Qed.

(* --------------------------------------------------------------------- *)
(** *** Claiming a job *)

Lemma select_oldest_pending_None (t : list SyncJob) (j : SyncJob) :
  select_oldest_pending t = None -> In j t -> status j <> PENDING.
Proof.
  unfold select_oldest_pending. intros E Hin Hp.
  assert (H : In j (filter is_pending t)).
  { apply filter_In. split; [assumption|]. unfold is_pending. now rewrite Hp. }
  destruct (filter is_pending t); [contradiction | discriminate].
Qed.

(** [getNextPendingJob] claims the pending job created first: the job it
    returns was PENDING, and no pending job of the table is older. *)
Theorem getNextPendingJob_claims_oldest env s job s1 (r : SyncJob) :
  getNextPendingJob env s = (Returned (Some job), s1) ->
  In r (sync_jobs s) -> status r = PENDING ->
  In job (sync_jobs s) /\ status job = PENDING /\
  created_at job <= created_at r.
Proof.
  intros E Hr Hp. apply getNextPendingJob_Some in E. destruct E as (Hsel & _).
  destruct (select_oldest_pending_spec _ _ Hsel) as [Hin Hst].
  repeat split; try assumption.
  eapply select_oldest_pending_least; eassumption.
Qed.

Lemma getNextPendingJob_claims_oldest_witness :
  getNextPendingJob quiet_env example_state =
    (Returned (Some login_job), claimed_state) /\
  created_at login_job <= 20.
Proof.
  split; [reflexivity|].
  apply (getNextPendingJob_claims_oldest quiet_env example_state login_job
           claimed_state (new_job "job-2" DERIVE_METRICS no_metadata 20)
           eq_refl).
  - right. left. reflexivity.
  - reflexivity.
Defined.

(** When [getNextPendingJob] claims nothing (it returns [null] or throws),
    it has written nothing: a job whose claim failed is still PENDING. It
    returns [null] after a successful query only if no job is pending. *)
Theorem getNextPendingJob_no_claim env s (r : Outcome (option SyncJob)) s1 :
  getNextPendingJob env s = (r, s1) ->
  (forall job, r <> Returned (Some job)) ->
  s1 = s /\
  (r = Returned None -> select_error env = None ->
   forall j, In j (sync_jobs s) -> status j <> PENDING).
Proof.
  unfold getNextPendingJob, bind, get, modify, ret, throw.
  destruct (select_error env) as [[code msg]|] eqn:Es.
  - destruct (negb (String.eqb code "PGRST116")); intros E _;
      inversion E; subst; split; auto; discriminate.
  - destruct (select_oldest_pending (sync_jobs s)) as [j|] eqn:Ej; simpl.
    + destruct (mark_running_error env).
      * intros E _. inversion E; subst. split; [reflexivity | discriminate].
      * intros E Hno. inversion E; subst. now destruct (Hno j).
    + intros E _. inversion E; subst. split; [reflexivity|].
      intros _ _ j Hj. eapply select_oldest_pending_None; eassumption.
Qed.

Lemma getNextPendingJob_no_claim_witness :
  getNextPendingJob quiet_env scrape_state = (Returned None, scrape_state) /\
  Forall (fun j => status j <> PENDING) (sync_jobs scrape_state).
Proof.
  split; [reflexivity|].
  destruct (getNextPendingJob_no_claim quiet_env scrape_state (Returned None)
              scrape_state eq_refl) as [_ H].
  - intros job. discriminate.
  - apply Forall_forall. intros j Hj. exact (H eq_refl eq_refl j Hj).
Defined.

(* --------------------------------------------------------------------- *)
(** *** The handlers *)

Lemma bind_returned {A B} (m : M A) (k : A -> M B) s a s1 :
  m s = (Returned a, s1) -> bind m k s = k a s1.
Proof. intros E. unfold bind. now rewrite E. Qed.

Lemma bind_thrown {A B} (m : M A) (k : A -> M B) s e s1 :
  m s = (Thrown e, s1) -> bind m k s = (Thrown e, s1).
Proof. intros E. unfold bind. now rewrite E. Qed.

Lemma login_keeps_connection env code : keeps_connection (login env code).
Proof.
  intros s r s'.
  unfold login, login_body, initBrowser, getSessionPayload, close, try_catch,
    fail_if, get, modify, ret, throw, bind.
  destruct (launch_error env); [intros E; now inversion E|].
  destruct (context_error env); [intros E; now inversion E|].
  cbn [set_browser browser].
  repeat match goal with
         | |- context [match ?o with Some _ => _ | None => _ end] =>
             destruct o; cbn
         | |- context [if ?b then _ else _] => destruct b; cbn
         end;
    intros E; inversion E; reflexivity.
Qed.

Lemma insert_job_fresh env job ty s :
  ~ In (uuid env ty) (map id (sync_jobs s)) ->
  insert_job env job ty s =
  (Returned tt, set_jobs (sync_jobs s ++ [follow_up env job ty]) s).
Proof.
  intros Hfresh. unfold insert_job, modify, follow_up.
  match goal with |- context [existsb ?p ?l] => destruct (existsb p l) eqn:Ex end;
    [|reflexivity].
  exfalso. apply Hfresh. apply existsb_exists in Ex.
  destruct Ex as (x & Hx & Heq). apply String.eqb_eq in Heq. simpl in Heq.
  rewrite <- Heq. now apply in_map.
Qed.

(** A LOGIN job whose login succeeds saves the session, marks the profile
    CONNECTED and enqueues the four follow-up jobs, in the order
    SYNC_PROFILE, SYNC_FOLLOWERS, SYNC_MEDIA, DERIVE_METRICS, as PENDING
    rows of the same profile and user; the job itself is written COMPLETED
    and the browser is released. *)
Theorem processJob_login_enqueues_syncs env job s s1 :
  job_type job = LOGIN ->
  truthy (username (metadata job)) = true ->
  truthy (password (metadata job)) = true ->
  login env (two_fa_code (metadata job)) (set_browser false s) = (Returned tt, s1) ->
  save_session_error env = None ->
  profile_state_error_body env = None ->
  close_error_finally env = None ->
  update_status_error env = None ->
  NoDup (map id (follow_ups env job) ++ map id (sync_jobs s)) ->
  exists s',
    processJob env job s = (Returned tt, s') /\
    sync_jobs s' =
      update_by_id (id job) (mark_finished COMPLETED (now env) 0 None)
        (sync_jobs s ++ follow_ups env job) /\
    connection_state s' (profile_id job) =
      option_map (fun _ => CONNECTED) (connection_state s (profile_id job)) /\
    browser s' = false.
Proof.
  intros Hty Hu Hp Hlogin Hsave Hbody Hclose Hupd Hnd.
  pose proof (keeps_login _ _ _ _ _ Hlogin) as Hk. simpl in Hk.
  pose proof (login_keeps_connection _ _ _ _ _ Hlogin) as Hc. simpl in Hc.
  assert (Hh : (modify (set_browser false) ;; handler env job) s =
               (Returned 0,
                set_jobs (sync_jobs s ++ follow_ups env job)
                  (set_connection (profile_id job) CONNECTED s1))).
  { unfold handler. rewrite Hty, Hu, Hp. cbn [negb orb].
    unfold bind at 1. unfold modify at 1.
    rewrite (bind_returned _ _ _ _ _ Hlogin).
    rewrite Hsave, Hbody. unfold fail_if, updateProfileState.
    unfold bind at 1. unfold ret at 1.
    unfold bind at 1. unfold modify at 1.
    simpl in Hnd.
    inversion Hnd as [|u1 l1 N1 Hnd1]; subst.
    inversion Hnd1 as [|u2 l2 N2 Hnd2]; subst.
    inversion Hnd2 as [|u3 l3 N3 Hnd3]; subst.
    inversion Hnd3 as [|u4 l4 N4 Hnd4]; subst.
    simpl in N1, N2, N3, N4.
    erewrite bind_returned; cycle 1.
    { apply insert_job_fresh. simpl. rewrite Hk. tauto. }
    erewrite bind_returned; cycle 1.
    { apply insert_job_fresh. simpl. rewrite Hk, map_app, in_app_iff. simpl.
      intuition. }
    erewrite bind_returned; cycle 1.
    { apply insert_job_fresh. simpl. rewrite Hk, !map_app, !in_app_iff. simpl.
      intuition. }
    erewrite bind_returned; cycle 1.
    { apply insert_job_fresh. simpl. rewrite Hk, !map_app, !in_app_iff. simpl.
      intuition. }
    unfold ret, set_jobs, follow_ups. simpl. rewrite Hk, <- !app_assoc.
    reflexivity. }
  unfold processJob. rewrite Hh.
  unfold finally_block, close, updateJobStatus, fail_if, get, modify, ret, bind.
  rewrite Hclose, Hupd. cbn [is2FACase negb].
  cbn [browser set_jobs set_connection]. destruct (browser s1) eqn:Hb;
    (eexists; split; [reflexivity|]; simpl; rewrite Hc;
     split; [reflexivity|]; split; [|reflexivity || exact Hb];
     rewrite String.eqb_refl;
     destruct (connection_state s (profile_id job)); reflexivity).
Qed.

Lemma processJob_login_enqueues_syncs_witness :
  exists s',
    processJob quiet_env login_job claimed_state = (Returned tt, s') /\
    map (fun r => (job_type r, status r)) (sync_jobs s') =
      [ (SYNC_PROFILE, FAILED); (DERIVE_METRICS, PENDING); (LOGIN, COMPLETED);
        (SYNC_PROFILE, PENDING); (SYNC_FOLLOWERS, PENDING);
        (SYNC_MEDIA, PENDING); (DERIVE_METRICS, PENDING) ] /\
    connection_state s' "profile-1" = Some CONNECTED.
Proof.
  assert (Hnd : NoDup (map id (follow_ups quiet_env login_job) ++
                       map id (sync_jobs claimed_state))).
  { simpl. repeat constructor; simpl; intuition discriminate. }
  destruct (processJob_login_enqueues_syncs quiet_env login_job claimed_state
              (set_browser true claimed_state)
              eq_refl eq_refl eq_refl eq_refl eq_refl eq_refl eq_refl eq_refl
              Hnd) as (s' & E & Ht & Hc & _).
  exists s'. split; [exact E|]. split; [rewrite Ht; reflexivity | exact Hc].
Defined.

(** A LOGIN job without username or password fails with INVALID_INPUT
    before any browser is launched: the job is written FAILED with that
    message, no job is enqueued and the profile is left as it was. *)
Theorem processJob_login_without_credentials env job s :
  job_type job = LOGIN ->
  truthy (username (metadata job)) && truthy (password (metadata job)) = false ->
  update_status_error env = None ->
  exists s',
    processJob env job s = (Returned tt, s') /\
    sync_jobs s' =
      update_by_id (id job)
        (mark_finished FAILED (now env) 0
           (Some "INVALID_INPUT: Missing username or password in job metadata."))
        (sync_jobs s) /\
    connection_state s' = connection_state s /\
    browser s' = false.
Proof.
  intros Hty Hcred Hupd.
  unfold processJob, handler. rewrite Hty.
  assert (Hc : negb (truthy (username (metadata job))) ||
               negb (truthy (password (metadata job))) = true).
  { rewrite <- negb_andb. now rewrite Hcred. }
  unfold bind at 1. unfold modify at 1. rewrite Hc.
  unfold throw at 1. cbn [catch_block format_error ErrorCodes.INVALID_INPUT].
  cbn. unfold finally_block, close, updateJobStatus, fail_if, get, modify, ret, bind.
  rewrite Hupd. cbn.
  eexists. split; [reflexivity|]. cbn. auto.
Qed.

Lemma processJob_login_without_credentials_witness :
  exists s',
    processJob quiet_env incomplete_login_job incomplete_login_state =
      (Returned tt, s') /\
    map (fun r => (status r, error_message r)) (sync_jobs s') =
      [ (FAILED,
         Some "INVALID_INPUT: Missing username or password in job metadata.") ] /\
    browser s' = false.
Proof.
  destruct (processJob_login_without_credentials quiet_env incomplete_login_job
              incomplete_login_state eq_refl eq_refl eq_refl)
    as (s' & E & Ht & _ & Hb).
  exists s'. split; [exact E|]. split; [rewrite Ht; reflexivity | exact Hb].
Defined.

(** A scraping job for a profile without valid session never launches a
    browser: the job is written FAILED with the SESSION_EXPIRED message of
    its kind and the profile is marked EXPIRED. *)
Theorem processJob_without_session env job s (what : string) :
  sync_subject (job_type job) = Some what ->
  profile_lookup env <> None ->
  decrypted_session env = Returned false ->
  profile_state_error_body env = None ->
  profile_state_error_catch env = None ->
  update_status_error env = None ->
  exists s',
    processJob env job s = (Returned tt, s') /\
    sync_jobs s' =
      update_by_id (id job)
        (mark_finished FAILED (now env) 0
           (Some (String.append "SESSION_EXPIRED: Session expired. Cannot sync "
                    (String.append what "."))))
        (sync_jobs s) /\
    connection_state s' (profile_id job) =
      option_map (fun _ => EXPIRED) (connection_state s (profile_id job)) /\
    browser s' = false.
Proof.
  intros Hwhat Hprof Hsess Hbody Hcatch Hupd.
  destruct (profile_lookup env) as [u|] eqn:Hu; [clear Hprof | congruence].
  unfold processJob, handler, require_profile, require_session,
    getDecryptedSession.
  destruct (job_type job); try discriminate; injection Hwhat as <-;
    rewrite Hu, Hsess; cbn;
    unfold updateProfileState; rewrite Hbody; cbn;
    unfold catch_block, updateProfileState; cbn; rewrite Hcatch; cbn;
    unfold finally_block, close, updateJobStatus, fail_if, get, modify, ret, bind;
    rewrite Hupd; cbn;
    (eexists; split; [reflexivity|]; cbn; split; [reflexivity|];
     split; [|reflexivity];
     rewrite String.eqb_refl;
     destruct (connection_state s (profile_id job)); reflexivity).
Qed.

Lemma processJob_without_session_witness :
  exists s',
    processJob no_session_env scrape_job scrape_state = (Returned tt, s') /\
    map (fun r => (status r, error_message r)) (sync_jobs s') =
      [ (FAILED, Some "SESSION_EXPIRED: Session expired. Cannot sync profile.") ] /\
    connection_state s' "profile-1" = Some EXPIRED /\
    browser s' = false.
Proof.
  destruct (processJob_without_session no_session_env scrape_job scrape_state
              "profile" eq_refl) as (s' & E & Ht & Hc & Hb);
    try reflexivity; try discriminate.
  exists s'. split; [exact E|]. split; [rewrite Ht; reflexivity|].
  split; [exact Hc | exact Hb].
Defined.

(* --------------------------------------------------------------------- *)
(** *** Failures of [login] *)



(* --------------------------------------------------------------------- *)
(** *** A status write that fails *)

Lemma finally_block_write_fails env job st n errorMessage s msg :
  update_status_error env = Some msg ->
  close_error_finally env = None ->
  exists s',
    finally_block env job st n errorMessage s =
      (Thrown (database_error
                 (String.append "Failed to update job status to "
                    (String.append (status_name st) ": ")) msg), s') /\
    sync_jobs s' = sync_jobs s.
Proof.
  intros Hu Hc.
  unfold finally_block, close, updateJobStatus, fail_if, get, modify, ret,
    throw, bind.
  rewrite Hu, Hc.
  destruct (negb (is2FACase errorMessage)); cbn; [destruct (browser s)|];
    cbn; eexists; split; reflexivity.
Qed.

(** When the status write of the [finally] block fails, [processJob]
    throws DATABASE_ERROR and the row of the job is left as it was: a job
    that was RUNNING stays RUNNING, and [getNextPendingJob] never claims it
    again. *)
Theorem processJob_status_write_failure env job s (j : SyncJob) (msg : string) :
  NoDup (map id (sync_jobs s)) ->
  lookup_job (id job) (sync_jobs s) = Some j ->
  status j = RUNNING ->
  update_status_error env = Some msg ->
  close_error_finally env = None ->
  exists st s',
    terminal st /\
    processJob env job s =
      (Thrown (database_error
                 (String.append "Failed to update job status to "
                    (String.append (status_name st) ": ")) msg), s') /\
    lookup_job (id job) (sync_jobs s') = Some j /\
    (forall env' job' s'',
       getNextPendingJob env' s' = (Returned (Some job'), s'') ->
       id job' <> id job).
Proof.
  intros Hnd Hj Hrun Hu Hc.
  unfold processJob.
  destruct ((modify (set_browser false) ;; handler env job) s) as [h s1] eqn:Eh.
  assert (Happ : appended (sync_jobs s) (sync_jobs s1)).
  { revert Eh. apply appends_bind; [ | intros ? ].
    - apply keeps_appends. apply keeps_modify. reflexivity.
    - apply appends_handler. }
  assert (Hend : forall s2 st n m,
            sync_jobs s2 = sync_jobs s1 ->
            exists s',
              finally_block env job st n m s2 =
                (Thrown (database_error
                           (String.append "Failed to update job status to "
                              (String.append (status_name st) ": ")) msg), s') /\
              lookup_job (id job) (sync_jobs s') = Some j /\
              (forall env' job' s'',
                 getNextPendingJob env' s' = (Returned (Some job'), s'') ->
                 id job' <> id job)).
  { intros s2 st n m Hs2.
    destruct (finally_block_write_fails env job st n m s2 msg Hu Hc)
      as (s' & Ef & Hs').
    exists s'. split; [exact Ef|].
    destruct Happ as (news & Hnews & _ & Hnd').
    assert (Ht : sync_jobs s' = sync_jobs s ++ news) by congruence.
    assert (Hl : lookup_job (id job) (sync_jobs s') = Some j).
    { rewrite Ht, lookup_job_app. now rewrite Hj. }
    split; [exact Hl|].
    intros env' job' s'' E Hid.
    apply getNextPendingJob_Some in E. destruct E as (Hsel & _).
    apply select_oldest_pending_spec in Hsel. destruct Hsel as [Hin Hp].
    assert (Hl' : lookup_job (id job') (sync_jobs s') = Some job').
    { apply lookup_job_unique; [|assumption]. rewrite Ht, <- Hnews.
      now apply Hnd'. }
    rewrite Hid, Hl in Hl'. injection Hl' as <-. congruence. }
  destruct h as [n|e].
  - destruct (Hend s1 COMPLETED n None eq_refl) as (s' & Ef & Hl & Hnever).
    exists COMPLETED, s'. rewrite Ef. split; [now left|]. auto.
  - destruct (catch_block env job e s1) as [c s2] eqn:Ec.
    pose proof (keeps_catch_block _ _ _ _ _ _ Ec) as Hk.
    destruct (Hend s2 FAILED 0 (Some (format_error e)) Hk)
      as (s' & Ef & Hl & Hnever).
    exists FAILED, s'. rewrite Ef. split; [now right|]. auto.
Qed.

Lemma processJob_status_write_failure_witness :
  fst (processJob failing_status_env login_job claimed_state) =
    Thrown (AppError "DATABASE_ERROR"
              "Failed to update job status to COMPLETED: connection reset") /\
  option_map status
    (lookup_job "job-1"
       (sync_jobs (snd (processJob failing_status_env login_job claimed_state))))
  = Some RUNNING.
Proof.
  split; [reflexivity|].
  assert (Hnd : NoDup (map id (sync_jobs claimed_state))).
  { simpl. repeat constructor; simpl; intuition discriminate. }
  destruct (processJob_status_write_failure failing_status_env login_job
              claimed_state (mark_running 1000 login_job) "connection reset"
              Hnd eq_refl eq_refl eq_refl eq_refl)
    as (st & s' & _ & E & Hl & _).
  rewrite E. cbn [snd]. change "job-1" with (id login_job). now rewrite Hl.
Defined.

End Worker.

(* ===================================================================== *)
(** ** The encrypted session store *)
(* ===================================================================== *)

Module Encryption.

Local Open Scope list_scope.

Definition ALGORITHM : string := "aes-256-cbc".
Definition IV_LENGTH : nat := 16.

(** A [Buffer]: a sequence of 8-bit values. *)
Definition Buffer : Type := list ascii.

(** *** Hex encoding of buffers *)

Definition hex_digit (n : N) : ascii :=
  if (n <? 10)%N then ascii_of_N (48 + n) else ascii_of_N (87 + n).

Definition hex_value (c : ascii) : option N :=
  let n := N_of_ascii c in
  if ((48 <=? n) && (n <=? 57))%N then Some (n - 48)%N
  else if ((97 <=? n) && (n <=? 102))%N then Some (n - 87)%N
  else if ((65 <=? n) && (n <=? 70))%N then Some (n - 55)%N
  else None.

(** [buf.toString('hex')] *)
Fixpoint toString_hex (buf : Buffer) : string :=
  match buf with
  | [] => EmptyString
  | b :: buf' =>
      String (hex_digit (N_of_ascii b / 16))
        (String (hex_digit (N_of_ascii b mod 16)) (toString_hex buf'))
  end.

(** [Buffer.from(s, 'hex')]: decoding stops at the first pair that is not
    two hex digits; a trailing single character is dropped. *)
Fixpoint Buffer_from_hex (s : string) : Buffer :=
  match s with
  | String a (String b rest) =>
      match hex_value a, hex_value b with
      | Some h, Some l => ascii_of_N (16 * h + l) :: Buffer_from_hex rest
      | _, _ => []
      end
  | _ => []
  end.

Definition is_hex_digit (c : ascii) : bool :=
  match hex_value c with Some _ => true | None => false end.

Fixpoint is_hex (s : string) : bool :=
  match s with
  | EmptyString => true
  | String c s' => is_hex_digit c && is_hex s'
  end.

(** *** Payloads *)

Record Cookie : Type := {
  name : string;
  value : string;
  domain : string;
  path : string;
  expires : option Z;
  httpOnly : option bool;
  secure : option bool;
  sameSite : option string;
}.

Record DecryptedSessionPayload : Type := {
  cookies : list Cookie;
  user_agent : string;
  timestamp : Z;
}.

Record EncryptedSessionPayload : Type := {
  iv : string;
  encryptedData : string;
  algorithm : string;
}.

Record EncryptionService : Type := {
  encryptionKey : Buffer;
}.

(** [IGSession['state']] *)
Inductive SessionState : Type := VALID | EXPIRED | NEEDS_2FA | INVALID.

Definition SessionState_eqb (a b : SessionState) : bool :=
  match a, b with
  | VALID, VALID | EXPIRED, EXPIRED | NEEDS_2FA, NEEDS_2FA
  | INVALID, INVALID => true
  | _, _ => false
  end.

(** The columns of [ig_sessions] the service writes; [profile_id] is
    unique in the table. *)
Record IGSession : Type := {
  session_profile_id : string;          (* profile_id *)
  session_user_id : string;             (* user_id *)
  session_payload_encrypted : string;
  last_login_at : Z;
  state : SessionState;
}.

(** The constructor: only the length of the hex string is checked. *)
Definition new_EncryptionService (encryptionKeyHex : string)
  : Outcome EncryptionService :=
  if negb (String.length encryptionKeyHex =? 64)%nat
  then Thrown (AppError ErrorCodes.INVALID_INPUT
                 "Encryption key must be a 32-byte (64 hex characters) hex string.")
  else Returned {| encryptionKey := Buffer_from_hex encryptionKeyHex |}.

(** *** A sample payload and a stand-in cipher *)

Definition sample_key_hex : string :=
  "000102030405060708090a0b0c0d0e0f101112131415161718191A1B1C1D1E1F".

Definition sample_iv : Buffer :=
  list_ascii_of_string "0123456789abcdef".

Definition sample_payload : DecryptedSessionPayload :=
  {| cookies :=
       [ {| name := "sessionid"; value := "abc"; domain := ".instagram.com";
            path := "/"; expires := Some (-1); httpOnly := Some true;
            secure := Some true; sameSite := Some "Lax" |} ];
     user_agent := "Mozilla/5.0";
     timestamp := 1700000000000 |}.

(** A stand-in cipher that satisfies the contract: it checks the lengths
    and adds the key and vector bytes to the text. *)
Definition toy_mask (key iv0 : Buffer) (i : nat) : N :=
  (N_of_ascii (nth (i mod 32) key zero) +
   N_of_ascii (nth (i mod 16) iv0 zero))%N.

Fixpoint toy_apply (f : N -> N -> N) (key iv0 : Buffer) (i : nat)
  (m : Buffer) : Buffer :=
  match m with
  | [] => []
  | b :: m' =>
      ascii_of_N (f (N_of_ascii b) (toy_mask key iv0 i) mod 256)
        :: toy_apply f key iv0 (S i) m'
  end.

Definition toy_guard (key iv0 : Buffer) (r : Buffer) : option Buffer :=
  if ((List.length key =? 32) && (List.length iv0 =? 16))%nat then Some r else None.

Definition toy_encrypt (key iv0 m : Buffer) : option Buffer :=
  toy_guard key iv0 (toy_apply (fun b k => b + k)%N key iv0 0 m).

Definition toy_decrypt (key iv0 c : Buffer) : option Buffer :=
  toy_guard key iv0 (toy_apply (fun b k => b + 512 - k)%N key iv0 0 c).

(** A stand-in for the JSON text of an encrypted payload: the three
    fields in hex, separated by bars. *)
Definition hex_of_string (x : string) : string :=
  toString_hex (list_ascii_of_string x).

Definition string_of_hex (h : string) : string :=
  string_of_list_ascii (Buffer_from_hex h).

Fixpoint cut (x : string) : string * string :=
  match x with
  | EmptyString => (EmptyString, EmptyString)
  | String c x' =>
      if Ascii.eqb c "|" then (EmptyString, x')
      else let '(a, r) := cut x' in (String c a, r)
  end.

Definition toy_stringify (e : EncryptedSessionPayload) : string :=
  String.append (hex_of_string (iv e))
    (String "|" (String.append (hex_of_string (encryptedData e))
                   (String "|" (hex_of_string (algorithm e))))).

Definition toy_parse (x : string) : option EncryptedSessionPayload :=
  let '(a, r) := cut x in
  let '(b, c) := cut r in
  Some {| iv := string_of_hex a; encryptedData := string_of_hex b;
          algorithm := string_of_hex (fst (cut c)) |}.

(** A key string of 64 characters that are not all hex digits. *)
Definition not_hex_key : string :=
  "000102030405060708090a0b0c0d0e0f101112131415161718191a1b1c1d1exy".

(** A table holding the session of another profile. *)
Definition other_session : IGSession :=
  {| session_profile_id := "q"; session_user_id := "v";
     session_payload_encrypted := "{}"; last_login_at := 5;
     state := VALID |}.

Section Service.

(** Node's [crypto] and [JSON], taken by their contracts.
    [createCipheriv('aes-256-cbc', key, iv)] followed by [update] and
    [final] is [aes_256_cbc_encrypt]; it throws ([None]) on a key or an
    initialization vector of the wrong length. Texts are JavaScript
    strings, converted to and from bytes as UTF-8. *)
Variable aes_256_cbc_encrypt : Buffer -> Buffer -> Buffer -> option Buffer.
Variable aes_256_cbc_decrypt : Buffer -> Buffer -> Buffer -> option Buffer.
Variable utf8_encode : string -> Buffer.
Variable utf8_decode : Buffer -> string.
Variable JSON_stringify : DecryptedSessionPayload -> string.
Variable JSON_parse : string -> option DecryptedSessionPayload.

(** The payloads JSON represents exactly (finite numbers, no [undefined]
    inside arrays, ...). *)
Variable valid_payload : DecryptedSessionPayload -> Prop.

Hypothesis aes_256_cbc_roundtrip :
  forall key iv0 plain,
    List.length key = 32%nat -> List.length iv0 = IV_LENGTH ->
    exists cipher,
      aes_256_cbc_encrypt key iv0 plain = Some cipher /\
      aes_256_cbc_decrypt key iv0 cipher = Some plain.
Hypothesis utf8_roundtrip : forall text, utf8_decode (utf8_encode text) = text.
Hypothesis JSON_roundtrip :
  forall p, valid_payload p -> JSON_parse (JSON_stringify p) = Some p.

(** [encrypt]; [iv0] is the value of [randomBytes(IV_LENGTH)]. The two
    hex chunks of [update] and [final] concatenate to the hex of the whole
    cipher text. *)
Definition encrypt (svc : EncryptionService) (iv0 : Buffer)
  (payload : DecryptedSessionPayload) : Outcome EncryptedSessionPayload :=
  let text := JSON_stringify payload in
  match aes_256_cbc_encrypt (encryptionKey svc) iv0 (utf8_encode text) with
  | Some encrypted =>
      Returned {| iv := toString_hex iv0;
                  encryptedData := toString_hex encrypted;
                  algorithm := ALGORITHM |}
  | None =>
      Thrown (AppError ErrorCodes.INTERNAL_SERVER_ERROR
                "Failed to encrypt session payload.")
  end.

Definition decrypt_failed : Outcome DecryptedSessionPayload :=
  Thrown (AppError ErrorCodes.INTERNAL_SERVER_ERROR
            "Failed to decrypt session payload. Key or payload may be corrupt.").

Definition decrypt (svc : EncryptionService)
  (encryptedPayload : EncryptedSessionPayload)
  : Outcome DecryptedSessionPayload :=
  if negb (String.eqb (algorithm encryptedPayload) ALGORITHM)
  then decrypt_failed
  else
    let iv0 := Buffer_from_hex (iv encryptedPayload) in
    match aes_256_cbc_decrypt (encryptionKey svc) iv0
            (Buffer_from_hex (encryptedData encryptedPayload)) with
    | None => decrypt_failed
    | Some decrypted =>
        match JSON_parse (utf8_decode decrypted) with
        | Some payload => Returned payload
        | None => decrypt_failed
        end
    end.

(** *** The session table *)

(** [createCipheriv] throws on a key that is not 32 bytes long. *)
Hypothesis aes_256_cbc_key_length :
  forall key iv0 plain,
    List.length key <> 32%nat -> aes_256_cbc_encrypt key iv0 plain = None.

(** [createDecipheriv] throws on an initialization vector that is not 16
    bytes long. *)
Hypothesis aes_256_cbc_iv_length :
  forall key iv0 cipher,
    List.length iv0 <> IV_LENGTH -> aes_256_cbc_decrypt key iv0 cipher = None.

(** [JSON.stringify] of an encrypted payload, and [JSON.parse] of a text
    read as an object with the three string fields. On any other text the
    completion of [JSON.parse] followed by [decrypt] (a [SyntaxError], or
    the failure of [decrypt]) is [unreadable_session]. *)
Variable JSON_stringify_encrypted : EncryptedSessionPayload -> string.
Variable JSON_parse_encrypted : string -> option EncryptedSessionPayload.
Variable unreadable_session : string -> Outcome DecryptedSessionPayload.

Hypothesis JSON_encrypted_roundtrip :
  forall e, JSON_parse_encrypted (JSON_stringify_encrypted e) = Some e.

Definition same_profile (row r : IGSession) : bool :=
  String.eqb (session_profile_id r) (session_profile_id row).

(** [upsert(row, {onConflict: 'profile_id'})] *)
Definition upsert_session (row : IGSession) (t : list IGSession)
  : list IGSession :=
  if existsb (same_profile row) t
  then map (fun r => if same_profile row r then row else r) t
  else t ++ [row].

(** [saveEncryptedSession]; [iv0] is the value of [randomBytes], [now] the
    clock and [upsert_error] the failure of the write, when it fails. *)
Definition saveEncryptedSession (svc : EncryptionService) (iv0 : Buffer)
  (now : Z) (upsert_error : option string)
  (profileId userId : string) (payload : DecryptedSessionPayload)
  (st : SessionState) (t : list IGSession)
  : Outcome unit * list IGSession :=
  match encrypt svc iv0 payload with
  | Thrown e => (Thrown e, t)
  | Returned encryptedPayload =>
      match upsert_error with
      | Some msg =>
          (Thrown (AppError ErrorCodes.DATABASE_ERROR
                     (String.append "Failed to save encrypted session: " msg)),
           t)
      | None =>
          (Returned tt,
           upsert_session
             {| session_profile_id := profileId;
                session_user_id := userId;
                session_payload_encrypted :=
                  JSON_stringify_encrypted encryptedPayload;
                last_login_at := now;
                state := st |} t)
      end
  end.

(** [.eq('profile_id', p).eq('state', 'VALID').single()]: the row when
    there is exactly one, the error PGRST116 otherwise. *)
Definition select_valid_session (select_error : option (string * string))
  (profileId : string) (t : list IGSession)
  : option IGSession * option (string * string) :=
  match select_error with
  | Some e => (None, Some e)
  | None =>
      match filter (fun r => String.eqb (session_profile_id r) profileId &&
                             SessionState_eqb (state r) VALID) t with
      | [r] => (Some r, None)
      | _ => (None, Some ("PGRST116", "JSON object requested, multiple (or no) rows returned"))
      end
  end.

(** The end of [getDecryptedSession]: [if (!session) return null], then
    [JSON.parse] and [decrypt]. *)
Definition open_session (svc : EncryptionService) (session : option IGSession)
  : Outcome (option DecryptedSessionPayload) :=
  match session with
  | None => Returned None
  | Some r =>
      match
        match JSON_parse_encrypted (session_payload_encrypted r) with
        | Some e => decrypt svc e
        | None => unreadable_session (session_payload_encrypted r)
        end
      with
      | Returned p => Returned (Some p)
      | Thrown err => Thrown err
      end
  end.

(** [getDecryptedSession] *)
Definition getDecryptedSession (svc : EncryptionService)
  (select_error : option (string * string)) (profileId : string)
  (t : list IGSession) : Outcome (option DecryptedSessionPayload) :=
  let '(session, error) := select_valid_session select_error profileId t in
  match error with
  | Some (code, msg) =>
      if negb (String.eqb code "PGRST116")
      then Thrown (AppError ErrorCodes.DATABASE_ERROR
                     (String.append "Failed to fetch session: " msg))
      else open_session svc session
  | None => open_session svc session
  end.

(** *** Hex round trip *)

Lemma hex_byte_roundtrip (b : ascii) :
  hex_value (hex_digit (N_of_ascii b / 16)) = Some (N_of_ascii b / 16)%N /\
  hex_value (hex_digit (N_of_ascii b mod 16)) = Some (N_of_ascii b mod 16)%N.
Proof.
  destruct b as [[] [] [] [] [] [] [] []]; split; reflexivity.
Qed.

Lemma Buffer_from_hex_toString (buf : Buffer) :
  Buffer_from_hex (toString_hex buf) = buf.
Proof.
  induction buf as [|b buf IH]; [reflexivity|].
  cbn [toString_hex Buffer_from_hex].
  destruct (hex_byte_roundtrip b) as [-> ->]. rewrite IH. f_equal.
  rewrite <- N.div_mod'. apply ascii_N_embedding.
Qed.

Lemma Buffer_from_hex_length_aux (s : string) :
  (is_hex s = true ->
   List.length (Buffer_from_hex s) = Nat.div2 (String.length s)) /\
  (forall c, is_hex (String c s) = true ->
   List.length (Buffer_from_hex (String c s)) = Nat.div2 (S (String.length s))).
Proof.
  induction s as [|a s [IH1 IH2]].
  - split; [reflexivity|]. intros c _. reflexivity.
  - split; [apply IH2|].
    intros c H. cbn [is_hex] in H.
    apply andb_prop in H. destruct H as [Hc H].
    apply andb_prop in H. destruct H as [Ha Hs].
    cbn [Buffer_from_hex]. unfold is_hex_digit in Hc, Ha.
    destruct (hex_value c); [|discriminate].
    destruct (hex_value a); [|discriminate].
    cbn [List.length String.length Nat.div2]. f_equal. now apply IH1.
Qed.

Lemma Buffer_from_hex_length (s : string) :
  is_hex s = true ->
  List.length (Buffer_from_hex s) = Nat.div2 (String.length s).
Proof. apply Buffer_from_hex_length_aux. Qed.

(** *** The service *)

(** A key string of any other length is rejected by the constructor. *)
Lemma new_EncryptionService_length (hex : string) :
  String.length hex <> 64%nat ->
  new_EncryptionService hex =
  Thrown (AppError ErrorCodes.INVALID_INPUT
            "Encryption key must be a 32-byte (64 hex characters) hex string.").
Proof.
  intros H. unfold new_EncryptionService.
  apply Nat.eqb_neq in H. now rewrite H.
Qed.

Lemma new_EncryptionService_key (hex : string) (svc : EncryptionService) :
  is_hex hex = true ->
  new_EncryptionService hex = Returned svc ->
  List.length (encryptionKey svc) = 32%nat.
Proof.
  intros Hh. unfold new_EncryptionService.
  destruct (String.length hex =? 64)%nat eqn:E; [|discriminate].
  simpl. intros H. injection H as <-. simpl.
  rewrite Buffer_from_hex_length by assumption.
  apply Nat.eqb_eq in E. now rewrite E.
Qed.

(** [decrypt] rejects a payload of another algorithm. *)
Lemma decrypt_other_algorithm svc e :
  algorithm e <> ALGORITHM -> decrypt svc e = decrypt_failed.
Proof.
  intros H. unfold decrypt. apply String.eqb_neq in H. now rewrite H.
Qed.

(** **** C2 *)

(** C2. With a service built from a 32-byte key (64 hex digits), for every
    initialization vector of 16 bytes and every valid payload, [encrypt]
    succeeds and [decrypt] of its result returns the payload. *)
Theorem C2_decrypt_encrypt
  (encryptionKeyHex : string) (svc : EncryptionService) (iv0 : Buffer)
  (p : DecryptedSessionPayload) :
  is_hex encryptionKeyHex = true ->
  new_EncryptionService encryptionKeyHex = Returned svc ->
  List.length iv0 = IV_LENGTH ->
  valid_payload p ->
  exists e, encrypt svc iv0 p = Returned e /\ decrypt svc e = Returned p.
Proof.
  intros Hhex Hnew Hiv Hp.
  pose proof (new_EncryptionService_key _ _ Hhex Hnew) as Hkey.
  destruct (aes_256_cbc_roundtrip (encryptionKey svc) iv0
              (utf8_encode (JSON_stringify p)) Hkey Hiv) as (c & Henc & Hdec).
  unfold encrypt. rewrite Henc. eexists. split; [reflexivity|].
  unfold decrypt. cbn [algorithm iv encryptedData].
  rewrite String.eqb_refl. cbn [negb].
  rewrite !Buffer_from_hex_toString, Hdec, utf8_roundtrip.
  now rewrite JSON_roundtrip.
Qed.

(** *** The constructor and keys that are not hex *)

Lemma Buffer_from_hex_short_aux (s : string) :
  (Nat.even (String.length s) = true -> is_hex s = false ->
   (List.length (Buffer_from_hex s) < Nat.div2 (String.length s))%nat) /\
  (forall c, Nat.even (String.length (String c s)) = true ->
   is_hex (String c s) = false ->
   (List.length (Buffer_from_hex (String c s)) <
    Nat.div2 (String.length (String c s)))%nat).
Proof.
  induction s as [|a s [IH1 IH2]].
  - split; [discriminate|]. intros c H. discriminate.
  - split; [apply IH2|].
    intros c He Hh. cbn [String.length Nat.even] in He.
    cbn [is_hex] in Hh. cbn [Buffer_from_hex String.length Nat.div2].
    unfold is_hex_digit in Hh.
    destruct (hex_value c); [|cbn [List.length]; apply Nat.lt_0_succ].
    destruct (hex_value a); [|cbn [List.length]; apply Nat.lt_0_succ].
    cbn [andb] in Hh. cbn [List.length].
    apply -> Nat.succ_lt_mono. now apply IH1.
Qed.

(** The constructor accepts any string of 64 characters. When they are
    not all hex digits the key it stores is shorter than 32 bytes, and
    every [encrypt] of the service then fails. *)
Theorem new_EncryptionService_not_hex (encryptionKeyHex : string) :
  String.length encryptionKeyHex = 64%nat ->
  is_hex encryptionKeyHex = false ->
  exists svc,
    new_EncryptionService encryptionKeyHex = Returned svc /\
    (List.length (encryptionKey svc) < 32)%nat /\
    forall iv0 payload,
      encrypt svc iv0 payload =
      Thrown (AppError ErrorCodes.INTERNAL_SERVER_ERROR
                "Failed to encrypt session payload.").
Proof.
  intros Hlen Hhex. unfold new_EncryptionService. rewrite Hlen. simpl.
  eexists. split; [reflexivity|].
  assert (Hk : (List.length (Buffer_from_hex encryptionKeyHex) < 32)%nat).
  { destruct (Buffer_from_hex_short_aux encryptionKeyHex) as [H _].
    rewrite Hlen in H. apply H; [reflexivity | assumption]. }
  split; [exact Hk|].
  intros iv0 payload. unfold encrypt. cbn [encryptionKey].
  rewrite aes_256_cbc_key_length by lia. reflexivity.
Qed.

(** [decrypt] never lets another error out than its own: it returns a
    payload or throws INTERNAL_SERVER_ERROR with its fixed message. It
    throws it on every payload of another algorithm, and on every payload
    whose [iv] does not decode from hex to 16 bytes (an [iv] cut short, or
    holding a character that is not a hex digit), whatever the key and the
    data. *)
Theorem decrypt_rejects_malformed svc (e : EncryptedSessionPayload) :
  ((exists p, decrypt svc e = Returned p) \/ decrypt svc e = decrypt_failed) /\
  (String.eqb (algorithm e) ALGORITHM = false \/
   List.length (Buffer_from_hex (iv e)) <> IV_LENGTH ->
   decrypt svc e = decrypt_failed).
Proof.
  unfold decrypt. split.
  - destruct (negb (String.eqb (algorithm e) ALGORITHM)); [now right|].
    destruct (aes_256_cbc_decrypt _ _ _); [|now right].
    destruct (JSON_parse _); [left; eauto | now right].
  - intros [H | H].
    + now rewrite H.
    + destruct (negb (String.eqb (algorithm e) ALGORITHM)); [reflexivity|].
      now rewrite aes_256_cbc_iv_length.
Qed.

(** *** Sessions saved and read back *)

Lemma encrypt_then_decrypt svc iv0 p :
  List.length (encryptionKey svc) = 32%nat ->
  List.length iv0 = IV_LENGTH ->
  valid_payload p ->
  exists e, encrypt svc iv0 p = Returned e /\ decrypt svc e = Returned p.
Proof.
  intros Hkey Hiv Hp.
  destruct (aes_256_cbc_roundtrip (encryptionKey svc) iv0
              (utf8_encode (JSON_stringify p)) Hkey Hiv) as (c & Henc & Hdec).
  unfold encrypt. rewrite Henc. eexists. split; [reflexivity|].
  unfold decrypt. cbn [algorithm iv encryptedData].
  rewrite String.eqb_refl. cbn [negb].
  rewrite !Buffer_from_hex_toString, Hdec, utf8_roundtrip.
  now rewrite JSON_roundtrip.
Qed.

Lemma filter_no_profile (k : string) (P : IGSession -> bool) (t : list IGSession) :
  ~ In k (map session_profile_id t) ->
  filter (fun r => String.eqb (session_profile_id r) k && P r) t = [].
Proof.
  induction t as [|r t IH]; [reflexivity|].
  cbn [map In filter]. intros H.
  destruct (String.eqb_spec (session_profile_id r) k) as [E|E].
  - exfalso. apply H. now left.
  - cbn [andb]. apply IH. intros Hin. apply H. now right.
Qed.

Lemma existsb_same_profile (row : IGSession) (t : list IGSession) :
  existsb (same_profile row) t = true <->
  In (session_profile_id row) (map session_profile_id t).
Proof.
  rewrite existsb_exists, in_map_iff. unfold same_profile.
  split; intros (r & H1 & H2).
  - exists r. split; [now apply String.eqb_eq | assumption].
  - exists r. split; [assumption | now apply String.eqb_eq].
Qed.

Lemma filter_replaced (row : IGSession) (P : IGSession -> bool)
  (t : list IGSession) :
  NoDup (map session_profile_id t) ->
  In (session_profile_id row) (map session_profile_id t) ->
  filter (fun r => String.eqb (session_profile_id r) (session_profile_id row) && P r)
    (map (fun r => if same_profile row r then row else r) t) =
  if P row then [row] else [].
Proof.
  induction t as [|r t IH]; [contradiction|].
  cbn [map In]. intros Hnd Hin. inversion Hnd as [|x l Hnotin Hnd']; subst.
  unfold same_profile at 1. cbn [filter].
  destruct (String.eqb_spec (session_profile_id r) (session_profile_id row))
    as [E|E].
  - rewrite String.eqb_refl. cbn [andb].
    assert (Hrest :
      filter (fun r0 => String.eqb (session_profile_id r0) (session_profile_id row) && P r0)
        (map (fun r0 => if same_profile row r0 then row else r0) t) = []).
    { apply filter_no_profile. rewrite map_map.
      rewrite <- E in *. intros Hin'. apply Hnotin.
      apply in_map_iff in Hin'. destruct Hin' as (y & Hy & Hyin).
      apply in_map_iff. exists y. split; [|assumption].
      unfold same_profile in Hy.
      destruct (String.eqb_spec (session_profile_id y) (session_profile_id row));
        congruence. }
    rewrite Hrest. destruct (P row); reflexivity.
  - apply String.eqb_neq in E. rewrite E. cbn [andb].
    apply IH; [assumption|]. destruct Hin as [Hin|Hin]; [|assumption].
    apply String.eqb_neq in E. congruence.
Qed.

Lemma filter_upsert_same (row : IGSession) (k : string)
  (P : IGSession -> bool) (t : list IGSession) :
  session_profile_id row = k ->
  NoDup (map session_profile_id t) ->
  filter (fun r => String.eqb (session_profile_id r) k && P r)
    (upsert_session row t) =
  if P row then [row] else [].
Proof.
  intros <- Hnd. unfold upsert_session.
  destruct (existsb (same_profile row) t) eqn:Ex.
  - apply filter_replaced; [assumption|]. now apply existsb_same_profile.
  - rewrite filter_app, filter_no_profile.
    + cbn [filter app]. rewrite String.eqb_refl. reflexivity.
    + intros Hin. apply existsb_same_profile in Hin. congruence.
Qed.

Lemma filter_upsert_other (row : IGSession) (q : string)
  (P : IGSession -> bool) (t : list IGSession) :
  q <> session_profile_id row ->
  filter (fun r => String.eqb (session_profile_id r) q && P r)
    (upsert_session row t) =
  filter (fun r => String.eqb (session_profile_id r) q && P r) t.
Proof.
  intros Hq. unfold upsert_session.
  assert (Hrow : String.eqb (session_profile_id row) q = false)
    by (apply String.eqb_neq; congruence).
  destruct (existsb (same_profile row) t).
  - induction t as [|r t IH]; [reflexivity|].
    cbn [map filter]. rewrite IH. unfold same_profile.
    destruct (String.eqb_spec (session_profile_id r) (session_profile_id row))
      as [E|E]; [|reflexivity].
    rewrite Hrow. rewrite E, Hrow. reflexivity.
  - rewrite filter_app. cbn [filter]. rewrite Hrow. cbn [andb].
    apply app_nil_r.
Qed.

Lemma upsert_session_NoDup (row : IGSession) (t : list IGSession) :
  NoDup (map session_profile_id t) ->
  NoDup (map session_profile_id (upsert_session row t)).
Proof.
  intros Hnd. unfold upsert_session.
  destruct (existsb (same_profile row) t) eqn:Ex.
  - rewrite map_map.
    replace (map (fun x => session_profile_id (if same_profile row x then row else x)) t)
      with (map session_profile_id t); [assumption|].
    apply map_ext. intros r. unfold same_profile.
    destruct (String.eqb_spec (session_profile_id r) (session_profile_id row));
      congruence.
  - rewrite map_app. cbn [map].
    apply NoDup_app_remove_l with (l := []). cbn [app].
    apply NoDup_Add with (a := session_profile_id row) (l := map session_profile_id t).
    + rewrite <- (app_nil_r (map session_profile_id t)) at 1. apply Add_app.
    + split; [assumption|]. intros Hin.
      apply existsb_same_profile in Hin. congruence.
Qed.

(** A session saved as VALID is the one read back for its profile: with a
    key of 64 hex digits, [getDecryptedSession] after a successful
    [saveEncryptedSession] returns the payload that was saved, whatever
    session the profile had before; the table keeps one row per profile. *)
Theorem session_saved_is_read_back
  (encryptionKeyHex : string) (svc : EncryptionService) (iv0 : Buffer)
  (now : Z) (profileId userId : string) (p : DecryptedSessionPayload)
  (t : list IGSession) :
  is_hex encryptionKeyHex = true ->
  new_EncryptionService encryptionKeyHex = Returned svc ->
  List.length iv0 = IV_LENGTH ->
  valid_payload p ->
  NoDup (map session_profile_id t) ->
  exists t',
    saveEncryptedSession svc iv0 now None profileId userId p VALID t =
      (Returned tt, t') /\
    getDecryptedSession svc None profileId t' = Returned (Some p) /\
    NoDup (map session_profile_id t').
Proof.
  intros Hhex Hnew Hiv Hp Hnd.
  pose proof (new_EncryptionService_key _ _ Hhex Hnew) as Hkey.
  destruct (encrypt_then_decrypt svc iv0 p Hkey Hiv Hp) as (e & He & Hd).
  unfold saveEncryptedSession. rewrite He.
  eexists. split; [reflexivity|]. split.
  - unfold getDecryptedSession, select_valid_session.
    match goal with
    | |- context [upsert_session ?row t] =>
        rewrite (filter_upsert_same row profileId
                   (fun r => SessionState_eqb (state r) VALID) t eq_refl Hnd)
    end.
    cbn. rewrite JSON_encrypted_roundtrip, Hd. reflexivity.
  - now apply upsert_session_NoDup.
Qed.

(** A session saved in another state than VALID replaces the session of
    the profile all the same, and [getDecryptedSession] then finds none. *)
Theorem session_not_valid_is_not_read
  (encryptionKeyHex : string) (svc : EncryptionService) (iv0 : Buffer)
  (now : Z) (profileId userId : string) (p : DecryptedSessionPayload)
  (st : SessionState) (t : list IGSession) :
  is_hex encryptionKeyHex = true ->
  new_EncryptionService encryptionKeyHex = Returned svc ->
  List.length iv0 = IV_LENGTH ->
  valid_payload p ->
  NoDup (map session_profile_id t) ->
  st <> VALID ->
  exists t',
    saveEncryptedSession svc iv0 now None profileId userId p st t =
      (Returned tt, t') /\
    getDecryptedSession svc None profileId t' = Returned None.
Proof.
  intros Hhex Hnew Hiv Hp Hnd Hst.
  pose proof (new_EncryptionService_key _ _ Hhex Hnew) as Hkey.
  destruct (encrypt_then_decrypt svc iv0 p Hkey Hiv Hp) as (e & He & _).
  unfold saveEncryptedSession. rewrite He.
  eexists. split; [reflexivity|].
  unfold getDecryptedSession, select_valid_session.
  match goal with
  | |- context [upsert_session ?row t] =>
      rewrite (filter_upsert_same row profileId
                 (fun r => SessionState_eqb (state r) VALID) t eq_refl Hnd)
  end.
  cbn. destruct st; try reflexivity. congruence.
Qed.

(** Saving the session of a profile does not change what
    [getDecryptedSession] answers for any other profile. *)
Theorem session_of_other_profile_kept
  (svc : EncryptionService) (iv0 : Buffer) (now : Z)
  (upsert_error : option string) (select_error : option (string * string))
  (profileId userId q : string) (p : DecryptedSessionPayload)
  (st : SessionState) (t : list IGSession) :
  q <> profileId ->
  getDecryptedSession svc select_error q
    (snd (saveEncryptedSession svc iv0 now upsert_error profileId userId p st t)) =
  getDecryptedSession svc select_error q t.
Proof.
  intros Hq. unfold saveEncryptedSession.
  destruct (encrypt svc iv0 p); [|reflexivity].
  destruct upsert_error; [reflexivity|]. cbn [snd].
  unfold getDecryptedSession, select_valid_session.
  rewrite filter_upsert_other by (cbn; assumption). reflexivity.
Qed.

End Service.

(** *** An instance of the contracts *)

Lemma toy_mask_bound key iv0 i : (toy_mask key iv0 i < 512)%N.
Proof.
  unfold toy_mask.
  pose proof (N_ascii_bounded (nth (i mod 32) key zero)).
  pose proof (N_ascii_bounded (nth (i mod 16) iv0 zero)). lia.
Qed.

Lemma toy_apply_roundtrip key iv0 m :
  forall i,
    toy_apply (fun b k => b + 512 - k)%N key iv0 i
      (toy_apply (fun b k => b + k)%N key iv0 i m) = m.
Proof.
  induction m as [|b m IH]; intros i; [reflexivity|].
  cbn [toy_apply]. rewrite IH. f_equal.
  pose proof (toy_mask_bound key iv0 i) as Hk.
  pose proof (N_ascii_bounded b) as Hb.
  rewrite N_ascii_embedding by (apply N.mod_lt; lia).
  rewrite <- (ascii_N_embedding b) at 2. f_equal.
  set (k := toy_mask key iv0 i) in *. set (n := N_of_ascii b) in *.
  rewrite <- N.add_sub_assoc by lia.
  rewrite N.add_comm, N.Div0.add_mod_idemp_r.
  replace (512 - k + (n + k))%N with (n + 2 * 256)%N by lia.
  rewrite N.Div0.mod_add. apply N.mod_small. lia.
Qed.

Lemma toy_roundtrip key iv0 plain :
  List.length key = 32%nat -> List.length iv0 = IV_LENGTH ->
  exists cipher,
    toy_encrypt key iv0 plain = Some cipher /\
    toy_decrypt key iv0 cipher = Some plain.
Proof.
  intros Hk Hi. unfold toy_encrypt, toy_decrypt, toy_guard.
  rewrite Hk, Hi. simpl. eexists. split; [reflexivity|].
  now rewrite toy_apply_roundtrip.
Qed.

Lemma toy_key_length key iv0 plain :
  List.length key <> 32%nat -> toy_encrypt key iv0 plain = None.
Proof.
  intros H. unfold toy_encrypt, toy_guard.
  apply Nat.eqb_neq in H. now rewrite H.
Qed.

Lemma cut_hex_byte (b : ascii) (x : string) :
  cut (String (hex_digit (N_of_ascii b / 16))
         (String (hex_digit (N_of_ascii b mod 16)) x)) =
  let '(a, r) := cut x in
  (String (hex_digit (N_of_ascii b / 16))
     (String (hex_digit (N_of_ascii b mod 16)) a), r).
Proof.
  destruct b as [[] [] [] [] [] [] [] []]; cbn; destruct (cut x); reflexivity.
Qed.

Lemma cut_hex (buf : Buffer) (r : string) :
  cut (String.append (toString_hex buf) (String "|" r)) = (toString_hex buf, r).
Proof.
  induction buf as [|b buf IH]; [reflexivity|].
  cbn [toString_hex String.append]. now rewrite cut_hex_byte, IH.
Qed.

Lemma cut_hex_end (buf : Buffer) :
  cut (toString_hex buf) = (toString_hex buf, EmptyString).
Proof.
  induction buf as [|b buf IH]; [reflexivity|].
  cbn [toString_hex]. now rewrite cut_hex_byte, IH.
Qed.

Lemma string_of_hex_of_string (x : string) :
  string_of_hex (hex_of_string x) = x.
Proof.
  unfold string_of_hex, hex_of_string.
  rewrite Buffer_from_hex_toString. apply string_of_list_ascii_of_string.
Qed.

Lemma toy_codec_roundtrip (e : EncryptedSessionPayload) :
  toy_parse (toy_stringify e) = Some e.
Proof.
  unfold toy_parse, toy_stringify, hex_of_string.
  rewrite cut_hex, cut_hex, cut_hex_end. cbn [fst].
  fold (hex_of_string (iv e)). fold (hex_of_string (encryptedData e)).
  fold (hex_of_string (algorithm e)).
  rewrite !string_of_hex_of_string. now destruct e.
Qed.

Lemma toy_iv_length key iv0 cipher :
  List.length iv0 <> IV_LENGTH -> toy_decrypt key iv0 cipher = None.
Proof.
  intros H. unfold toy_decrypt, toy_guard. unfold IV_LENGTH in H.
  apply Nat.eqb_neq in H. rewrite H. now rewrite andb_false_r.
Qed.

Lemma decrypt_rejects_malformed_witness :
  List.length (Buffer_from_hex "0123456789abcdef0123456789abcdeX") = 15%nat /\
  decrypt toy_decrypt string_of_list_ascii (fun _ => Some sample_payload)
    {| encryptionKey := Buffer_from_hex sample_key_hex |}
    {| iv := "0123456789abcdef0123456789abcdeX"; encryptedData := "00";
       algorithm := "aes-256-cbc" |}
  = decrypt_failed.
Proof.
  split; [reflexivity|].
  refine (proj2 (decrypt_rejects_malformed toy_decrypt string_of_list_ascii
                   (fun _ => Some sample_payload) toy_iv_length
                   {| encryptionKey := Buffer_from_hex sample_key_hex |}
                   {| iv := "0123456789abcdef0123456789abcdeX";
                      encryptedData := "00"; algorithm := "aes-256-cbc" |}) _).
  right. vm_compute. discriminate.
Defined.

Lemma new_EncryptionService_not_hex_witness :
  exists svc,
    new_EncryptionService not_hex_key = Returned svc /\
    (List.length (encryptionKey svc) < 32)%nat /\
    encrypt toy_encrypt list_ascii_of_string (fun _ => "{}") svc sample_iv
      sample_payload =
    Thrown (AppError ErrorCodes.INTERNAL_SERVER_ERROR
              "Failed to encrypt session payload.").
Proof.
  destruct (new_EncryptionService_not_hex toy_encrypt list_ascii_of_string
              (fun _ => "{}") toy_key_length not_hex_key eq_refl eq_refl)
    as (svc & H1 & H2 & H3).
  exists svc. split; [exact H1|]. split; [exact H2 | apply H3].
Defined.

Lemma session_saved_is_read_back_witness :
  exists t',
    saveEncryptedSession toy_encrypt list_ascii_of_string (fun _ => "{}")
      toy_stringify {| encryptionKey := Buffer_from_hex sample_key_hex |}
      sample_iv 77 None "p" "u" sample_payload VALID [other_session] =
      (Returned tt, t') /\
    getDecryptedSession toy_decrypt string_of_list_ascii
      (fun _ => Some sample_payload) toy_parse (fun _ => decrypt_failed)
      {| encryptionKey := Buffer_from_hex sample_key_hex |} None "p" t' =
      Returned (Some sample_payload) /\
    map session_profile_id t' = ["q"; "p"].
Proof.
  assert (Hnd : NoDup (map session_profile_id [other_session])).
  { repeat constructor. simpl. tauto. }
  destruct (session_saved_is_read_back toy_encrypt toy_decrypt
              list_ascii_of_string string_of_list_ascii
              (fun _ => "{}") (fun _ => Some sample_payload)
              (fun p => p = sample_payload)
              toy_roundtrip string_of_list_ascii_of_string
              (fun p (H : p = sample_payload) => f_equal Some (eq_sym H))
              toy_stringify toy_parse (fun _ => decrypt_failed)
              toy_codec_roundtrip
              sample_key_hex
              {| encryptionKey := Buffer_from_hex sample_key_hex |}
              sample_iv 77 "p" "u" sample_payload [other_session]
              eq_refl eq_refl eq_refl eq_refl Hnd) as (t' & Hs & Hg & _).
  exists t'. split; [exact Hs|]. split; [exact Hg|].
  unfold saveEncryptedSession in Hs.
  destruct (encrypt _ _ _ _ _ _) in Hs; [|discriminate].
  injection Hs as <-. reflexivity.
Defined.

Lemma session_not_valid_is_not_read_witness :
  exists t',
    saveEncryptedSession toy_encrypt list_ascii_of_string (fun _ => "{}")
      toy_stringify {| encryptionKey := Buffer_from_hex sample_key_hex |}
      sample_iv 77 None "q" "v" sample_payload EXPIRED [other_session] =
      (Returned tt, t') /\
    getDecryptedSession toy_decrypt string_of_list_ascii
      (fun _ => Some sample_payload) toy_parse (fun _ => decrypt_failed)
      {| encryptionKey := Buffer_from_hex sample_key_hex |} None "q" t' =
      Returned None.
Proof.
  assert (Hnd : NoDup (map session_profile_id [other_session])).
  { repeat constructor. simpl. tauto. }
  assert (Hst : EXPIRED <> VALID) by discriminate.
  exact (session_not_valid_is_not_read toy_encrypt toy_decrypt
           list_ascii_of_string string_of_list_ascii
           (fun _ => "{}") (fun _ => Some sample_payload)
           (fun p => p = sample_payload)
           toy_roundtrip string_of_list_ascii_of_string
           (fun p (H : p = sample_payload) => f_equal Some (eq_sym H))
           toy_stringify toy_parse (fun _ => decrypt_failed)
           sample_key_hex
           {| encryptionKey := Buffer_from_hex sample_key_hex |}
           sample_iv 77 "q" "v" sample_payload EXPIRED [other_session]
           eq_refl eq_refl eq_refl eq_refl Hnd Hst).
Defined.

Lemma session_of_other_profile_kept_witness :
  "q" <> "p" /\
  getDecryptedSession toy_decrypt string_of_list_ascii
    (fun _ => Some sample_payload) toy_parse (fun _ => decrypt_failed)
    {| encryptionKey := Buffer_from_hex sample_key_hex |} None "q"
    (snd (saveEncryptedSession toy_encrypt list_ascii_of_string (fun _ => "{}")
            toy_stringify {| encryptionKey := Buffer_from_hex sample_key_hex |}
            sample_iv 77 None "p" "u" sample_payload VALID [other_session])) =
  getDecryptedSession toy_decrypt string_of_list_ascii
    (fun _ => Some sample_payload) toy_parse (fun _ => decrypt_failed)
    {| encryptionKey := Buffer_from_hex sample_key_hex |} None "q"
    [other_session].
Proof.
  assert (Hq : "q" <> "p") by discriminate.
  split; [exact Hq|].
  exact (session_of_other_profile_kept toy_encrypt toy_decrypt
           list_ascii_of_string string_of_list_ascii
           (fun _ => "{}") (fun _ => Some sample_payload)
           toy_stringify toy_parse (fun _ => decrypt_failed)
           {| encryptionKey := Buffer_from_hex sample_key_hex |}
           sample_iv 77 None None "p" "u" "q" sample_payload VALID
           [other_session] Hq).
Defined.

Lemma C2_decrypt_encrypt_witness :
  exists svc e,
    new_EncryptionService sample_key_hex = Returned svc /\
    encrypt toy_encrypt list_ascii_of_string (fun _ => "{}") svc sample_iv
      sample_payload = Returned e /\
    decrypt toy_decrypt string_of_list_ascii (fun _ => Some sample_payload)
      svc e = Returned sample_payload.
Proof.
  exists {| encryptionKey := Buffer_from_hex sample_key_hex |}.
  destruct (C2_decrypt_encrypt toy_encrypt toy_decrypt
              list_ascii_of_string string_of_list_ascii
              (fun _ => "{}") (fun _ => Some sample_payload)
              (fun p => p = sample_payload)
              toy_roundtrip string_of_list_ascii_of_string
              (fun p (H : p = sample_payload) => f_equal Some (eq_sym H))
              sample_key_hex
              {| encryptionKey := Buffer_from_hex sample_key_hex |}
              sample_iv sample_payload
              eq_refl eq_refl eq_refl eq_refl) as (e & He & Hd).
  exists e. split; [reflexivity|]. split; assumption.
Defined.

End Encryption.

(* ===================================================================== *)
(** ** The followers sync *)
(* ===================================================================== *)

Module Followers.

Local Open Scope list_scope.

(** *** JavaScript [Set] and [Map] on string keys, in insertion order *)

Definition has (s : list string) (x : string) : bool :=
  existsb (String.eqb x) s.

Definition Set_add (s : list string) (x : string) : list string :=
  if has s x then s else s ++ [x].

(** [new Set(l)] *)
Definition Set_from (l : list string) : list string :=
  fold_left Set_add l [].

Fixpoint Map_get {V} (k : string) (m : list (string * V)) : option V :=
  match m with
  | [] => None
  | (k', v) :: m' => if String.eqb k' k then Some v else Map_get k m'
  end.

(** [m.set(k, v)]: an existing key keeps its position. *)
Fixpoint Map_set {V} (k : string) (v : V) (m : list (string * V))
  : list (string * V) :=
  match m with
  | [] => [(k, v)]
  | (k', v') :: m' =>
      if String.eqb k' k then (k, v) :: m' else (k', v') :: Map_set k v m'
  end.

Definition Map_values {V} (m : list (string * V)) : list V := map snd m.

(** *** Records *)

(** An entry of [followersData] / [followingData]. *)
Record ScrapedUser : Type := {
  ig_id : string;
  username : string;
  full_name : option string;
  is_private : bool;
  is_verified : bool;
  profile_pic_url : option string;
}.

(** A value of [allUsersMap]: the scraped entry ([...follower]) and the
    three relation flags. *)
Record MergedUser : Type := {
  scraped : ScrapedUser;
  is_follower : bool;
  is_following : bool;
  is_following_back : bool;
}.

Inductive ChangeType : Type :=
| NEW_FOLLOWER | UNFOLLOWED | STARTED_FOLLOWING | STOPPED_FOLLOWING.

(** Rows of the tables [followers], [follower_changes] and
    [followers_snapshots]. *)
Module Row.

Record Follower : Type := {
  profile_id : string;
  user_id : string;
  follower_ig_id : string;
  follower_username : option string;
  follower_name : option string;
  follower_pic_url : option string;
  is_verified : bool;
  is_private : bool;
  is_follower : bool;
  is_following : bool;
  is_following_back : bool;
  updated_at : Z;
}.

Record Change : Type := {
  change_profile_id : string;
  change_user_id : string;
  change_ig_id : string;          (* follower_ig_id *)
  change_username : string;       (* follower_username *)
  change_type : ChangeType;
}.

Record Snapshot : Type := {
  snapshot_profile_id : string;
  snapshot_user_id : string;
  total_followers : nat;
  total_following : nat;
  new_followers : nat;
  lost_followers : nat;
  non_followers : nat;
  follower_ids : list string;
  following_ids : list string;
}.

End Row.

(** *** syncFollowers *)

Section Sync.

Variables profileId userId : string.
Variable now : Z.

(** The rows the first query returned ([None]: the query failed and
    [data] is [null]). *)
Variable currentFollowers : option (list Row.Follower).
Variables followersData followingData : list ScrapedUser.

Definition stored_ids (keep : Row.Follower -> bool) : list string :=
  match currentFollowers with
  | Some rows => map Row.follower_ig_id (filter keep rows)
  | None => []
  end.

Definition currentFollowerIds : list string :=
  Set_from (stored_ids Row.is_follower).
Definition currentFollowingIds : list string :=
  Set_from (stored_ids Row.is_following).

Definition newFollowerIds : list string := Set_from (map ig_id followersData).
Definition newFollowingIds : list string := Set_from (map ig_id followingData).

Definition add_follower (m : list (string * MergedUser)) (follower : ScrapedUser)
  : list (string * MergedUser) :=
  Map_set (ig_id follower)
    {| scraped := follower;
       is_follower := true;
       is_following := has newFollowingIds (ig_id follower);
       is_following_back := has newFollowingIds (ig_id follower) |} m.

Definition add_following (m : list (string * MergedUser)) (following : ScrapedUser)
  : list (string * MergedUser) :=
  match Map_get (ig_id following) m with
  | Some existing =>
      (* existing.is_following = true; existing.is_following_back = true *)
      Map_set (ig_id following)
        {| scraped := scraped existing;
           is_follower := is_follower existing;
           is_following := true;
           is_following_back := true |} m
  | None =>
      Map_set (ig_id following)
        {| scraped := following;
           is_follower := false;
           is_following := true;
           is_following_back := false |} m
  end.

Definition allUsersMap : list (string * MergedUser) :=
  fold_left add_following followingData
    (fold_left add_follower followersData []).

Definition to_row (user : MergedUser) : Row.Follower :=
  {| Row.profile_id := profileId;
     Row.user_id := userId;
     Row.follower_ig_id := ig_id (scraped user);
     Row.follower_username := Some (username (scraped user));
     Row.follower_name := full_name (scraped user);
     Row.follower_pic_url := profile_pic_url (scraped user);
     Row.is_verified := is_verified (scraped user);
     Row.is_private := is_private (scraped user);
     Row.is_follower := is_follower user;
     Row.is_following := is_following user;
     Row.is_following_back := is_following_back user;
     Row.updated_at := now |}.

Definition followersToUpsert : list Row.Follower :=
  map to_row (Map_values allUsersMap).

(** [Array.from(a).filter(id => !b.has(id))] *)
Definition minus (a b : list string) : list string :=
  filter (fun x => negb (has b x)) a.

Definition newFollowersList : list string := minus newFollowerIds currentFollowerIds.
Definition lostFollowersList : list string := minus currentFollowerIds newFollowerIds.
Definition newFollowingList : list string := minus newFollowingIds currentFollowingIds.
Definition stoppedFollowingList : list string := minus currentFollowingIds newFollowingIds.

Definition change (igId uname : string) (ty : ChangeType) : Row.Change :=
  {| Row.change_profile_id := profileId; Row.change_user_id := userId;
     Row.change_ig_id := igId; Row.change_username := uname;
     Row.change_type := ty |}.

(** The event of an id found in the current lists. *)
Definition change_of_user (ty : ChangeType) (igId : string) : list Row.Change :=
  match Map_get igId allUsersMap with
  | Some user => [change igId (username (scraped user)) ty]
  | None => []
  end.

(** The event of an id found in the stored rows. *)
Definition change_of_stored (ty : ChangeType) (igId : string) : list Row.Change :=
  match currentFollowers with
  | Some rows =>
      match find (fun f => String.eqb (Row.follower_ig_id f) igId) rows with
      | Some existing =>
          [change igId (str_or (Row.follower_username existing) igId) ty]
      | None => []
      end
  | None => []
  end.

Definition changes : list Row.Change :=
  flat_map (change_of_user NEW_FOLLOWER) newFollowersList ++
  flat_map (change_of_stored UNFOLLOWED) lostFollowersList ++
  flat_map (change_of_user STARTED_FOLLOWING) newFollowingList ++
  flat_map (change_of_stored STOPPED_FOLLOWING) stoppedFollowingList.

Definition nonFollowers : list MergedUser :=
  filter (fun u => is_following u && negb (is_follower u))
    (Map_values allUsersMap).

Definition nonFollowersCount : nat := List.length nonFollowers.

Definition snapshot : Row.Snapshot :=
  {| Row.snapshot_profile_id := profileId;
     Row.snapshot_user_id := userId;
     Row.total_followers := List.length followersData;
     Row.total_following := List.length followingData;
     Row.new_followers := List.length newFollowersList;
     Row.lost_followers := List.length lostFollowersList;
     Row.non_followers := nonFollowersCount;
     Row.follower_ids := newFollowerIds;
     Row.following_ids := newFollowingIds |}.

(** [for (i = 0; i < rows.length; i += size) rows.slice(i, i + size)] *)
Fixpoint slices {A} (fuel size : nat) (rows : list A) : list (list A) :=
  match fuel, rows with
  | S fuel', _ :: _ => firstn size rows :: slices fuel' size (skipn size rows)
  | _, _ => []
  end.

Definition BATCH_SIZE : nat := 1000.

(** What [syncFollowers] sends to the record store. *)
Record Writes : Type := {
  upserted : list (list Row.Follower);     (* the batches accepted *)
  inserted_changes : list Row.Change;      (* one insert, when not empty *)
  inserted_snapshot : option Row.Snapshot;
}.

(** The batches are sent in order; the first one the store rejects
    ([upsert_error i], for the batch of index [i]) aborts the sync. *)
Fixpoint upsert_batches (upsert_error : nat -> option string) (i : nat)
  (batches : list (list Row.Follower))
  : list (list Row.Follower) * option string :=
  match batches with
  | [] => ([], None)
  | b :: rest =>
      match upsert_error i with
      | Some msg => ([], Some msg)
      | None =>
          let '(done, err) := upsert_batches upsert_error (S i) rest in
          (b :: done, err)
      end
  end.

Definition syncFollowers (upsert_error : nat -> option string)
  : Outcome nat * Writes :=
  let batches :=
    slices (List.length followersToUpsert) BATCH_SIZE followersToUpsert in
  match upsert_batches upsert_error 0 batches with
  | (done, Some msg) =>
      (Thrown (Error (String.append "Failed to upsert followers: " msg)),
       {| upserted := done; inserted_changes := [];
          inserted_snapshot := None |})
  | (done, None) =>
      (Returned (List.length followersToUpsert),
       {| upserted := done; inserted_changes := changes;
          inserted_snapshot := Some snapshot |})
  end.

End Sync.

(** *** The example of the specification *)

Definition user (k : string) : ScrapedUser :=
  {| ig_id := k; username := String.append "user_" k; full_name := None;
     is_private := false; is_verified := false; profile_pic_url := None |}.

Definition stored (k : string) (follower following : bool) : Row.Follower :=
  {| Row.profile_id := "p"; Row.user_id := "u"; Row.follower_ig_id := k;
     Row.follower_username := Some (String.append "user_" k);
     Row.follower_name := None; Row.follower_pic_url := None;
     Row.is_verified := false; Row.is_private := false;
     Row.is_follower := follower; Row.is_following := following;
     Row.is_following_back := follower && following; Row.updated_at := 0 |}.

(** Previous followers {A,B,C}, previous following {B,C,D}. *)
Definition previous_rows : option (list Row.Follower) :=
  Some [stored "A" true false; stored "B" true true;
        stored "C" true true; stored "D" false true].

Definition current_followers : list ScrapedUser := [user "B"; user "C"; user "E"].
Definition current_following : list ScrapedUser := [user "B"; user "D"; user "F"].

Definition mem (k : string) (l : list ScrapedUser) : bool :=
  existsb (fun u => String.eqb (ig_id u) k) l.

Definition event (c : Row.Change) : string * ChangeType :=
  (Row.change_ig_id c, Row.change_type c).

(** The same account returned twice by the following pagination. *)
Definition repeated_following : list ScrapedUser := [user "X"; user "X"].

(** The merged map after the entries [done] of [followersData]. *)
Definition followers_upto (followingData done : list ScrapedUser)
  (m : list (string * MergedUser)) : Prop :=
  NoDup (map fst m) /\
  forall k,
    match Map_get k m with
    | Some v =>
        ig_id (scraped v) = k /\ is_follower v = true /\
        is_following v = mem k followingData /\
        is_following_back v = mem k followingData /\
        mem k done = true
    | None => mem k done = false
    end.

(** The merged map after all of [followersData] and the entries [done] of
    [followingData]: its keys are their ids, and the first two flags of
    every record are right. *)
Definition merged_upto (followersData followingData done : list ScrapedUser)
  (m : list (string * MergedUser)) : Prop :=
  NoDup (map fst m) /\
  forall k,
    match Map_get k m with
    | Some v =>
        ig_id (scraped v) = k /\
        is_follower v = mem k followersData /\
        is_following v = mem k followingData /\
        mem k followersData || mem k done = true
    | None => mem k followersData = false /\ mem k done = false
    end.

(** *** The [followers] table *)

(** The unique key of the table: [(profile_id, follower_ig_id)]. *)
Definition same_relation (row r : Row.Follower) : bool :=
  String.eqb (Row.profile_id r) (Row.profile_id row) &&
  String.eqb (Row.follower_ig_id r) (Row.follower_ig_id row).

(** [upsert(row, {onConflict: 'profile_id,follower_ig_id'})] *)
Definition upsert_follower (t : list Row.Follower) (row : Row.Follower)
  : list Row.Follower :=
  if existsb (same_relation row) t
  then map (fun r => if same_relation row r then row else r) t
  else t ++ [row].

(** The table once the store has applied the batches it accepted. *)
Definition stored_after (t : list Row.Follower) (w : Writes)
  : list Row.Follower :=
  fold_left (fun table batch => fold_left upsert_follower batch table)
    (upserted w) t.

(** [.from('followers').select(...).eq('profile_id', profileId)] *)
Definition select_followers (profileId : string) (t : list Row.Follower)
  : list Row.Follower :=
  filter (fun r => String.eqb (Row.profile_id r) profileId) t.

(** The store rejects the batch of index [k] only. *)
Definition fails_at (k : nat) (msg : string) (i : nat) : option string :=
  if Nat.eqb i k then Some msg else None.

(** The table of the example: the rows of profile [p], and a row of
    another profile. *)
Definition example_table : list Row.Follower :=
  [ stored "A" true false; stored "B" true true; stored "C" true true;
    stored "D" false true;
    {| Row.profile_id := "other"; Row.user_id := "u";
       Row.follower_ig_id := "E"; Row.follower_username := Some "user_E";
       Row.follower_name := None; Row.follower_pic_url := None;
       Row.is_verified := false; Row.is_private := false;
       Row.is_follower := true; Row.is_following := false;
       Row.is_following_back := false; Row.updated_at := 0 |} ].

Example sync_example_lists :
  newFollowersList previous_rows current_followers = ["E"] /\
  lostFollowersList previous_rows current_followers = ["A"] /\
  newFollowingList previous_rows current_following = ["F"] /\
  stoppedFollowingList previous_rows current_following = ["C"] /\
  map (fun u => ig_id (scraped u))
    (nonFollowers current_followers current_following) = ["D"; "F"].
Proof. repeat split; reflexivity. Qed.

(* --------------------------------------------------------------------- *)
(** *** Sets and maps *)

Lemma has_In (s : list string) (x : string) : has s x = true <-> In x s.
Proof.
  unfold has. rewrite existsb_exists. split.
  - intros (y & Hy & E). apply String.eqb_eq in E. now subst.
  - intros H. exists x. split; [assumption | apply String.eqb_refl].
Qed.

Lemma has_false (s : list string) (x : string) : has s x = false <-> ~ In x s.
Proof.
  rewrite <- has_In. destruct (has s x); split; congruence.
Qed.

Lemma Set_add_In (s : list string) (x y : string) :
  In y (Set_add s x) <-> In y s \/ y = x.
Proof.
  unfold Set_add. destruct (has s x) eqn:E.
  - apply has_In in E. split; [auto | intros [H| ->]; assumption].
  - rewrite in_app_iff. simpl. intuition.
Qed.

Lemma Set_add_NoDup (s : list string) (x : string) :
  NoDup s -> NoDup (Set_add s x).
Proof.
  intros H. unfold Set_add. destruct (has s x) eqn:E; [assumption|].
  apply has_false in E.
  apply NoDup_app; [assumption | repeat constructor; auto | ].
  intros y Hy [<-|[]]. contradiction.
Qed.

Lemma fold_Set_add_In (l : list string) :
  forall acc y, In y (fold_left Set_add l acc) <-> In y acc \/ In y l.
Proof.
  induction l as [|x l IH]; intros acc y; simpl.
  - intuition.
  - rewrite IH, Set_add_In. intuition.
Qed.

Lemma fold_Set_add_NoDup (l : list string) :
  forall acc, NoDup acc -> NoDup (fold_left Set_add l acc).
Proof.
  induction l as [|x l IH]; intros acc H; simpl; [assumption|].
  apply IH. now apply Set_add_NoDup.
Qed.

Lemma Set_from_In (l : list string) (y : string) :
  In y (Set_from l) <-> In y l.
Proof. unfold Set_from. rewrite fold_Set_add_In. simpl. intuition. Qed.

Lemma Set_from_NoDup (l : list string) : NoDup (Set_from l).
Proof. apply fold_Set_add_NoDup. constructor. Qed.

Lemma minus_In (a b : list string) (x : string) :
  In x (minus a b) <-> In x a /\ ~ In x b.
Proof.
  unfold minus. rewrite filter_In, negb_true_iff, has_false. reflexivity.
Qed.

Lemma minus_NoDup (a b : list string) : NoDup a -> NoDup (minus a b).
Proof. apply NoDup_filter. Qed.

Lemma Map_get_set_same {V} (k : string) (v : V) (m : list (string * V)) :
  Map_get k (Map_set k v m) = Some v.
Proof.
  induction m as [|[k' v'] m IH]; simpl.
  - now rewrite String.eqb_refl.
  - destruct (String.eqb k' k) eqn:E; simpl.
    + now rewrite String.eqb_refl.
    + now rewrite E.
Qed.

Lemma Map_get_set_other {V} (k k0 : string) (v : V) (m : list (string * V)) :
  k <> k0 -> Map_get k0 (Map_set k v m) = Map_get k0 m.
Proof.
  intros Hne. induction m as [|[k' v'] m IH]; simpl.
  - apply String.eqb_neq in Hne. now rewrite Hne.
  - destruct (String.eqb k' k) eqn:E; simpl.
    + apply String.eqb_eq in E. subst k'.
      apply String.eqb_neq in Hne. now rewrite Hne.
    + destruct (String.eqb k' k0); [reflexivity | exact IH].
Qed.

Lemma Map_set_keys {V} (k : string) (v : V) (m : list (string * V)) :
  map fst (Map_set k v m) =
  if has (map fst m) k then map fst m else map fst m ++ [k].
Proof.
  induction m as [|[k' v'] m IH]; simpl; [reflexivity|].
  unfold has in *. simpl. rewrite (String.eqb_sym k k').
  destruct (String.eqb k' k) eqn:E; simpl.
  - apply String.eqb_eq in E. now subst.
  - rewrite IH. now destruct (existsb (String.eqb k) (map fst m)).
Qed.

Lemma Map_set_NoDup {V} (k : string) (v : V) (m : list (string * V)) :
  NoDup (map fst m) -> NoDup (map fst (Map_set k v m)).
Proof.
  intros H. rewrite Map_set_keys. now apply (Set_add_NoDup _ k) in H.
Qed.

Lemma Map_get_In {V} (k : string) (v : V) (m : list (string * V)) :
  NoDup (map fst m) -> In (k, v) m -> Map_get k m = Some v.
Proof.
  induction m as [|[k' v'] m IH]; simpl; intros Hnd Hin; [contradiction|].
  inversion Hnd as [|? ? Hnotin Hnd']; subst.
  destruct Hin as [E|Hin].
  - injection E as -> ->. now rewrite String.eqb_refl.
  - destruct (String.eqb_spec k' k) as [->|Hne]; [|now apply IH].
    exfalso. apply Hnotin. now apply (in_map fst) in Hin.
Qed.

Lemma Map_get_Some_In {V} (k : string) (v : V) (m : list (string * V)) :
  Map_get k m = Some v -> In v (Map_values m).
Proof.
  induction m as [|[k' v'] m IH]; simpl; [discriminate|].
  destruct (String.eqb k' k).
  - intros E. injection E as ->. now left.
  - intros E. right. now apply IH.
Qed.

(* --------------------------------------------------------------------- *)
(** *** The merged map *)

Lemma mem_In (k : string) (l : list ScrapedUser) :
  mem k l = true <-> In k (map ig_id l).
Proof.
  unfold mem. rewrite existsb_exists, in_map_iff. split.
  - intros (u & Hu & E). apply String.eqb_eq in E. eauto.
  - intros (u & E & Hu). exists u. split; [assumption|].
    now apply String.eqb_eq.
Qed.

Lemma mem_app (k : string) (l1 l2 : list ScrapedUser) :
  mem k (l1 ++ l2) = mem k l1 || mem k l2.
Proof. apply existsb_app. Qed.

Lemma has_Set_from (k : string) (l : list ScrapedUser) :
  has (Set_from (map ig_id l)) k = mem k l.
Proof.
  apply eq_true_iff_eq. now rewrite has_In, Set_from_In, mem_In.
Qed.

Section Merge.

Variables followersData followingData : list ScrapedUser.

Abbreviation inF k := (mem k followersData).
Abbreviation inG k := (mem k followingData).

Lemma add_follower_step (done : list ScrapedUser) (f : ScrapedUser) m :
  followers_upto followingData done m ->
  followers_upto followingData (done ++ [f]) (add_follower followingData m f).
Proof.
  intros [Hnd Hm]. unfold add_follower. split; [now apply Map_set_NoDup|].
  intros k. rewrite mem_app. simpl. rewrite orb_false_r.
  destruct (String.eqb_spec (ig_id f) k) as [<-|Hne].
  - rewrite Map_get_set_same. simpl. unfold newFollowingIds.
    rewrite has_Set_from, orb_true_r. auto.
  - rewrite Map_get_set_other by assumption. specialize (Hm k).
    rewrite orb_false_r. exact Hm.
Qed.

Lemma followers_phase (rest : list ScrapedUser) :
  forall done m,
    followers_upto followingData done m ->
    followers_upto followingData (done ++ rest) (fold_left (add_follower followingData) rest m).
Proof.
  induction rest as [|f rest IH]; intros done m Hm; simpl.
  - now rewrite app_nil_r.
  - replace (done ++ f :: rest) with ((done ++ [f]) ++ rest)
      by now rewrite <- app_assoc.
    apply IH. now apply add_follower_step.
Qed.

Lemma followers_upto_nil : followers_upto followingData [] [].
Proof. split; [constructor | intros k; reflexivity]. Qed.

Lemma merged_after_followers :
  let m := fold_left (add_follower followingData) followersData [] in
  merged_upto followersData followingData [] m /\
  forall k v, Map_get k m = Some v -> is_following_back v = inF k && inG k.
Proof.
  destruct (followers_phase followersData [] [] followers_upto_nil)
    as [Hnd H].
  simpl in *. split; [split; [assumption|]|].
  - intros k. specialize (H k).
    destruct (Map_get k (fold_left _ followersData _)).
    + destruct H as (? & ? & ? & ? & ->). auto.
    + rewrite H. auto.
  - intros k v E. specialize (H k). rewrite E in H.
    destruct H as (_ & _ & _ & -> & ->). reflexivity.
Qed.

Lemma add_following_other (g : ScrapedUser) (k : string) m :
  ig_id g <> k -> Map_get k (add_following m g) = Map_get k m.
Proof.
  intros Hne. unfold add_following.
  destruct (Map_get (ig_id g) m); now apply Map_get_set_other.
Qed.

Lemma add_following_step (done : list ScrapedUser) (g : ScrapedUser) m :
  In g followingData ->
  merged_upto followersData followingData done m ->
  merged_upto followersData followingData (done ++ [g]) (add_following m g).
Proof.
  intros Hg [Hnd Hm].
  assert (HinG : inG (ig_id g) = true) by (apply mem_In; now apply in_map).
  split.
  - unfold add_following.
    destruct (Map_get (ig_id g) m); now apply Map_set_NoDup.
  - intros k. rewrite mem_app. simpl. rewrite orb_false_r.
    destruct (String.eqb_spec (ig_id g) k) as [<-|Hne].
    + specialize (Hm (ig_id g)). unfold add_following.
      rewrite !orb_true_r.
      destruct (Map_get (ig_id g) m) as [existing|];
        rewrite Map_get_set_same; simpl.
      * destruct Hm as (? & ? & ? & ?). auto.
      * destruct Hm as [-> _]. auto.
    + rewrite add_following_other by assumption.
      rewrite orb_false_r. apply Hm.
Qed.

Lemma following_phase (rest : list ScrapedUser) :
  forall done m,
    followingData = done ++ rest ->
    merged_upto followersData followingData done m ->
    merged_upto followersData followingData followingData (fold_left add_following rest m).
Proof.
  induction rest as [|g rest IH]; intros done m Hsplit Hm; simpl.
  - rewrite app_nil_r in Hsplit. now subst.
  - apply (IH (done ++ [g])).
    + now rewrite <- app_assoc.
    + apply add_following_step; [|assumption].
      rewrite Hsplit. apply in_or_app. right. now left.
Qed.

(** Every merged record carries its own id and says rightly whether the id
    is among the current followers and among the current following; the
    keys of the map are the ids of the two lists. *)
Lemma allUsersMap_flags :
  merged_upto followersData followingData followingData (allUsersMap followersData followingData).
Proof.
  unfold allUsersMap. apply (following_phase followingData []).
  - reflexivity.
  - apply merged_after_followers.
Qed.

Lemma allUsersMap_get (k : string) :
  In k (map ig_id followersData) \/ In k (map ig_id followingData) ->
  exists v, Map_get k (allUsersMap followersData followingData) = Some v.
Proof.
  intros H. destruct allUsersMap_flags as [_ Hm]. specialize (Hm k).
  destruct (Map_get k _) as [v|]; [eauto|].
  destruct Hm as [HF HG].
  destruct H as [H|H]; apply mem_In in H; congruence.
Qed.

(** When no id occurs twice in [followingData], the third flag is the
    conjunction of the other two. *)
Lemma following_back_fold (rest : list ScrapedUser) :
  forall done m,
    followingData = done ++ rest ->
    NoDup (map ig_id followingData) ->
    merged_upto followersData followingData done m ->
    (forall k v, Map_get k m = Some v ->
       is_following_back v = inF k && inG k) ->
    forall k v,
      Map_get k (fold_left add_following rest m) = Some v ->
      is_following_back v = inF k && inG k.
Proof.
  induction rest as [|g rest IH]; intros done m Hsplit Hnd Hm Hb; simpl.
  - assumption.
  - assert (Hg : In g followingData).
    { rewrite Hsplit. apply in_or_app. right. now left. }
    apply (IH (done ++ [g])).
    + now rewrite <- app_assoc.
    + assumption.
    + now apply add_following_step.
    + intros k v.
      assert (HinG : inG (ig_id g) = true) by (apply mem_In; now apply in_map).
      assert (Hfresh : mem (ig_id g) done = false).
      { destruct (mem (ig_id g) done) eqn:E; [|reflexivity].
        apply mem_In in E. rewrite Hsplit, map_app in Hnd. simpl in Hnd.
        apply NoDup_remove_2 in Hnd. exfalso. apply Hnd.
        apply in_or_app. now left. }
      destruct Hm as [_ Hm]. specialize (Hm (ig_id g)).
      destruct (String.eqb_spec (ig_id g) k) as [<-|Hne].
      * unfold add_following.
        destruct (Map_get (ig_id g) m) as [existing|];
          rewrite Map_get_set_same; intros E; injection E as <-; simpl.
        -- destruct Hm as (_ & _ & _ & Hdom).
           rewrite Hfresh, orb_false_r in Hdom. now rewrite Hdom, HinG.
        -- destruct Hm as [-> _]. reflexivity.
      * rewrite add_following_other by assumption. apply Hb.
Qed.

Lemma allUsersMap_following_back (k : string) (v : MergedUser) :
  NoDup (map ig_id followingData) ->
  Map_get k (allUsersMap followersData followingData) = Some v ->
  is_following_back v = is_follower v && is_following v.
Proof.
  intros Hnd E.
  destruct allUsersMap_flags as [_ Hm]. specialize (Hm k). rewrite E in Hm.
  destruct Hm as (_ & -> & -> & _).
  revert E. unfold allUsersMap.
  apply (following_back_fold followingData []); try reflexivity.
  - assumption.
  - apply merged_after_followers.
  - apply merged_after_followers.
Qed.

Lemma Map_values_get (v : MergedUser) :
  In v (Map_values (allUsersMap followersData followingData)) ->
  exists k, Map_get k (allUsersMap followersData followingData) = Some v.
Proof.
  intros H. unfold Map_values in H. apply in_map_iff in H.
  destruct H as ([k v'] & E & Hin). simpl in E. subst v'.
  exists k. apply Map_get_In; [|assumption]. apply allUsersMap_flags.
Qed.

End Merge.

(* --------------------------------------------------------------------- *)
(** *** Changes and counters *)

Lemma flat_map_singletons {A B C} (f : A -> list B) (g : B -> C) (h : A -> C)
  (l : list A) :
  (forall x, In x l -> map g (f x) = [h x]) ->
  map g (flat_map f l) = map h l.
Proof.
  induction l as [|x l IH]; intros H; simpl; [reflexivity|].
  rewrite map_app, H by now left. simpl. f_equal.
  apply IH. intros y Hy. apply H. now right.
Qed.

Lemma change_of_user_event profileId userId followersData followingData ty x :
  In x (map ig_id followersData) \/ In x (map ig_id followingData) ->
  map event (change_of_user profileId userId followersData followingData ty x)
  = [(x, ty)].
Proof.
  intros H. unfold change_of_user.
  destruct (allUsersMap_get followersData followingData x H) as [v ->].
  reflexivity.
Qed.

Lemma stored_ids_In currentFollowers keep x :
  In x (stored_ids currentFollowers keep) <->
  exists rows r, currentFollowers = Some rows /\ In r rows /\
                 keep r = true /\ Row.follower_ig_id r = x.
Proof.
  unfold stored_ids. destruct currentFollowers as [rows|].
  - rewrite in_map_iff. split.
    + intros (r & E & Hr). apply filter_In in Hr. destruct Hr.
      exists rows, r. auto.
    + intros (rows' & r & E & Hr & Hk & Hx). injection E as <-.
      exists r. split; [assumption|]. apply filter_In. auto.
  - split; [contradiction|]. intros (rows & r & E & _). discriminate.
Qed.

Lemma change_of_stored_event profileId userId currentFollowers keep ty x :
  In x (stored_ids currentFollowers keep) ->
  map event (change_of_stored profileId userId currentFollowers ty x)
  = [(x, ty)].
Proof.
  intros H. apply stored_ids_In in H.
  destruct H as (rows & r & -> & Hr & _ & Hx).
  unfold change_of_stored.
  destruct (find (fun f => String.eqb (Row.follower_ig_id f) x) rows) eqn:E.
  - reflexivity.
  - exfalso. apply (find_none _ _ E) in Hr.
    apply String.eqb_neq in Hr. contradiction.
Qed.

Lemma nonFollowers_ids followersData followingData (k : string) :
  In k (map (fun u => ig_id (scraped u))
          (nonFollowers followersData followingData)) <->
  In k (map ig_id followingData) /\ ~ In k (map ig_id followersData).
Proof.
  unfold nonFollowers. rewrite in_map_iff. split.
  - intros (v & <- & Hv). apply filter_In in Hv. destruct Hv as [Hv Hflag].
    apply Map_values_get in Hv. destruct Hv as [k Hk].
    destruct (allUsersMap_flags followersData followingData) as [_ Hm].
    specialize (Hm k). rewrite Hk in Hm. destruct Hm as (-> & HF & HG & _).
    rewrite HF, HG in Hflag. apply andb_prop in Hflag.
    destruct Hflag as [H1 H2]. apply negb_true_iff in H2.
    split; [now apply mem_In|]. intros H. apply mem_In in H. congruence.
  - intros [HG HF].
    destruct (allUsersMap_get followersData followingData k (or_intror HG))
      as [v Hv].
    destruct (allUsersMap_flags followersData followingData) as [_ Hm].
    specialize (Hm k). rewrite Hv in Hm. destruct Hm as (Hid & H1 & H2 & _).
    exists v. split; [assumption|]. apply filter_In.
    split; [eapply Map_get_Some_In; eassumption|].
    rewrite H1, H2. apply mem_In in HG. rewrite HG. simpl.
    apply negb_true_iff. destruct (mem k followersData) eqn:E; [|reflexivity].
    apply mem_In in E. contradiction.
Qed.

Lemma upsert_batches_accepted (upsert_error : nat -> option string)
  (batches : list (list Row.Follower)) :
  (forall i, upsert_error i = None) ->
  forall i, upsert_batches upsert_error i batches = (batches, None).
Proof.
  intros Hok. induction batches as [|b batches IH]; intros i; simpl.
  - reflexivity.
  - now rewrite Hok, IH.
Qed.

(** When the store accepts the batches, the sync sends the change events
    and the snapshot computed above and returns the number of merged
    records. *)
Lemma syncFollowers_writes profileId userId now currentFollowers
  followersData followingData (upsert_error : nat -> option string) :
  (forall i, upsert_error i = None) ->
  syncFollowers profileId userId now currentFollowers followersData
    followingData upsert_error =
  (Returned
     (List.length
        (followersToUpsert profileId userId now followersData followingData)),
   {| upserted :=
        slices
          (List.length
             (followersToUpsert profileId userId now followersData followingData))
          BATCH_SIZE
          (followersToUpsert profileId userId now followersData followingData);
      inserted_changes :=
        changes profileId userId currentFollowers followersData followingData;
      inserted_snapshot :=
        Some (snapshot profileId userId currentFollowers followersData
                followingData) |}).
Proof.
  intros Hok. unfold syncFollowers.
  now rewrite upsert_batches_accepted.
Qed.

(** **** C3 *)

(** C3. The four lists computed by the sync are the set differences of the
    current and the stored id sets, without repetition; the change events
    are, in order, one NEW_FOLLOWER per new follower, one UNFOLLOWED per
    lost follower, one STARTED_FOLLOWING per new following and one
    STOPPED_FOLLOWING per stopped following; [non_followers] counts the
    merged records that are following and not follower, which are the ids
    of the current following list absent from the current followers list;
    these events and counters are what the sync sends to the store; and
    the example of the specification evaluates as stated. *)
Theorem C3_followers_diff
  (profileId userId : string) (now : Z)
  (currentFollowers : option (list Row.Follower))
  (followersData followingData : list ScrapedUser) :
  (forall x, In x (newFollowersList currentFollowers followersData) <->
     In x (map ig_id followersData) /\
     ~ In x (currentFollowerIds currentFollowers)) /\
  (forall x, In x (lostFollowersList currentFollowers followersData) <->
     In x (currentFollowerIds currentFollowers) /\
     ~ In x (map ig_id followersData)) /\
  (forall x, In x (newFollowingList currentFollowers followingData) <->
     In x (map ig_id followingData) /\
     ~ In x (currentFollowingIds currentFollowers)) /\
  (forall x, In x (stoppedFollowingList currentFollowers followingData) <->
     In x (currentFollowingIds currentFollowers) /\
     ~ In x (map ig_id followingData)) /\
  (NoDup (newFollowersList currentFollowers followersData) /\
   NoDup (lostFollowersList currentFollowers followersData) /\
   NoDup (newFollowingList currentFollowers followingData) /\
   NoDup (stoppedFollowingList currentFollowers followingData)) /\
  map event
    (changes profileId userId currentFollowers followersData followingData) =
    map (fun x => (x, NEW_FOLLOWER))
      (newFollowersList currentFollowers followersData) ++
    map (fun x => (x, UNFOLLOWED))
      (lostFollowersList currentFollowers followersData) ++
    map (fun x => (x, STARTED_FOLLOWING))
      (newFollowingList currentFollowers followingData) ++
    map (fun x => (x, STOPPED_FOLLOWING))
      (stoppedFollowingList currentFollowers followingData) /\
  Row.non_followers
    (snapshot profileId userId currentFollowers followersData followingData) =
    List.length
      (filter (fun u => is_following u && negb (is_follower u))
         (Map_values (allUsersMap followersData followingData))) /\
  (forall k,
     In k (map (fun u => ig_id (scraped u))
             (nonFollowers followersData followingData)) <->
     In k (map ig_id followingData) /\ ~ In k (map ig_id followersData)) /\
  (forall upsert_error, (forall i, upsert_error i = None) ->
     fst (syncFollowers profileId userId now currentFollowers followersData
            followingData upsert_error) =
       Returned (List.length (Map_values (allUsersMap followersData followingData))) /\
     inserted_changes
       (snd (syncFollowers profileId userId now currentFollowers followersData
               followingData upsert_error)) =
       changes profileId userId currentFollowers followersData followingData /\
     inserted_snapshot
       (snd (syncFollowers profileId userId now currentFollowers followersData
               followingData upsert_error)) =
       Some (snapshot profileId userId currentFollowers followersData
               followingData)) /\
  (newFollowersList previous_rows current_followers = ["E"] /\
   lostFollowersList previous_rows current_followers = ["A"] /\
   newFollowingList previous_rows current_following = ["F"] /\
   stoppedFollowingList previous_rows current_following = ["C"] /\
   map (fun u => ig_id (scraped u))
     (nonFollowers current_followers current_following) = ["D"; "F"] /\
   Row.non_followers
     (snapshot "p" "u" previous_rows current_followers current_following) = 2%nat).
Proof.
  unfold newFollowersList, lostFollowersList, newFollowingList,
    stoppedFollowingList.
  repeat match goal with |- _ /\ _ => split end;
    try (intros x; rewrite minus_In; unfold newFollowerIds, newFollowingIds;
         rewrite Set_from_In; reflexivity);
    try (apply minus_NoDup; apply Set_from_NoDup);
    try reflexivity.
  - unfold changes. rewrite !map_app.
    repeat f_equal; apply flat_map_singletons; intros x Hx;
      apply minus_In in Hx; destruct Hx as [Hx _].
    + apply change_of_user_event. left.
      apply (proj1 (Set_from_In _ _)). exact Hx.
    + apply change_of_stored_event with (keep := Row.is_follower).
      apply (proj1 (Set_from_In _ _)). exact Hx.
    + apply change_of_user_event. right.
      apply (proj1 (Set_from_In _ _)). exact Hx.
    + apply change_of_stored_event with (keep := Row.is_following).
      apply (proj1 (Set_from_In _ _)). exact Hx.
  - apply nonFollowers_ids.
  - intros upsert_error Hok.
    rewrite syncFollowers_writes by assumption. cbn [fst snd].
    unfold followersToUpsert. rewrite length_map. auto.
Qed.

(** *** The number of merged records *)

Lemma add_follower_keys followingData m (f : ScrapedUser) :
  map fst (add_follower followingData m f) = Set_add (map fst m) (ig_id f).
Proof. unfold add_follower. apply Map_set_keys. Qed.

Lemma add_following_keys m (g : ScrapedUser) :
  map fst (add_following m g) = Set_add (map fst m) (ig_id g).
Proof.
  unfold add_following. destruct (Map_get (ig_id g) m); apply Map_set_keys.
Qed.

Lemma fold_add_follower_keys followingData (l : list ScrapedUser) :
  forall m,
    map fst (fold_left (add_follower followingData) l m) =
    fold_left Set_add (map ig_id l) (map fst m).
Proof.
  induction l as [|f l IH]; intros m; [reflexivity|].
  cbn [fold_left map]. now rewrite IH, add_follower_keys.
Qed.

Lemma fold_add_following_keys (l : list ScrapedUser) :
  forall m,
    map fst (fold_left add_following l m) =
    fold_left Set_add (map ig_id l) (map fst m).
Proof.
  induction l as [|g l IH]; intros m; [reflexivity|].
  cbn [fold_left map]. now rewrite IH, add_following_keys.
Qed.

(** The merged records are keyed by the distinct ids of the two current
    lists, followers first; there is one record per id of their union. *)
Theorem allUsersMap_keys (followersData followingData : list ScrapedUser) :
  map fst (allUsersMap followersData followingData) =
    Set_from (map ig_id followersData ++ map ig_id followingData) /\
  (forall profileId userId now,
     List.length (followersToUpsert profileId userId now followersData followingData) =
     List.length (Set_from (map ig_id followersData ++ map ig_id followingData))) /\
  NoDup (Set_from (map ig_id followersData ++ map ig_id followingData)) /\
  (forall k, In k (Set_from (map ig_id followersData ++ map ig_id followingData)) <->
             In k (map ig_id followersData) \/ In k (map ig_id followingData)).
Proof.
  assert (Hk : map fst (allUsersMap followersData followingData) =
               Set_from (map ig_id followersData ++ map ig_id followingData)).
  { unfold allUsersMap, Set_from.
    now rewrite fold_add_following_keys, fold_add_follower_keys, fold_left_app. }
  split; [exact Hk|]. split; [|split].
  - intros profileId userId now. unfold followersToUpsert, Map_values.
    rewrite !length_map. rewrite <- Hk. now rewrite length_map.
  - apply Set_from_NoDup.
  - intros k. rewrite Set_from_In. apply in_app_iff.
Qed.

(** **** C4 *)

(** On a following list without repeated ids, every row sent to the store
    has [is_following_back] equal to [is_follower && is_following]. *)
Lemma followersToUpsert_following_back
  (profileId userId : string) (now : Z)
  (followersData followingData : list ScrapedUser) (r : Row.Follower) :
  NoDup (map ig_id followingData) ->
  In r (followersToUpsert profileId userId now followersData followingData) ->
  Row.is_following_back r = Row.is_follower r && Row.is_following r.
Proof.
  intros Hnd Hr. unfold followersToUpsert in Hr. apply in_map_iff in Hr.
  destruct Hr as (v & <- & Hv). simpl.
  apply Map_values_get in Hv. destruct Hv as [k Hk].
  eapply allUsersMap_following_back; eassumption.
Qed.

Lemma followersToUpsert_following_back_witness :
  NoDup (map ig_id current_following) /\
  Forall (fun r => Row.is_following_back r =
                   Row.is_follower r && Row.is_following r)
    (followersToUpsert "p" "u" 0 current_followers current_following).
Proof.
  assert (Hnd : NoDup (map ig_id current_following)).
  { simpl. repeat constructor; simpl; intuition discriminate. }
  split; [exact Hnd|]. apply Forall_forall. intros r Hr.
  exact (followersToUpsert_following_back "p" "u" 0 current_followers
           current_following r Hnd Hr).
Defined.

(** C4 (failing input). With no follower and the id X listed twice in the
    following list, the second occurrence finds the record created by the
    first and sets [is_following_back]: the row sent to the store says
    that X follows back although X is not a follower. *)
Theorem C4_following_back_on_repeated_id :
  map (fun r => (Row.follower_ig_id r, Row.is_follower r,
                 Row.is_following r, Row.is_following_back r))
    (followersToUpsert "p" "u" 0 [] repeated_following) =
  [("X", false, true, true)].
Proof. reflexivity. Qed.

(* --------------------------------------------------------------------- *)
(** *** What [syncFollowers] returns and sends *)

Lemma slices_cover {A} (size : nat) (l : list A) :
  (0 < size)%nat ->
  forall fuel, (List.length l <= fuel)%nat ->
  List.concat (slices fuel size l) = l.
Proof.
  intros Hs fuel. revert l.
  induction fuel as [|fuel IH]; intros l Hl.
  - destruct l; [reflexivity | simpl in Hl; lia].
  - destruct l as [|x l]; [reflexivity|].
    cbn [slices List.concat]. rewrite IH.
    + apply firstn_skipn.
    + rewrite length_skipn. simpl in Hl. simpl List.length. lia.
Qed.

Lemma slices_bounds {A} (size : nat) (l : list A) :
  (0 < size)%nat ->
  forall fuel,
    Forall (fun b => b <> [] /\ (List.length b <= size)%nat)
      (slices fuel size l).
Proof.
  intros Hs fuel. revert l.
  induction fuel as [|fuel IH]; intros l; [constructor|].
  destruct l as [|x l]; [constructor|].
  cbn [slices]. constructor; [|apply IH]. split.
  - destruct size; [lia | discriminate].
  - rewrite length_firstn. lia.
Qed.

(** The batch of index [k] exists as soon as [k * size] rows precede it. *)
Lemma slices_count {A} (size : nat) :
  (0 < size)%nat ->
  forall fuel (l : list A) k,
    (List.length l <= fuel)%nat ->
    (k * size < List.length l)%nat ->
    (k < List.length (slices fuel size l))%nat.
Proof.
  intros Hs. induction fuel as [|fuel IH]; intros l k Hl Hk; [lia|].
  destruct l as [|x l]; [simpl in Hk; lia|].
  cbn [slices List.length]. destruct k as [|k]; [lia|].
  apply -> Nat.succ_lt_mono. apply IH.
  - rewrite length_skipn. simpl in Hl. simpl List.length. lia.
  - rewrite length_skipn. simpl List.length in *. nia.
Qed.

Lemma followersToUpsert_ids profileId userId now followersData followingData :
  map Row.follower_ig_id
    (followersToUpsert profileId userId now followersData followingData) =
  map fst (allUsersMap followersData followingData).
Proof.
  unfold followersToUpsert, Map_values. rewrite !map_map.
  destruct (allUsersMap_flags followersData followingData) as [Hnd Hget].
  apply map_ext_in. intros [k v] Hin. cbn [snd fst to_row Row.follower_ig_id].
  pose proof (Map_get_In k v _ Hnd Hin) as Hk.
  specialize (Hget k). rewrite Hk in Hget. tauto.
Qed.

(** When the store accepts every batch, [syncFollowers] returns the number
    of distinct accounts of the two lists together, not the sum of their
    lengths: one row is sent per account, the followers first, each account
    at its first occurrence. The rows go in batches of at most 1000, none
    of them empty, each row in exactly one batch and in the order of the
    merged list. *)
Theorem syncFollowers_counts_distinct_ids
  (profileId userId : string) (now : Z)
  (currentFollowers : option (list Row.Follower))
  (followersData followingData : list ScrapedUser)
  (upsert_error : nat -> option string) :
  (forall i, upsert_error i = None) ->
  fst (syncFollowers profileId userId now currentFollowers followersData
         followingData upsert_error) =
    Returned (List.length
                (Set_from (map ig_id followersData ++ map ig_id followingData))) /\
  List.concat
    (upserted (snd (syncFollowers profileId userId now currentFollowers
                      followersData followingData upsert_error))) =
    followersToUpsert profileId userId now followersData followingData /\
  map Row.follower_ig_id
    (followersToUpsert profileId userId now followersData followingData) =
    Set_from (map ig_id followersData ++ map ig_id followingData) /\
  Forall (fun b => b <> [] /\ (List.length b <= 1000)%nat)
    (upserted (snd (syncFollowers profileId userId now currentFollowers
                      followersData followingData upsert_error))).
Proof.
  intros Hok. rewrite syncFollowers_writes by assumption. cbn [fst snd upserted].
  destruct (allUsersMap_keys followersData followingData) as (Hk & Hlen & _).
  split; [now rewrite Hlen|]. split; [|split].
  - apply slices_cover; unfold BATCH_SIZE; lia.
  - now rewrite followersToUpsert_ids.
  - apply slices_bounds. unfold BATCH_SIZE. lia.
Qed.

Lemma syncFollowers_counts_distinct_ids_witness :
  fst (syncFollowers "p" "u" 0 previous_rows current_followers
         current_following (fun _ => None)) = Returned 5%nat /\
  (List.length current_followers + List.length current_following = 6)%nat /\
  map (map Row.follower_ig_id)
    (upserted (snd (syncFollowers "p" "u" 0 previous_rows current_followers
                      current_following (fun _ => None)))) =
  [["B"; "C"; "E"; "D"; "F"]].
Proof.
  split; [|split; reflexivity].
  exact (proj1 (syncFollowers_counts_distinct_ids "p" "u" 0 previous_rows
                  current_followers current_following (fun _ => None)
                  (fun _ => eq_refl))).
Defined.

Lemma upsert_batches_rejected (upsert_error : nat -> option string)
  (msg : string) (batches : list (list Row.Follower)) :
  forall k i,
    (k < List.length batches)%nat ->
    upsert_error (i + k)%nat = Some msg ->
    (forall j, (j < k)%nat -> upsert_error (i + j)%nat = None) ->
    upsert_batches upsert_error i batches = (firstn k batches, Some msg).
Proof.
  induction batches as [|b rest IH]; intros k i Hk Hat Hbefore.
  - simpl in Hk. lia.
  - cbn [upsert_batches]. destruct k as [|k].
    + rewrite Nat.add_0_r in Hat. now rewrite Hat.
    + rewrite <- (Nat.add_0_r i) at 1. rewrite Hbefore by lia.
      rewrite (IH k (S i)).
      * reflexivity.
      * simpl in Hk. lia.
      * now rewrite Nat.add_succ_comm.
      * intros j Hj. rewrite Nat.add_succ_comm. apply Hbefore. lia.
Qed.

(** When the store rejects a batch, [syncFollowers] throws
    [Failed to upsert followers: ...] at once: the batches before it stay
    written, the later ones are not sent, and neither the change events
    nor the snapshot are recorded. *)
Theorem syncFollowers_upsert_failure
  (profileId userId : string) (now : Z)
  (currentFollowers : option (list Row.Follower))
  (followersData followingData : list ScrapedUser)
  (upsert_error : nat -> option string) (k : nat) (msg : string) :
  (k * 1000 <
   List.length (followersToUpsert profileId userId now followersData
                  followingData))%nat ->
  upsert_error k = Some msg ->
  (forall j, (j < k)%nat -> upsert_error j = None) ->
  syncFollowers profileId userId now currentFollowers followersData
    followingData upsert_error =
  (Thrown (Error (String.append "Failed to upsert followers: " msg)),
   {| upserted :=
        firstn k
          (slices
             (List.length
                (followersToUpsert profileId userId now followersData
                   followingData))
             BATCH_SIZE
             (followersToUpsert profileId userId now followersData
                followingData));
      inserted_changes := [];
      inserted_snapshot := None |}).
Proof.
  intros Hk Hat Hbefore. unfold syncFollowers.
  rewrite (upsert_batches_rejected upsert_error msg _ k 0);
    [reflexivity | | exact Hat | exact Hbefore].
  apply slices_count; [unfold BATCH_SIZE; lia | lia | exact Hk].
Qed.

Lemma syncFollowers_upsert_failure_witness :
  syncFollowers "p" "u" 0 previous_rows current_followers current_following
    (fails_at 0 "timeout") =
  (Thrown (Error "Failed to upsert followers: timeout"),
   {| upserted := []; inserted_changes := []; inserted_snapshot := None |}).
Proof.
  apply (syncFollowers_upsert_failure "p" "u" 0 previous_rows
           current_followers current_following (fails_at 0 "timeout") 0
           "timeout").
  - simpl. lia.
  - reflexivity.
  - intros j Hj. lia.
Defined.

(* --------------------------------------------------------------------- *)
(** *** Edge cases of the comparison *)

Lemma minus_nil_r (a : list string) : minus a [] = a.
Proof.
  unfold minus. induction a as [|x a IH]; [reflexivity|].
  simpl. f_equal. exact IH.
Qed.

Lemma changes_of_users profileId userId followersData followingData ty
  (l : list string) :
  (forall x, In x l ->
     In x (map ig_id followersData) \/ In x (map ig_id followingData)) ->
  map event
    (flat_map (change_of_user profileId userId followersData followingData ty) l)
  = map (fun x => (x, ty)) l.
Proof.
  intros H. apply flat_map_singletons. intros x Hx.
  apply change_of_user_event. now apply H.
Qed.

Lemma changes_of_stored profileId userId currentFollowers keep ty
  (l : list string) :
  (forall x, In x l -> In x (stored_ids currentFollowers keep)) ->
  map event (flat_map (change_of_stored profileId userId currentFollowers ty) l)
  = map (fun x => (x, ty)) l.
Proof.
  intros H. apply flat_map_singletons. intros x Hx.
  apply change_of_stored_event with (keep := keep). now apply H.
Qed.

(** When no stored row is read, because the table has none for the
    profile or because the query failed (the error is only logged), every
    account of the current lists is reported as new: one NEW_FOLLOWER event
    per follower and one STARTED_FOLLOWING event per followed account, and
    nothing else. *)
Theorem syncFollowers_without_stored_rows
  (profileId userId : string)
  (currentFollowers : option (list Row.Follower))
  (followersData followingData : list ScrapedUser) :
  currentFollowers = None \/ currentFollowers = Some [] ->
  map event
    (changes profileId userId currentFollowers followersData followingData) =
    map (fun x => (x, NEW_FOLLOWER)) (Set_from (map ig_id followersData)) ++
    map (fun x => (x, STARTED_FOLLOWING)) (Set_from (map ig_id followingData)).
Proof.
  intros Hcur.
  assert (Hids : forall keep, stored_ids currentFollowers keep = []).
  { intros keep. destruct Hcur as [-> | ->]; reflexivity. }
  unfold changes, newFollowersList, lostFollowersList, newFollowingList,
    stoppedFollowingList, currentFollowerIds, currentFollowingIds.
  rewrite !Hids. cbn [Set_from fold_left]. rewrite !minus_nil_r.
  cbn [minus filter flat_map app]. rewrite !map_app.
  unfold newFollowerIds, newFollowingIds.
  rewrite !changes_of_users; [cbn [map]; now rewrite app_nil_r | |].
  - intros x Hx. right. now apply Set_from_In.
  - intros x Hx. left. now apply Set_from_In.
Qed.

Lemma syncFollowers_without_stored_rows_witness :
  map event (changes "p" "u" None current_followers current_following) =
  [ ("B", NEW_FOLLOWER); ("C", NEW_FOLLOWER); ("E", NEW_FOLLOWER);
    ("B", STARTED_FOLLOWING); ("D", STARTED_FOLLOWING);
    ("F", STARTED_FOLLOWING) ].
Proof.
  apply (syncFollowers_without_stored_rows "p" "u" None current_followers
           current_following).
  left. reflexivity.
Defined.

(** With two empty lists (as after a scrape that gathered nothing)
    [syncFollowers] sends no row and returns 0, yet it records every stored
    follower as UNFOLLOWED and every stored followed account as
    STOPPED_FOLLOWING, and a snapshot that counts them as lost. *)
Theorem syncFollowers_empty_lists
  (profileId userId : string) (now : Z)
  (currentFollowers : option (list Row.Follower))
  (upsert_error : nat -> option string) :
  syncFollowers profileId userId now currentFollowers [] [] upsert_error =
    (Returned 0%nat,
     {| upserted := [];
        inserted_changes := changes profileId userId currentFollowers [] [];
        inserted_snapshot := Some (snapshot profileId userId currentFollowers [] []) |}) /\
  map event (changes profileId userId currentFollowers [] []) =
    map (fun x => (x, UNFOLLOWED)) (currentFollowerIds currentFollowers) ++
    map (fun x => (x, STOPPED_FOLLOWING)) (currentFollowingIds currentFollowers) /\
  Row.lost_followers (snapshot profileId userId currentFollowers [] []) =
    List.length (currentFollowerIds currentFollowers) /\
  Row.total_followers (snapshot profileId userId currentFollowers [] []) = 0%nat.
Proof.
  split; [reflexivity|].
  assert (Hlost : lostFollowersList currentFollowers [] =
                  currentFollowerIds currentFollowers)
    by apply minus_nil_r.
  assert (Hstop : stoppedFollowingList currentFollowers [] =
                  currentFollowingIds currentFollowers)
    by apply minus_nil_r.
  split; [|split; [|reflexivity]].
  - unfold changes. rewrite Hlost, Hstop. cbn [newFollowersList newFollowingList
      newFollowerIds newFollowingIds map Set_from fold_left minus filter
      flat_map app].
    rewrite map_app.
    rewrite (changes_of_stored profileId userId currentFollowers Row.is_follower).
    + rewrite (changes_of_stored profileId userId currentFollowers Row.is_following).
      * reflexivity.
      * intros x Hx. apply (proj1 (Set_from_In _ _)). exact Hx.
    + intros x Hx. apply (proj1 (Set_from_In _ _)). exact Hx.
  - cbn [snapshot Row.lost_followers]. now rewrite Hlost.
Qed.

(* --------------------------------------------------------------------- *)
(** *** The table after a sync, and the next sync *)

Lemma upsert_follower_In (t : list Row.Follower) (row r : Row.Follower) :
  In r (upsert_follower t row) <->
  r = row \/ (In r t /\ same_relation row r = false).
Proof.
  unfold upsert_follower.
  destruct (existsb (same_relation row) t) eqn:Ex.
  - rewrite in_map_iff. split.
    + intros (x & Hx & Hin). destruct (same_relation row x) eqn:Es.
      * left. congruence.
      * right. subst. now split.
    + intros [-> | [Hin Hs]].
      * apply existsb_exists in Ex. destruct Ex as (x & Hin & Hs).
        exists x. now rewrite Hs.
      * exists r. now rewrite Hs.
  - rewrite in_app_iff. cbn [In]. split.
    + intros [Hin | [<- | []]]; [right | now left].
      split; [assumption|].
      destruct (same_relation row r) eqn:Es; [|reflexivity].
      assert (existsb (same_relation row) t = true)
        by (apply existsb_exists; eauto).
      congruence.
    + intros [-> | [Hin _]]; auto.
Qed.

Lemma fold_upsert_In (p : string) (rows : list Row.Follower) :
  (forall row, In row rows -> Row.profile_id row = p) ->
  NoDup (map Row.follower_ig_id rows) ->
  forall t r,
    In r (fold_left upsert_follower rows t) <->
    In r rows \/
    (In r t /\ forall row, In row rows -> same_relation row r = false).
Proof.
  induction rows as [|row rows IH]; intros Hp Hnd t r.
  - cbn [fold_left In]. split; [intros H; right; now split | intros [[]|[H _]]; exact H].
  - cbn [fold_left]. cbn [map] in Hnd. inversion Hnd as [|x l Hnotin Hnd']; subst.
    rewrite IH; [|intros; apply Hp; now right | assumption].
    rewrite upsert_follower_In. cbn [In]. split.
    + intros [Hin | [[-> | [Hin Hs]] Hall]].
      * left. now right.
      * left. now left.
      * right. split; [assumption|]. intros x [<- | Hx]; auto.
    + intros [[<- | Hin] | [Hin Hall]].
      * right. split; [now left|]. intros x Hx. unfold same_relation.
        destruct (String.eqb_spec (Row.follower_ig_id row) (Row.follower_ig_id x))
          as [E|E]; [|now rewrite andb_false_r].
        exfalso. apply Hnotin. rewrite E. now apply in_map.
      * now left.
      * right. split; [right; split; auto|]. intros x Hx. apply Hall. now right.
Qed.

Lemma fold_left_concat {A B} (f : A -> B -> A) (ls : list (list B)) :
  forall a,
    fold_left (fun acc l => fold_left f l acc) ls a =
    fold_left f (List.concat ls) a.
Proof.
  induction ls as [|l ls IH]; intros a; [reflexivity|].
  cbn [fold_left List.concat]. now rewrite fold_left_app, IH.
Qed.

Lemma followersToUpsert_row profileId userId now followersData followingData
  (r : Row.Follower) :
  In r (followersToUpsert profileId userId now followersData followingData) ->
  Row.profile_id r = profileId /\
  Row.is_follower r = mem (Row.follower_ig_id r) followersData /\
  Row.is_following r = mem (Row.follower_ig_id r) followingData.
Proof.
  unfold followersToUpsert. intros Hin. apply in_map_iff in Hin.
  destruct Hin as (v & <- & Hv). split; [reflexivity|].
  apply Map_values_get in Hv. destruct Hv as [k Hk].
  destruct (allUsersMap_flags followersData followingData) as [_ Hget].
  specialize (Hget k). rewrite Hk in Hget.
  destruct Hget as (Hid & Hf & Hg & _). cbn. rewrite Hid. now split.
Qed.

Lemma followersToUpsert_has profileId userId now followersData followingData
  (x : string) :
  In x (map ig_id followersData) \/ In x (map ig_id followingData) ->
  exists r,
    In r (followersToUpsert profileId userId now followersData followingData) /\
    Row.follower_ig_id r = x.
Proof.
  intros Hx. destruct (allUsersMap_get followersData followingData x Hx) as [v Hv].
  exists (to_row profileId userId now v). split.
  - apply in_map. eapply Map_get_Some_In. eassumption.
  - destruct (allUsersMap_flags followersData followingData) as [_ Hget].
    specialize (Hget x). rewrite Hv in Hget. cbn. tauto.
Qed.

(** The rows of the profile once the sync has written its batches: the
    rows sent, and the stored rows of the accounts that are in neither
    list, which no write touches. *)
Lemma stored_after_sync profileId userId now currentFollowers
  followersData followingData upsert_error (t : list Row.Follower)
  (r : Row.Follower) :
  (forall i, upsert_error i = None) ->
  In r (select_followers profileId
          (stored_after t
             (snd (syncFollowers profileId userId now currentFollowers
                     followersData followingData upsert_error)))) <->
  In r (followersToUpsert profileId userId now followersData followingData) \/
  (In r (select_followers profileId t) /\
   ~ In (Row.follower_ig_id r) (map ig_id followersData) /\
   ~ In (Row.follower_ig_id r) (map ig_id followingData)).
Proof.
  intros Hok. rewrite syncFollowers_writes by assumption.
  unfold stored_after, select_followers. cbn [snd upserted].
  rewrite fold_left_concat, slices_cover by (unfold BATCH_SIZE; lia).
  rewrite !filter_In.
  set (rows := followersToUpsert profileId userId now followersData followingData).
  assert (Hp : forall row, In row rows -> Row.profile_id row = profileId).
  { intros row Hrow. now apply followersToUpsert_row in Hrow. }
  assert (Hnd : NoDup (map Row.follower_ig_id rows)).
  { unfold rows. rewrite followersToUpsert_ids.
    apply (allUsersMap_flags followersData followingData). }
  rewrite (fold_upsert_In profileId rows Hp Hnd). split.
  - intros [[Hin | [Hin Hall]] Hprof]; [now left|].
    right. split; [now split|].
    apply String.eqb_eq in Hprof.
    assert (Hno : ~ (In (Row.follower_ig_id r) (map ig_id followersData) \/
                     In (Row.follower_ig_id r) (map ig_id followingData))).
    { intros Hx.
      destruct (followersToUpsert_has profileId userId now _ _ _ Hx)
        as (row & Hrow & Hid).
      specialize (Hall row Hrow). unfold same_relation in Hall.
      rewrite (Hp row Hrow), Hprof, Hid, !String.eqb_refl in Hall.
      discriminate. }
    tauto.
  - intros [Hin | ([Hin Hprof] & HnF & HnG)].
    + split; [now left|]. apply String.eqb_eq. now apply Hp.
    + split; [|assumption]. right. split; [assumption|].
      intros row Hrow. unfold same_relation.
      destruct (String.eqb_spec (Row.follower_ig_id r) (Row.follower_ig_id row))
        as [E|E]; [|now rewrite andb_false_r].
      exfalso.
      pose proof (followersToUpsert_row _ _ _ _ _ _ Hrow) as (_ & Hf & Hg).
      pose proof (followersToUpsert_ids profileId userId now followersData
                    followingData) as Hids.
      assert (Hk : In (Row.follower_ig_id row)
                     (map fst (allUsersMap followersData followingData))).
      { rewrite <- Hids. now apply in_map. }
      destruct (allUsersMap_keys followersData followingData) as (Hkeys & _ & _ & Hiff).
      rewrite Hkeys in Hk. apply Hiff in Hk. rewrite <- E in Hk. tauto.
Qed.

Lemma stored_ids_Some (rows : list Row.Follower) keep (x : string) :
  In x (Set_from (stored_ids (Some rows) keep)) <->
  exists r, In r rows /\ keep r = true /\ Row.follower_ig_id r = x.
Proof.
  rewrite Set_from_In, stored_ids_In. split.
  - intros (rows' & r & E & H). injection E as <-. eauto.
  - intros (r & H). eauto.
Qed.

Lemma no_element {A} (l : list A) : (forall x, ~ In x l) -> l = [].
Proof.
  destruct l as [|a l]; [reflexivity|]. intros H. destruct (H a). now left.
Qed.

(** The table is not told about the accounts that left both lists: their
    rows keep [is_follower] (or [is_following]) as it was. Hence, when the
    same two lists are synced again, no account is reported as new, but
    every follower reported lost the first time and not followed by the
    profile is reported lost again; likewise for the accounts the profile
    stopped following. *)
Theorem resync_repeats_lost_followers
  (profileId userId : string) (now : Z)
  (followersData followingData : list ScrapedUser)
  (upsert_error : nat -> option string) (t : list Row.Follower) :
  (forall i, upsert_error i = None) ->
  newFollowersList
    (Some (select_followers profileId
             (stored_after t
                (snd (syncFollowers profileId userId now
                        (Some (select_followers profileId t))
                        followersData followingData upsert_error)))))
    followersData = [] /\
  newFollowingList
    (Some (select_followers profileId
             (stored_after t
                (snd (syncFollowers profileId userId now
                        (Some (select_followers profileId t))
                        followersData followingData upsert_error)))))
    followingData = [] /\
  (forall x,
     In x (lostFollowersList
             (Some (select_followers profileId
                      (stored_after t
                         (snd (syncFollowers profileId userId now
                                 (Some (select_followers profileId t))
                                 followersData followingData upsert_error)))))
             followersData) <->
     In x (lostFollowersList (Some (select_followers profileId t)) followersData) /\
     ~ In x (map ig_id followingData)) /\
  (forall x,
     In x (stoppedFollowingList
             (Some (select_followers profileId
                      (stored_after t
                         (snd (syncFollowers profileId userId now
                                 (Some (select_followers profileId t))
                                 followersData followingData upsert_error)))))
             followingData) <->
     In x (stoppedFollowingList (Some (select_followers profileId t)) followingData) /\
     ~ In x (map ig_id followersData)).
Proof.
  intros Hok.
  set (after :=
         select_followers profileId
           (stored_after t
              (snd (syncFollowers profileId userId now
                      (Some (select_followers profileId t))
                      followersData followingData upsert_error)))).
  assert (Hafter : forall r,
    In r after <->
    In r (followersToUpsert profileId userId now followersData followingData) \/
    (In r (select_followers profileId t) /\
     ~ In (Row.follower_ig_id r) (map ig_id followersData) /\
     ~ In (Row.follower_ig_id r) (map ig_id followingData))).
  { intros r. now apply stored_after_sync. }
  clearbody after.
  unfold newFollowersList, newFollowingList, lostFollowersList,
    stoppedFollowingList, currentFollowerIds, currentFollowingIds,
    newFollowerIds, newFollowingIds.
  split; [|split; [|split]].
  - apply no_element. intros x Hx. apply minus_In in Hx.
    destruct Hx as [HxF Hno]. rewrite Set_from_In in HxF. apply Hno.
    apply stored_ids_Some.
    destruct (followersToUpsert_has profileId userId now followersData
                followingData x (or_introl HxF)) as (r & Hr & Hid).
    exists r. split; [apply Hafter; now left|]. split; [|assumption].
    destruct (followersToUpsert_row _ _ _ _ _ _ Hr) as (_ & -> & _).
    rewrite Hid. now apply mem_In.
  - apply no_element. intros x Hx. apply minus_In in Hx.
    destruct Hx as [HxG Hno]. rewrite Set_from_In in HxG. apply Hno.
    apply stored_ids_Some.
    destruct (followersToUpsert_has profileId userId now followersData
                followingData x (or_intror HxG)) as (r & Hr & Hid).
    exists r. split; [apply Hafter; now left|]. split; [|assumption].
    destruct (followersToUpsert_row _ _ _ _ _ _ Hr) as (_ & _ & ->).
    rewrite Hid. now apply mem_In.
  - intros x. rewrite !minus_In, !stored_ids_Some, !Set_from_In. split.
    + intros [(r & Hr & Hk & Hid) HnF]. apply Hafter in Hr.
      destruct Hr as [Hr | (Hr & _ & HnG)].
      * exfalso. destruct (followersToUpsert_row _ _ _ _ _ _ Hr) as (_ & Hf & _).
        rewrite Hk, Hid in Hf. symmetry in Hf. apply mem_In in Hf. tauto.
      * rewrite Hid in HnG. split; [split; eauto | assumption].
    + intros [[(r & Hr & Hk & Hid) HnF] HnG]. split; [|assumption].
      exists r. split; [|now split]. apply Hafter. right.
      rewrite Hid. tauto.
  - intros x. rewrite !minus_In, !stored_ids_Some, !Set_from_In. split.
    + intros [(r & Hr & Hk & Hid) HnG]. apply Hafter in Hr.
      destruct Hr as [Hr | (Hr & HnF & _)].
      * exfalso. destruct (followersToUpsert_row _ _ _ _ _ _ Hr) as (_ & _ & Hg).
        rewrite Hk, Hid in Hg. symmetry in Hg. apply mem_In in Hg. tauto.
      * rewrite Hid in HnF. split; [split; eauto | assumption].
    + intros [[(r & Hr & Hk & Hid) HnG] HnF]. split; [|assumption].
      exists r. split; [|now split]. apply Hafter. right.
      rewrite Hid. tauto.
Qed.

Lemma resync_repeats_lost_followers_witness :
  lostFollowersList (Some (select_followers "p" example_table))
    current_followers = ["A"] /\
  lostFollowersList
    (Some (select_followers "p"
             (stored_after example_table
                (snd (syncFollowers "p" "u" 9
                        (Some (select_followers "p" example_table))
                        current_followers current_following
                        (fun _ => None))))))
    current_followers = ["A"] /\
  newFollowersList
    (Some (select_followers "p"
             (stored_after example_table
                (snd (syncFollowers "p" "u" 9
                        (Some (select_followers "p" example_table))
                        current_followers current_following
                        (fun _ => None))))))
    current_followers = [].
Proof.
  split; [vm_compute; reflexivity|]. split; [vm_compute; reflexivity|].
  exact (proj1 (resync_repeats_lost_followers "p" "u" 9 current_followers
                  current_following (fun _ => None) example_table
                  (fun _ => eq_refl))).
Defined.

End Followers.

(* ===================================================================== *)
(** ** The media sync *)
(* ===================================================================== *)

Module MediaSync.

Import Followers.
Local Open Scope list_scope.

Inductive MediaType : Type := IMAGE | VIDEO | CAROUSEL.

(** An entry of [mediaData], as [scrapeMedia] returns it. *)
Record ScrapedMedia : Type := {
  media_id : string;
  shortcode : string;
  media_type : MediaType;
  caption_text : option string;
  hashtags : list string;
  mentions : list string;
  timestamp : string;
  media_url : option string;
  likes_count : Z;
  comments_count : Z;
  video_views : option Z;
}.

(** A row sent to the table [media]. *)
Module Row.

Record Media : Type := {
  profile_id : string;
  user_id : string;
  ig_media_id : string;
  row_shortcode : string;              (* shortcode *)
  row_media_type : MediaType;          (* media_type *)
  caption : option string;
  row_hashtags : list string;          (* hashtags *)
  row_mentions : list string;          (* mentions *)
  row_media_url : option string;       (* media_url *)
  permalink : string;
  row_likes_count : Z;                 (* likes_count *)
  row_comments_count : Z;              (* comments_count *)
  row_video_views : option Z;          (* video_views *)
  row_timestamp : string;              (* timestamp *)
  updated_at : Z;
}.

End Row.

Definition to_row (profileId userId : string) (now : Z) (media : ScrapedMedia)
  : Row.Media :=
  {| Row.profile_id := profileId;
     Row.user_id := userId;
     Row.ig_media_id := media_id media;
     Row.row_shortcode := shortcode media;
     Row.row_media_type := media_type media;
     Row.caption := caption_text media;
     Row.row_hashtags := hashtags media;
     Row.row_mentions := mentions media;
     Row.row_media_url := media_url media;
     Row.permalink :=
       String.append "https://www.instagram.com/p/"
         (String.append (shortcode media) "/");
     Row.row_likes_count := likes_count media;
     Row.row_comments_count := comments_count media;
     Row.row_video_views := video_views media;
     Row.row_timestamp := timestamp media;
     Row.updated_at := now |}.

Definition mediaToUpsert (profileId userId : string) (now : Z)
  (mediaData : list ScrapedMedia) : list Row.Media :=
  map (to_row profileId userId now) mediaData.

Definition BATCH_SIZE : nat := 500.

(** The loop over the batches: the batches the store accepted, the value
    of [totalInserted], and the message of the batch it rejected
    ([upsert_error i], for the batch of index [i]), which ends the loop. *)
Fixpoint upsert_batches (upsert_error : nat -> option string) (i : nat)
  (totalInserted : nat) (batches : list (list Row.Media))
  : list (list Row.Media) * nat * option string :=
  match batches with
  | [] => ([], totalInserted, None)
  | batch :: rest =>
      match upsert_error i with
      | Some msg => ([], totalInserted, Some msg)
      | None =>
          let '(done, total, err) :=
            upsert_batches upsert_error (S i)
              (totalInserted + List.length batch) rest in
          (batch :: done, total, err)
      end
  end.

(** [syncMedia]: its completion and the batches written. *)
Definition syncMedia (upsert_error : nat -> option string)
  (profileId userId : string) (now : Z) (mediaData : list ScrapedMedia)
  : Outcome nat * list (list Row.Media) :=
  let rows := mediaToUpsert profileId userId now mediaData in
  match upsert_batches upsert_error 0 0
          (slices (List.length rows) BATCH_SIZE rows) with
  | (done, _, Some msg) =>
      (Thrown (Error (String.append "Failed to upsert media: " msg)), done)
  | (done, totalInserted, None) => (Returned totalInserted, done)
  end.

(** Three posts. *)
Definition post (k : string) : ScrapedMedia :=
  {| media_id := k; shortcode := String.append "sc" k; media_type := IMAGE;
     caption_text := None; hashtags := []; mentions := [];
     timestamp := "2024-01-01T00:00:00.000Z"; media_url := None;
     likes_count := 1; comments_count := 0; video_views := None |}.

Definition three_posts : list ScrapedMedia := [post "1"; post "2"; post "3"].

Lemma upsert_batches_accepted_all (upsert_error : nat -> option string)
  (batches : list (list Row.Media)) :
  (forall i, upsert_error i = None) ->
  forall i n,
    upsert_batches upsert_error i n batches =
    (batches, (n + List.length (List.concat batches))%nat, None).
Proof.
  intros Hok. induction batches as [|b rest IH]; intros i n.
  - cbn. now rewrite Nat.add_0_r.
  - cbn [upsert_batches List.concat]. rewrite Hok, IH.
    now rewrite length_app, Nat.add_assoc.
Qed.

Lemma upsert_batches_rejected_at (upsert_error : nat -> option string)
  (msg : string) (batches : list (list Row.Media)) :
  forall k i n,
    (k < List.length batches)%nat ->
    upsert_error (i + k)%nat = Some msg ->
    (forall j, (j < k)%nat -> upsert_error (i + j)%nat = None) ->
    exists total,
      upsert_batches upsert_error i n batches =
      (firstn k batches, total, Some msg).
Proof.
  induction batches as [|b rest IH]; intros k i n Hk Hat Hbefore.
  - simpl in Hk. lia.
  - cbn [upsert_batches]. destruct k as [|k].
    + rewrite Nat.add_0_r in Hat. rewrite Hat. eexists. reflexivity.
    + assert (H0 : upsert_error i = None)
        by (rewrite <- (Nat.add_0_r i); apply Hbefore; lia).
      rewrite H0.
      destruct (IH k (S i) (n + List.length b)%nat) as [total ->].
      * simpl in Hk. lia.
      * now rewrite Nat.add_succ_comm.
      * intros j Hj. rewrite Nat.add_succ_comm. apply Hbefore. lia.
      * eexists. reflexivity.
Qed.

(** When the store accepts every batch, [syncMedia] returns the number of
    items it was given; every item is sent exactly once, in order, as a
    row carrying the permalink of its shortcode, in batches of at most 500
    rows. An empty list sends nothing and returns 0. *)
Theorem syncMedia_sends_every_item
  (upsert_error : nat -> option string) (profileId userId : string) (now : Z)
  (mediaData : list ScrapedMedia) :
  (forall i, upsert_error i = None) ->
  fst (syncMedia upsert_error profileId userId now mediaData) =
    Returned (List.length mediaData) /\
  List.concat (snd (syncMedia upsert_error profileId userId now mediaData)) =
    mediaToUpsert profileId userId now mediaData /\
  map (fun r => (Row.ig_media_id r, Row.permalink r))
    (List.concat (snd (syncMedia upsert_error profileId userId now mediaData))) =
    map (fun m => (media_id m,
                   String.append "https://www.instagram.com/p/"
                     (String.append (shortcode m) "/")))
      mediaData /\
  Forall (fun b => b <> [] /\ (List.length b <= 500)%nat)
    (snd (syncMedia upsert_error profileId userId now mediaData)).
Proof.
  intros Hok. unfold syncMedia.
  rewrite upsert_batches_accepted_all by assumption. cbn [fst snd].
  rewrite slices_cover by (unfold BATCH_SIZE; lia).
  split; [|split; [|split]].
  - cbn [Nat.add]. unfold mediaToUpsert. now rewrite length_map.
  - reflexivity.
  - unfold mediaToUpsert. rewrite map_map. reflexivity.
  - apply slices_bounds. unfold BATCH_SIZE. lia.
Qed.

Lemma syncMedia_sends_every_item_witness :
  fst (syncMedia (fun _ => None) "p" "u" 0 three_posts) = Returned 3%nat /\
  map (map Row.permalink) (snd (syncMedia (fun _ => None) "p" "u" 0 three_posts)) =
    [[ "https://www.instagram.com/p/sc1/"; "https://www.instagram.com/p/sc2/";
       "https://www.instagram.com/p/sc3/" ]].
Proof.
  split; [|reflexivity].
  exact (proj1 (syncMedia_sends_every_item (fun _ => None) "p" "u" 0
                  three_posts (fun _ => eq_refl))).
Defined.

(** When the store rejects a batch, [syncMedia] throws
    [Failed to upsert media: ...] at once: the batches before it stay
    written and the count of the rows inserted so far is not returned. *)
Theorem syncMedia_upsert_failure
  (upsert_error : nat -> option string) (profileId userId : string) (now : Z)
  (mediaData : list ScrapedMedia) (k : nat) (msg : string) :
  (k * 500 < List.length mediaData)%nat ->
  upsert_error k = Some msg ->
  (forall j, (j < k)%nat -> upsert_error j = None) ->
  syncMedia upsert_error profileId userId now mediaData =
  (Thrown (Error (String.append "Failed to upsert media: " msg)),
   firstn k
     (slices (List.length (mediaToUpsert profileId userId now mediaData))
        BATCH_SIZE (mediaToUpsert profileId userId now mediaData))).
Proof.
  intros Hk Hat Hbefore. unfold syncMedia.
  destruct (upsert_batches_rejected_at upsert_error msg
              (slices (List.length (mediaToUpsert profileId userId now mediaData))
                 BATCH_SIZE (mediaToUpsert profileId userId now mediaData))
              k 0%nat 0%nat) as [total ->];
    [ | exact Hat | exact Hbefore | reflexivity].
  apply slices_count; [unfold BATCH_SIZE; lia | lia |].
  unfold mediaToUpsert. rewrite length_map. exact Hk.
Qed.

Lemma syncMedia_upsert_failure_witness :
  syncMedia (fails_at 0 "duplicate key") "p" "u" 0 three_posts =
  (Thrown (Error "Failed to upsert media: duplicate key"), []).
Proof.
  apply (syncMedia_upsert_failure (fails_at 0 "duplicate key") "p" "u" 0
           three_posts 0 "duplicate key").
  - simpl. lia.
  - reflexivity.
  - intros j Hj. lia.
Defined.

End MediaSync.

(* ===================================================================== *)
(** ** The relation-list pagination *)
(* ===================================================================== *)

Module Pagination.

Import Followers.
Local Open Scope list_scope.

(** A [node] of the GraphQL answer. *)
Record Node : Type := {
  id : option string;
  node_username : string;             (* username *)
  node_full_name : option string;     (* full_name *)
  node_is_private : option bool;      (* is_private *)
  node_is_verified : option bool;     (* is_verified *)
  node_profile_pic_url : option string;
}.

(** [page_info]; a missing [has_next_page] reads as [false]. *)
Record PageInfo : Type := {
  has_next_page : bool;
  end_cursor : option string;
}.

(** The part of a response the loop reads: the edges (an edge without a
    node is [None]) and the page information. A response without the
    expected path has no edges, [has_next_page = false] and no cursor. *)
Record Response : Type := {
  edges : list (option Node);
  page_info : PageInfo;
}.

Definition bool_or (o : option bool) (d : bool) : bool :=
  match o with Some true => true | _ => d end.

Definition opt_truthy (o : option string) : option string :=
  if truthy o then o else None.

Definition user_of_node (node : Node) : ScrapedUser :=
  {| ig_id := str_or (id node) (node_username node);
     username := node_username node;
     full_name := opt_truthy (node_full_name node);
     is_private := bool_or (node_is_private node) false;
     is_verified := bool_or (node_is_verified node) false;
     profile_pic_url := opt_truthy (node_profile_pic_url node) |}.

(** *** A scripted platform *)

Definition node (k : string) : option Node :=
  Some {| id := Some k; node_username := String.append "user_" k;
          node_full_name := None; node_is_private := None;
          node_is_verified := None; node_profile_pic_url := None |}.

(** Two pages of two users, then a request that fails. *)
Definition three_requests (n : nat) (after : option string)
  : Outcome Response :=
  match n, after with
  | O, None =>
      Returned {| edges := [node "1"; node "2"];
                  page_info := {| has_next_page := true;
                                  end_cursor := Some "c1" |} |}
  | 1%nat, Some "c1" =>
      Returned {| edges := [node "3"; node "4"];
                  page_info := {| has_next_page := true;
                                  end_cursor := Some "c2" |} |}
  | _, _ => Thrown (Error "fetch failed")
  end.

(** A list served in two pages. *)
Definition first_page : Response :=
  {| edges := [node "1"; node "2"];
     page_info := {| has_next_page := true; end_cursor := Some "c1" |} |}.

Definition second_page : Response :=
  {| edges := [node "3"];
     page_info := {| has_next_page := false; end_cursor := None |} |}.

(** A second page that announces a third one. *)
Definition next_page : Response :=
  {| edges := [node "3"; node "4"];
     page_info := {| has_next_page := true; end_cursor := Some "c2" |} |}.

Definition two_pages (n : nat) (after : option string) : Outcome Response :=
  match n, after with
  | O, None => Returned first_page
  | 1%nat, Some "c1" => Returned second_page
  | _, _ => Thrown (Error "fetch failed")
  end.

(** A platform that rejects every request. *)
Definition unreachable (n : nat) (after : option string) : Outcome Response :=
  Thrown (Error "net::ERR_FAILED").

Definition ids (r : option (Outcome (list ScrapedUser))) : list string :=
  match r with
  | Some (Returned l) => map ig_id l
  | _ => []
  end.

Section Loop.

(** The platform: the completion of the [n]-th request, sent with the
    cursor [after]. *)
Variable server : nat -> option string -> Outcome Response.
Variable maxCount : Z.

Definition capped (users : list ScrapedUser) : bool :=
  negb (maxCount =? -1) && (maxCount <=? Z.of_nat (List.length users)).

(** [for (const edge of edges) { users.push(...); if (maxCount !== -1 &&
    users.length >= maxCount) { hasNextPage = false; break; } }]: the
    users, the value left in [hasNextPage], and whether an edge without a
    node made the loop throw. *)
Fixpoint push_edges (users : list ScrapedUser) (hasNextPage : bool)
  (es : list (option Node)) : list ScrapedUser * bool * bool :=
  match es with
  | [] => (users, hasNextPage, false)
  | None :: _ => (users, hasNextPage, true)
  | Some node :: es' =>
      let users' := users ++ [user_of_node node] in
      if capped users' then (users', false, false)
      else push_edges users' hasNextPage es'
  end.

(** The [while] loop; [None] when [fuel] iterations were not enough. *)
Fixpoint collect (fuel : nat) (n : nat) (hasNextPage : bool)
  (afterCursor : option string) (users : list ScrapedUser)
  : option (list ScrapedUser) :=
  if hasNextPage && negb (capped users) then
    match fuel with
    | O => None
    | S fuel' =>
        match server n afterCursor with
        | Thrown _ => Some users                       (* catch: break *)
        | Returned response =>
            match edges response with
            | [] => Some users                         (* break *)
            | es =>
                match push_edges users hasNextPage es with
                | (users', _, true) => Some users'     (* catch: break *)
                | (users', _, false) =>
                    let hasNextPage' := has_next_page (page_info response) in
                    let afterCursor' := opt_truthy (end_cursor (page_info response)) in
                    if negb hasNextPage' ||
                       match afterCursor' with None => true | Some _ => false end
                    then Some users'                   (* break *)
                    else collect fuel' (S n) hasNextPage' afterCursor' users'
                end
            end
        end
    end
  else Some users.

(** [fetchUserListViaGraphQL]; [page] tells whether [this.page] is set. *)
Definition fetchUserListViaGraphQL (fuel : nat) (page : bool)
  : option (Outcome (list ScrapedUser)) :=
  if negb page
  then Some (Thrown (AppError ErrorCodes.INTERNAL_SERVER_ERROR
                       "Page not initialized"))
  else option_map Returned (collect fuel 0 true None []).

(** A response after which the loop cannot go on: a failed request, a page
    without items, or a page without a next cursor. *)
Definition last_page (r : Outcome Response) : bool :=
  match r with
  | Thrown _ => true
  | Returned response =>
      match edges response with
      | [] => true
      | _ =>
          negb (has_next_page (page_info response)) ||
          match opt_truthy (end_cursor (page_info response)) with
          | None => true
          | Some _ => false
          end
      end
  end.

(** The users of a page, in the order of its edges. *)
Definition users_of_page (r : Response) : list ScrapedUser :=
  flat_map (fun e => match e with
                     | Some node => [user_of_node node]
                     | None => []
                     end) (edges r).

(** A page the loop can read: it has edges, and each edge has its node. *)
Definition readable (r : Response) : Prop :=
  edges r <> [] /\ Forall (fun e => e <> None) (edges r).

(** The platform answers the requests [n], [n + 1], ... with [pages], each
    request carrying the cursor of the page before it; only the last page
    has no next page. *)
Fixpoint serves (n : nat) (after : option string) (pages : list Response)
  : Prop :=
  match pages with
  | [] => False
  | r :: rest =>
      server n after = Returned r /\ readable r /\
      match rest with
      | [] => last_page (Returned r) = true
      | _ =>
          last_page (Returned r) = false /\
          serves (S n) (opt_truthy (end_cursor (page_info r))) rest
      end
  end.

(** The first [maxCount] users of a list, all of them when [maxCount] is
    the sentinel. *)
Definition up_to_maxCount (l : list ScrapedUser) : list ScrapedUser :=
  if maxCount =? -1 then l else firstn (Z.to_nat maxCount) l.

(** The users taken from the edges of a page, up to the first edge
    without a node. *)
Fixpoint users_read (es : list (option Node)) : list ScrapedUser :=
  match es with
  | Some node :: es' => user_of_node node :: users_read es'
  | _ => []
  end.

Definition unreadable (es : list (option Node)) : bool :=
  existsb (fun e => match e with None => true | Some _ => false end) es.

(** A response that ends the collection: a failed request, a page without
    items, a page without a next cursor, or a page with an edge that
    cannot be read. *)
Definition stops (r : Outcome Response) : bool :=
  last_page r ||
  match r with
  | Returned response => unreadable (edges response)
  | Thrown _ => false
  end.

(** The users the response that ends the collection adds to it. *)
Definition users_of_stop (r : Outcome Response) : list ScrapedUser :=
  match r with
  | Returned response => users_read (edges response)
  | Thrown _ => []
  end.

(** The platform answers the requests [n], [n + 1], ... with [pages], each
    of them readable and followed by a next page, each request carrying
    the cursor of the page before it; the request that follows them gets
    [stop]. *)
Fixpoint serves_then (n : nat) (after : option string) (pages : list Response)
  (stop : Outcome Response) : Prop :=
  match pages with
  | [] => server n after = stop
  | r :: rest =>
      server n after = Returned r /\ readable r /\
      last_page (Returned r) = false /\
      serves_then (S n) (opt_truthy (end_cursor (page_info r))) rest stop
  end.

(* --------------------------------------------------------------------- *)
(** *** Lemmas on the loop *)

Lemma capped_false_lt (users : list ScrapedUser) :
  maxCount <> -1 -> capped users = false ->
  Z.of_nat (List.length users) < maxCount.
Proof.
  unfold capped. intros Hm H.
  apply Z.eqb_neq in Hm. rewrite Hm in H. simpl in H.
  now apply Z.leb_gt in H.
Qed.

Lemma capped_no_cap (users : list ScrapedUser) :
  maxCount = -1 -> capped users = false.
Proof. intros H. unfold capped. now rewrite H. Qed.

Lemma push_edges_extends (es : list (option Node)) :
  forall users h users' h' t,
    push_edges users h es = (users', h', t) ->
    exists more, users' = users ++ more.
Proof.
  induction es as [|[node|] es IH]; intros users h users' h' t E; simpl in E.
  - injection E as <- _ _. exists []. now rewrite app_nil_r.
  - destruct (capped (users ++ [user_of_node node])).
    + injection E as <- _ _. eauto.
    + apply IH in E. destruct E as [more ->].
      exists (user_of_node node :: more). now rewrite <- app_assoc.
  - injection E as <- _ _. exists []. now rewrite app_nil_r.
Qed.

Lemma push_edges_grows (es : list (option Node)) users h users' h' :
  es <> [] ->
  push_edges users h es = (users', h', false) ->
  (List.length users < List.length users')%nat.
Proof.
  destruct es as [|[node|] es]; intros Hne E; simpl in E;
    [congruence | | discriminate].
  destruct (capped (users ++ [user_of_node node])).
  - injection E as <- _. rewrite length_app. simpl. lia.
  - apply push_edges_extends in E. destruct E as [more ->].
    rewrite !length_app. simpl. lia.
Qed.

Lemma push_edges_bound (es : list (option Node)) :
  forall users h users' h' t,
    maxCount <> -1 -> capped users = false ->
    push_edges users h es = (users', h', t) ->
    Z.of_nat (List.length users') <= maxCount.
Proof.
  induction es as [|[node|] es IH]; intros users h users' h' t Hm Hc E;
    simpl in E.
  - injection E as <- _ _. pose proof (capped_false_lt _ Hm Hc). lia.
  - destruct (capped (users ++ [user_of_node node])) eqn:Hc'.
    + injection E as <- _ _. pose proof (capped_false_lt _ Hm Hc).
      rewrite length_app. simpl. lia.
    + eapply IH; eassumption.
  - injection E as <- _ _. pose proof (capped_false_lt _ Hm Hc). lia.
Qed.

(** One turn of the loop, by cases. *)
Lemma collect_step (fuel n : nat) (c : option string) (users : list ScrapedUser) :
  capped users = false ->
  collect (S fuel) n true c users =
  match server n c with
  | Thrown _ => Some users
  | Returned response =>
      match edges response with
      | [] => Some users
      | es =>
          match push_edges users true es with
          | (users', _, true) => Some users'
          | (users', _, false) =>
              if last_page (Returned response) then Some users'
              else collect fuel (S n) true
                     (opt_truthy (end_cursor (page_info response))) users'
          end
      end
  end.
Proof.
  intros Hc. cbn [collect]. rewrite Hc. cbn [andb negb].
  destruct (server n c) as [response|e]; [|reflexivity].
  unfold last_page.
  destruct (edges response) as [|e es]; [reflexivity|].
  destruct (push_edges users true (e :: es)) as [[users' h] [|]];
    [reflexivity|].
  destruct (has_next_page (page_info response)); reflexivity.
Qed.

Lemma collect_capped (fuel n : nat) (c : option string) (users : list ScrapedUser) :
  capped users = true -> collect fuel n true c users = Some users.
Proof. intros Hc. destruct fuel; cbn [collect]; now rewrite Hc. Qed.

Lemma collect_extends (fuel : nat) :
  forall n h c users r,
    collect fuel n h c users = Some r -> exists more, r = users ++ more.
Proof.
  assert (Hrefl : forall users : list ScrapedUser,
             exists more, users = users ++ more)
    by (intros users; exists []; now rewrite app_nil_r).
  induction fuel as [|fuel IH]; intros n h c users r E; cbn [collect] in E.
  - destruct (h && negb (capped users)); [discriminate|].
    injection E as <-. apply Hrefl.
  - destruct (h && negb (capped users)); [|injection E as <-; apply Hrefl].
    destruct (server n c) as [response|e]; [|injection E as <-; apply Hrefl].
    destruct (edges response) as [|e es]; [injection E as <-; apply Hrefl|].
    destruct (push_edges users h (e :: es)) as [[users' h'] t] eqn:Ep.
    apply push_edges_extends in Ep. destruct Ep as [more ->].
    destruct t; [injection E as <-; eauto|].
    destruct (negb (has_next_page (page_info response)) ||
              match opt_truthy (end_cursor (page_info response)) with
              | None => true
              | Some _ => false
              end).
    + injection E as <-. eauto.
    + apply IH in E. destruct E as [more' ->].
      exists (more ++ more'). now rewrite app_assoc.
Qed.

Lemma collect_bound (fuel : nat) :
  forall n h c users r,
    maxCount <> -1 ->
    collect fuel n h c users = Some r ->
    Z.of_nat (List.length r) <= Z.max maxCount (Z.of_nat (List.length users)).
Proof.
  induction fuel as [|fuel IH]; intros n h c users r Hm E; cbn [collect] in E.
  - destruct (h && negb (capped users)); [discriminate|].
    injection E as <-. lia.
  - destruct (h && negb (capped users)) eqn:Hc; [|injection E as <-; lia].
    apply andb_prop in Hc. destruct Hc as [_ Hc]. apply negb_true_iff in Hc.
    destruct (server n c) as [response|e]; [|injection E as <-; lia].
    destruct (edges response) as [|e es]; [injection E as <-; lia|].
    destruct (push_edges users h (e :: es)) as [[users' h'] t] eqn:Ep.
    pose proof (push_edges_bound _ _ _ _ _ _ Hm Hc Ep) as Hb.
    destruct t; [injection E as <-; lia|].
    destruct (negb (has_next_page (page_info response)) ||
              match opt_truthy (end_cursor (page_info response)) with
              | None => true
              | Some _ => false
              end).
    + injection E as <-. lia.
    + apply IH in E; [lia | assumption].
Qed.

(** With a cap, as many turns as the cap allows items are enough. *)
Lemma collect_total_capped (fuel : nat) :
  forall n h c users,
    maxCount <> -1 ->
    (Z.to_nat (maxCount - Z.of_nat (List.length users)) <= fuel)%nat ->
    exists r, collect fuel n h c users = Some r.
Proof.
  induction fuel as [|fuel IH]; intros n h c users Hm Hf; cbn [collect].
  - destruct (h && negb (capped users)) eqn:Hc; [|eauto].
    apply andb_prop in Hc. destruct Hc as [_ Hc]. apply negb_true_iff in Hc.
    pose proof (capped_false_lt _ Hm Hc). lia.
  - destruct (h && negb (capped users)) eqn:Hc; [|eauto].
    apply andb_prop in Hc. destruct Hc as [_ Hc]. apply negb_true_iff in Hc.
    destruct (server n c) as [response|e]; [|eauto].
    destruct (edges response) as [|e es] eqn:Ee; [eauto|].
    destruct (push_edges users h (e :: es)) as [[users' h'] t] eqn:Ep.
    destruct t; [eauto|].
    destruct (negb (has_next_page (page_info response)) ||
              match opt_truthy (end_cursor (page_info response)) with
              | None => true
              | Some _ => false
              end); [eauto|].
    apply IH; [assumption|].
    apply push_edges_grows in Ep; [|discriminate]. lia.
Qed.

(** Without a cap, the loop ends at the first last page. *)
Lemma collect_total_last_page (k : nat) :
  forall fuel n h c users,
    (forall c', last_page (server (n + k) c') = true) ->
    (k < fuel)%nat ->
    exists r, collect fuel n h c users = Some r.
Proof.
  induction k as [|k IH]; intros fuel n h c users Hlast Hf;
    (destruct fuel as [|fuel]; [lia|]); cbn [collect];
    (destruct (h && negb (capped users)); [|eauto]).
  - specialize (Hlast c). rewrite Nat.add_0_r in Hlast.
    unfold last_page in Hlast.
    destruct (server n c) as [response|e]; [|eauto].
    destruct (edges response) as [|e es]; [eauto|].
    destruct (push_edges users h (e :: es)) as [[users' h'] [|]]; [eauto|].
    rewrite Hlast. eauto.
  - destruct (server n c) as [response|e]; [|eauto].
    destruct (edges response) as [|e es]; [eauto|].
    destruct (push_edges users h (e :: es)) as [[users' h'] [|]]; [eauto|].
    destruct (negb (has_next_page (page_info response)) ||
              match opt_truthy (end_cursor (page_info response)) with
              | None => true
              | Some _ => false
              end); [eauto|].
    apply IH; [|lia].
    intros c'. replace (S n + k)%nat with (n + S k)%nat by lia. apply Hlast.
Qed.

(* --------------------------------------------------------------------- *)
(** *** The users returned *)

Lemma up_to_maxCount_not_capped (users : list ScrapedUser) :
  capped users = false -> up_to_maxCount users = users.
Proof.
  unfold capped, up_to_maxCount. destruct (Z.eqb_spec maxCount (-1)); [reflexivity|].
  cbn [negb andb]. intros H. apply Z.leb_gt in H.
  apply firstn_all2. lia.
Qed.

Lemma up_to_maxCount_capped (users more : list ScrapedUser) :
  maxCount <> -1 ->
  Z.of_nat (List.length users) <= Z.max 0 maxCount ->
  capped users = true ->
  up_to_maxCount (users ++ more) = users.
Proof.
  unfold capped, up_to_maxCount. intros Hm Hinv.
  destruct (Z.eqb_spec maxCount (-1)); [contradiction|].
  cbn [negb andb]. intros H. apply Z.leb_le in H.
  assert (E : Z.to_nat maxCount = List.length users) by lia.
  rewrite E, firstn_app, Nat.sub_diag, firstn_all. cbn [firstn].
  apply app_nil_r.
Qed.

Lemma up_to_maxCount_app (a b : list ScrapedUser) :
  up_to_maxCount (up_to_maxCount a ++ b) = up_to_maxCount (a ++ b).
Proof.
  unfold up_to_maxCount. destruct (maxCount =? -1); [reflexivity|].
  set (k := Z.to_nat maxCount).
  destruct (Nat.le_gt_cases k (List.length a)) as [H|H].
  - rewrite !firstn_app, length_firstn.
    replace (k - Nat.min k (List.length a))%nat with 0%nat by lia.
    replace (k - List.length a)%nat with 0%nat by lia.
    cbn [firstn]. rewrite !app_nil_r. now rewrite firstn_firstn, Nat.min_id.
  - now rewrite (firstn_all2 a) by lia.
Qed.

Lemma up_to_maxCount_length (l : list ScrapedUser) :
  maxCount <> -1 ->
  Z.of_nat (List.length (up_to_maxCount l)) <= Z.max 0 maxCount.
Proof.
  intros Hm. unfold up_to_maxCount.
  destruct (Z.eqb_spec maxCount (-1)); [contradiction|].
  rewrite length_firstn. lia.
Qed.

Lemma push_edges_readable (es : list (option Node)) :
  forall users h,
    Forall (fun e => e <> None) es ->
    capped users = false ->
    exists h',
      push_edges users h es =
      (up_to_maxCount
         (users ++ flat_map (fun e => match e with
                                      | Some node => [user_of_node node]
                                      | None => []
                                      end) es), h', false).
Proof.
  induction es as [|e es IH]; intros users h Hall Hc.
  - cbn [push_edges flat_map]. rewrite app_nil_r.
    rewrite up_to_maxCount_not_capped by assumption. eauto.
  - inversion Hall as [|x l He Hall']; subst.
    destruct e as [node|]; [|congruence].
    cbn [push_edges flat_map]. cbn [app].
    replace (users ++ user_of_node node :: flat_map
               (fun e => match e with
                         | Some node0 => [user_of_node node0]
                         | None => []
                         end) es)
      with ((users ++ [user_of_node node]) ++ flat_map
               (fun e => match e with
                         | Some node0 => [user_of_node node0]
                         | None => []
                         end) es)
      by (now rewrite <- app_assoc).
    destruct (capped (users ++ [user_of_node node])) eqn:Hc'.
    + exists false. f_equal. f_equal. symmetry.
      assert (Hm : maxCount <> -1).
      { intros E. rewrite capped_no_cap in Hc' by assumption. discriminate. }
      apply up_to_maxCount_capped; [assumption | | assumption].
      pose proof (capped_false_lt users Hm Hc) as Hlt.
      rewrite length_app. cbn [List.length]. lia.
    + now apply IH.
Qed.

Lemma collect_serves (pages : list Response) :
  forall fuel n c users,
    serves n c pages ->
    (List.length pages <= fuel)%nat ->
    (maxCount <> -1 -> Z.of_nat (List.length users) <= Z.max 0 maxCount) ->
    collect fuel n true c users =
    Some (up_to_maxCount (users ++ flat_map users_of_page pages)).
Proof.
  induction pages as [|r rest IH]; intros fuel n c users Hs Hf Hinv;
    [contradiction|].
  destruct (capped users) eqn:Hc.
  - rewrite collect_capped by assumption. f_equal. symmetry.
    assert (Hm : maxCount <> -1).
    { intros E. rewrite capped_no_cap in Hc by assumption. discriminate. }
    apply up_to_maxCount_capped; auto.
  - destruct fuel as [|fuel]; [simpl in Hf; lia|].
    rewrite collect_step by assumption.
    cbn [serves] in Hs. destruct Hs as (Hsrv & [Hne Hall] & Hrest).
    rewrite Hsrv.
    destruct (push_edges_readable (edges r) users true Hall Hc) as [h' Hpush].
    change (flat_map _ (edges r)) with (users_of_page r) in Hpush.
    destruct (edges r) as [|e es] eqn:Ee; [congruence|].
    rewrite Hpush.
    destruct rest as [|r' rest'].
    + rewrite Hrest. cbn [flat_map]. now rewrite app_nil_r.
    + destruct Hrest as [Hlast Hserves]. rewrite Hlast.
      rewrite (IH fuel (S n) _ _ Hserves).
      * now rewrite up_to_maxCount_app, <- app_assoc.
      * simpl in Hf. simpl. lia.
      * intros Hm. now apply up_to_maxCount_length.
Qed.

Lemma users_read_readable (es : list (option Node)) :
  Forall (fun e => e <> None) es ->
  users_read es =
  flat_map (fun e => match e with
                     | Some node => [user_of_node node]
                     | None => []
                     end) es.
Proof.
  induction 1 as [|e es He Hall IH]; [reflexivity|].
  destruct e as [node|]; [|congruence]. cbn [users_read flat_map app].
  now rewrite IH.
Qed.

(** The edges of a page are taken until the cap is reached or an edge
    cannot be read. *)
Lemma push_edges_read (es : list (option Node)) :
  forall users h,
    capped users = false ->
    exists h' t,
      push_edges users h es =
        (up_to_maxCount (users ++ users_read es), h', t) /\
      (t = false -> unreadable es = true ->
       capped (up_to_maxCount (users ++ users_read es)) = true).
Proof.
  induction es as [|e es IH]; intros users h Hc.
  - cbn [push_edges users_read]. rewrite app_nil_r.
    rewrite up_to_maxCount_not_capped by assumption.
    exists h, false. split; [reflexivity | discriminate].
  - destruct e as [node|].
    + cbn [push_edges users_read unreadable existsb orb].
      replace (users ++ user_of_node node :: users_read es)
        with ((users ++ [user_of_node node]) ++ users_read es)
        by (now rewrite <- app_assoc).
      destruct (capped (users ++ [user_of_node node])) eqn:Hc'.
      * assert (Hm : maxCount <> -1).
        { intros E. rewrite capped_no_cap in Hc' by assumption. discriminate. }
        assert (E : up_to_maxCount ((users ++ [user_of_node node]) ++ users_read es)
                    = users ++ [user_of_node node]).
        { apply up_to_maxCount_capped; [assumption | | assumption].
          pose proof (capped_false_lt users Hm Hc) as Hlt.
          rewrite length_app. cbn [List.length]. lia. }
        rewrite E. exists false, false. split; [reflexivity|]. now intros _ _.
      * apply IH. assumption.
    + cbn [push_edges users_read]. rewrite app_nil_r.
      rewrite up_to_maxCount_not_capped by assumption.
      exists h, true. split; [reflexivity | discriminate].
Qed.

(** The response that ends the collection. *)
Lemma collect_stop (fuel n : nat) (c : option string) (users : list ScrapedUser)
  (stop : Outcome Response) :
  server n c = stop -> stops stop = true -> capped users = false ->
  collect (S fuel) n true c users =
  Some (up_to_maxCount (users ++ users_of_stop stop)).
Proof.
  intros Hsrv Hstop Hc. rewrite collect_step by assumption. rewrite Hsrv.
  destruct stop as [response|e]; cbn [users_of_stop].
  - destruct (push_edges_read (edges response) users true Hc)
      as (h' & t & Hpush & Hcap).
    unfold stops in Hstop.
    destruct (edges response) as [|e es] eqn:Ee.
    + cbn [users_read]. rewrite app_nil_r.
      now rewrite up_to_maxCount_not_capped.
    + rewrite Hpush. destruct t; [reflexivity|].
      destruct (last_page (Returned response)); [reflexivity|].
      cbn [orb] in Hstop. apply collect_capped. now apply Hcap.
  - rewrite app_nil_r. now rewrite up_to_maxCount_not_capped.
Qed.

Lemma collect_serves_then (pages : list Response) (stop : Outcome Response) :
  forall fuel n c users,
    serves_then n c pages stop -> stops stop = true ->
    (List.length pages < fuel)%nat ->
    (maxCount <> -1 -> Z.of_nat (List.length users) <= Z.max 0 maxCount) ->
    collect fuel n true c users =
    Some (up_to_maxCount
            (users ++ flat_map users_of_page pages ++ users_of_stop stop)).
Proof.
  induction pages as [|r rest IH]; intros fuel n c users Hs Hstop Hf Hinv.
  - cbn [serves_then flat_map app] in *.
    destruct (capped users) eqn:Hc.
    + rewrite collect_capped by assumption. f_equal. symmetry.
      assert (Hm : maxCount <> -1).
      { intros E. rewrite capped_no_cap in Hc by assumption. discriminate. }
      apply up_to_maxCount_capped; auto.
    + destruct fuel as [|fuel]; [simpl in Hf; lia|].
      now apply collect_stop.
  - destruct (capped users) eqn:Hc.
    + rewrite collect_capped by assumption. f_equal. symmetry.
      assert (Hm : maxCount <> -1).
      { intros E. rewrite capped_no_cap in Hc by assumption. discriminate. }
      apply up_to_maxCount_capped; auto.
    + destruct fuel as [|fuel]; [simpl in Hf; lia|].
      rewrite collect_step by assumption.
      cbn [serves_then] in Hs. destruct Hs as (Hsrv & [Hne Hall] & Hlast & Hrest).
      rewrite Hsrv.
      destruct (push_edges_readable (edges r) users true Hall Hc) as [h' Hpush].
      change (flat_map _ (edges r)) with (users_of_page r) in Hpush.
      destruct (edges r) as [|e es] eqn:Ee; [congruence|].
      rewrite Hpush, Hlast.
      rewrite (IH fuel (S n) _ _ Hrest Hstop).
      * cbn [flat_map]. now rewrite up_to_maxCount_app, <- !app_assoc.
      * simpl in Hf. lia.
      * intros Hm. now apply up_to_maxCount_length.
Qed.

(** **** C6 *)

(** C6. While no cap is reached, a turn of the loop ends the collection
    with the users gathered so far when the request fails, when the page
    has no item, when an item cannot be read, and (after taking the items)
    when the page announces no next page or gives no cursor; otherwise it
    goes on with the next cursor. When [maxCount] is not [-1] the loop
    stops as soon as [maxCount] users are gathered and never returns more;
    [-1] disables the cap. The result always extends what was gathered
    before, the function never throws once the page exists, and it does
    return: within [maxCount] turns under a cap, and at the first last
    page otherwise. What it returns is what was collected: when the
    platform serves some pages and then a response that ends the
    collection, the function returns the users of these pages, in order,
    followed by the items read from that response, cut at [maxCount]; in
    particular, when the request that follows the pages fails, or gets a
    page without items, it returns the users of the pages served before,
    and no error. *)
Theorem C6_pagination_stops :
  (* one turn *)
  (forall fuel n c users,
     capped users = false ->
     collect (S fuel) n true c users =
     match server n c with
     | Thrown _ => Some users
     | Returned response =>
         match edges response with
         | [] => Some users
         | es =>
             match push_edges users true es with
             | (users', _, true) => Some users'
             | (users', _, false) =>
                 if negb (has_next_page (page_info response)) ||
                    match opt_truthy (end_cursor (page_info response)) with
                    | None => true
                    | Some _ => false
                    end
                 then Some users'
                 else collect fuel (S n) true
                        (opt_truthy (end_cursor (page_info response))) users'
             end
         end
     end) /\
  (* the cap *)
  (forall fuel n c users,
     maxCount <> -1 -> maxCount <= Z.of_nat (List.length users) ->
     collect fuel n true c users = Some users) /\
  (forall fuel l,
     maxCount <> -1 ->
     fetchUserListViaGraphQL fuel true = Some (Returned l) ->
     Z.of_nat (List.length l) <= Z.max 0 maxCount) /\
  (forall users, maxCount = -1 -> capped users = false) /\
  (* nothing gathered is lost, no error leaves the loop *)
  (forall fuel n c users r,
     collect fuel n true c users = Some r -> exists more, r = users ++ more) /\
  (forall fuel r,
     fetchUserListViaGraphQL fuel true = Some r -> exists l, r = Returned l) /\
  (* the loop ends *)
  (forall fuel,
     maxCount <> -1 -> (Z.to_nat maxCount <= fuel)%nat ->
     exists l, fetchUserListViaGraphQL fuel true = Some (Returned l)) /\
  (forall k fuel,
     (forall c, last_page (server k c) = true) -> (k < fuel)%nat ->
     exists l, fetchUserListViaGraphQL fuel true = Some (Returned l)) /\
  (* the users returned *)
  (forall pages stop fuel,
     serves_then 0 None pages stop -> stops stop = true ->
     (List.length pages < fuel)%nat ->
     fetchUserListViaGraphQL fuel true =
     Some (Returned (up_to_maxCount
                       (flat_map users_of_page pages ++ users_of_stop stop)))) /\
  (forall pages e fuel,
     serves_then 0 None pages (Thrown e) ->
     (List.length pages < fuel)%nat ->
     fetchUserListViaGraphQL fuel true =
     Some (Returned (up_to_maxCount (flat_map users_of_page pages)))) /\
  (forall pages response fuel,
     serves_then 0 None pages (Returned response) ->
     edges response = [] ->
     (List.length pages < fuel)%nat ->
     fetchUserListViaGraphQL fuel true =
     Some (Returned (up_to_maxCount (flat_map users_of_page pages)))).
Proof.
  assert (Hret : forall pages stop fuel,
     serves_then 0 None pages stop -> stops stop = true ->
     (List.length pages < fuel)%nat ->
     fetchUserListViaGraphQL fuel true =
     Some (Returned (up_to_maxCount
                       (flat_map users_of_page pages ++ users_of_stop stop)))).
  { intros pages stop fuel Hs Hstop Hf. unfold fetchUserListViaGraphQL.
    cbn [negb].
    rewrite (collect_serves_then pages stop fuel 0 None [] Hs Hstop Hf);
      [reflexivity|].
    intros _. simpl. lia. }
  split; [|split; [|split; [|split; [|split; [|split; [|split;
    [|split; [|split; [|split]]]]]]]]].
  - intros fuel n c users Hc. rewrite collect_step by assumption.
    destruct (server n c) as [response|e]; [|reflexivity].
    unfold last_page. destruct (edges response); reflexivity.
  - intros fuel n c users Hm Hle. apply collect_capped. unfold capped.
    apply Z.eqb_neq in Hm. rewrite Hm. simpl. now apply Z.leb_le.
  - intros fuel l Hm E. unfold fetchUserListViaGraphQL in E. simpl in E.
    destruct (collect fuel 0 true None []) as [r|] eqn:Er; [|discriminate].
    injection E as <-. apply collect_bound in Er; [|assumption].
    simpl in Er. lia.
  - intros users Hm. now apply capped_no_cap.
  - intros fuel n c users r. apply collect_extends.
  - intros fuel r E. unfold fetchUserListViaGraphQL in E. simpl in E.
    destruct (collect fuel 0 true None []); [|discriminate].
    injection E as <-. eauto.
  - intros fuel Hm Hf. unfold fetchUserListViaGraphQL. simpl.
    destruct (collect_total_capped fuel 0 true None [] Hm) as [r ->].
    + simpl. now rewrite Z.sub_0_r.
    + simpl. eauto.
  - intros k fuel Hlast Hf. unfold fetchUserListViaGraphQL. simpl.
    destruct (collect_total_last_page k fuel 0 true None [] Hlast Hf) as [r ->].
    simpl. eauto.
  - exact Hret.
  - intros pages e fuel Hs Hf.
    rewrite (Hret pages (Thrown e) fuel Hs eq_refl Hf).
    cbn [users_of_stop]. now rewrite app_nil_r.
  - intros pages response fuel Hs He Hf.
    rewrite (Hret pages (Returned response) fuel Hs); [| |assumption].
    + cbn [users_of_stop]. rewrite He. cbn [users_read]. now rewrite app_nil_r.
    + unfold stops, last_page. now rewrite He.
Qed.

(** When the platform serves the list in pages, each request carrying the
    cursor of the page before, [fetchUserListViaGraphQL] returns the users
    of all the pages, in order and with their repetitions, cut at
    [maxCount] users unless [maxCount] is [-1]. *)
Theorem fetchUserListViaGraphQL_all_pages
  (pages : list Response) (fuel : nat) :
  serves 0 None pages ->
  (List.length pages <= fuel)%nat ->
  fetchUserListViaGraphQL fuel true =
  Some (Returned (up_to_maxCount (flat_map users_of_page pages))).
Proof.
  intros Hs Hf. unfold fetchUserListViaGraphQL. cbn [negb].
  rewrite (collect_serves pages fuel 0 None [] Hs Hf); [reflexivity|].
  intros _. simpl. lia.
Qed.

End Loop.

(** *** A run *)

Example partial_result_on_failure :
  ids (fetchUserListViaGraphQL three_requests (-1) 5 true) = ["1"; "2"; "3"; "4"].
Proof. reflexivity. Qed.

Example stops_at_maxCount :
  ids (fetchUserListViaGraphQL three_requests 3 5 true) = ["1"; "2"; "3"].
Proof. reflexivity. Qed.

Example zero_maxCount_fetches_nothing :
  fetchUserListViaGraphQL three_requests 0 0 true = Some (Returned []).
Proof. reflexivity. Qed.

Lemma C6_pagination_stops_witness :
  three_requests 2 (Some "c2") = Thrown (Error "fetch failed") /\
  ids (fetchUserListViaGraphQL three_requests (-1) 5 true) =
    ["1"; "2"; "3"; "4"] /\
  ids (fetchUserListViaGraphQL three_requests 3 5 true) = ["1"; "2"; "3"].
Proof.
  assert (Hs : serves_then three_requests 0 None [first_page; next_page]
                 (Thrown (Error "fetch failed"))).
  { cbn. repeat split; try discriminate; repeat constructor; discriminate. }
  assert (Hf : (List.length [first_page; next_page] < 5)%nat) by (simpl; lia).
  split; [reflexivity|]. split.
  - destruct (C6_pagination_stops three_requests (-1))
      as (_ & _ & _ & _ & _ & _ & _ & _ & _ & Hfail & _).
    now rewrite (Hfail [first_page; next_page] (Error "fetch failed") 5%nat Hs Hf).
  - destruct (C6_pagination_stops three_requests 3)
      as (_ & _ & _ & _ & _ & _ & _ & _ & _ & Hfail & _).
    now rewrite (Hfail [first_page; next_page] (Error "fetch failed") 5%nat Hs Hf).
Defined.

Lemma fetchUserListViaGraphQL_all_pages_witness :
  ids (fetchUserListViaGraphQL two_pages (-1) 5 true) = ["1"; "2"; "3"] /\
  ids (fetchUserListViaGraphQL two_pages 2 5 true) = ["1"; "2"].
Proof.
  assert (Hs : serves two_pages 0 None [first_page; second_page]).
  { cbn. repeat split; try discriminate; repeat constructor; discriminate. }
  assert (Hf : (List.length [first_page; second_page] <= 5)%nat) by (simpl; lia).
  split.
  - now rewrite (fetchUserListViaGraphQL_all_pages two_pages (-1)
                   [first_page; second_page] 5 Hs Hf).
  - now rewrite (fetchUserListViaGraphQL_all_pages two_pages 2
                   [first_page; second_page] 5 Hs Hf).
Defined.

End Pagination.

(* ===================================================================== *)
(** ** Scraping the two relation lists *)
(* ===================================================================== *)

Module Scraping.

Import Followers Pagination.
Local Open Scope list_scope.

(** What the browser answers to [scrapeFollowers] outside the two
    paginations. *)
Record ProfilePage : Type := {
  goto_error : option string;            (* goto or the first wait rejects *)
  user_id : Outcome (option string);     (* the id found in the scripts *)
  pause_error : option string;           (* the wait between the two lists *)
}.

(** [scrapeFollowers]; [page] tells whether [this.page] is set, and each
    list has its own query, hence its own answers. *)
Definition scrapeFollowers (fuel : nat) (page : bool) (pg : ProfilePage)
  (followers_server following_server : nat -> option string -> Outcome Response)
  (maxCount : Z)
  : option (Outcome (list ScrapedUser * list ScrapedUser)) :=
  if negb page
  then Some (Thrown (AppError ErrorCodes.INTERNAL_SERVER_ERROR
                       "Playwright page not initialized."))
  else
    match goto_error pg with
    | Some msg => Some (Thrown (Error msg))
    | None =>
        match user_id pg with
        | Thrown e => Some (Thrown e)
        | Returned userId =>
            if negb (truthy userId)
            then Some (Thrown (AppError ErrorCodes.IG_SCRAPE_FAILED
                                 "Failed to get user ID"))
            else
              match fetchUserListViaGraphQL followers_server maxCount fuel true with
              | None => None
              | Some (Thrown e) => Some (Thrown e)
              | Some (Returned followers) =>
                  match pause_error pg with
                  | Some msg => Some (Thrown (Error msg))
                  | None =>
                      match fetchUserListViaGraphQL following_server maxCount
                              fuel true with
                      | None => None
                      | Some (Thrown e) => Some (Thrown e)
                      | Some (Returned following) =>
                          Some (Returned (followers, following))
                      end
                  end
              end
        end
    end.

Definition found_profile : ProfilePage :=
  {| goto_error := None; user_id := Returned (Some "4242");
     pause_error := None |}.

Lemma fetch_first_request_fails
  (server : nat -> option string -> Outcome Response) (maxCount : Z)
  (fuel : nat) :
  (forall c, exists e, server 0%nat c = Thrown e) ->
  fetchUserListViaGraphQL server maxCount (S fuel) true = Some (Returned []).
Proof.
  intros Hfail. unfold fetchUserListViaGraphQL. cbn [negb].
  destruct (capped maxCount []) eqn:Hc.
  - now rewrite collect_capped.
  - rewrite collect_step by assumption.
    destruct (Hfail None) as [e ->]. reflexivity.
Qed.

(** Once the user id is found, a GraphQL endpoint that rejects the first
    request of each list does not make [scrapeFollowers] fail: it returns
    two empty lists, which its caller cannot tell from an account without
    followers. *)
Theorem scrapeFollowers_swallows_request_failures
  (fuel : nat) (pg : ProfilePage)
  (followers_server following_server : nat -> option string -> Outcome Response)
  (maxCount : Z) (userId : string) :
  goto_error pg = None ->
  user_id pg = Returned (Some userId) ->
  userId <> EmptyString ->
  pause_error pg = None ->
  (forall c, exists e, followers_server 0%nat c = Thrown e) ->
  (forall c, exists e, following_server 0%nat c = Thrown e) ->
  scrapeFollowers (S fuel) true pg followers_server following_server maxCount =
  Some (Returned ([], [])).
Proof.
  intros Hgoto Hid Hne Hpause Hf Hg. unfold scrapeFollowers.
  rewrite Hgoto, Hid, Hpause. cbn [negb truthy].
  apply String.eqb_neq in Hne. rewrite Hne. cbn [negb].
  rewrite !fetch_first_request_fails by assumption. reflexivity.
Qed.

Lemma scrapeFollowers_swallows_request_failures_witness :
  scrapeFollowers 1 true found_profile unreachable unreachable (-1) =
  Some (Returned ([], [])).
Proof.
  apply (scrapeFollowers_swallows_request_failures 0 found_profile
           unreachable unreachable (-1) "4242");
    try reflexivity; try discriminate;
    intros c; eexists; reflexivity.
Defined.

End Scraping.

(* ===================================================================== *)
(** ** The metrics derivation *)
(* ===================================================================== *)

Module Metrics.

Import Followers.
Local Open Scope list_scope.

(** *** Numbers *)

(** Counts are integers (the columns are [integer]); sums and differences
    of them are exact in JavaScript as long as they stay below 2^53.
    Divisions are made on binary64 numbers, as in JavaScript. *)
Definition num (z : Z) : PrimFloat.float :=
  if z <? 0 then PrimFloat.opp (PrimFloat.of_uint63 (Uint63.of_Z (- z)))
  else PrimFloat.of_uint63 (Uint63.of_Z z).

(** [z || d] on numbers. *)
Definition Z_or (z d : Z) : Z := if z =? 0 then d else z.

(** *** Captions *)

(** [\w] *)
Definition is_word (c : ascii) : bool :=
  let n := nat_of_ascii c in
  ((48 <=? n) && (n <=? 57) || (65 <=? n) && (n <=? 90) ||
   (97 <=? n) && (n <=? 122) || (n =? 95))%nat.

Definition emit (w : string) : list string :=
  match w with EmptyString => [] | _ => [w] end.

(** [(caption.match(/#\w+/g) || []).map(h => h.substring(1))]: [cur] is
    the token being read after a [#]. *)
Fixpoint scan_hashtags (s : string) (cur : option string) : list string :=
  match s with
  | EmptyString => match cur with Some w => emit w | None => [] end
  | String c s' =>
      match cur with
      | Some w =>
          if is_word c then scan_hashtags s' (Some (String.append w (String c "")))
          else emit w ++
               scan_hashtags s' (if Ascii.eqb c "#" then Some "" else None)
      | None => scan_hashtags s' (if Ascii.eqb c "#" then Some "" else None)
      end
  end.

Definition hashtags_of_caption (caption : string) : list string :=
  scan_hashtags caption None.

(** *** Rows *)

(** The columns of [profiles] and [media] that are read. Times are
    milliseconds since the epoch, dates are days since the epoch.
    [hashtags] is a [text[]] column without constraint: it can be null,
    and so can each of its elements. [timestamp] is the time value of
    [new Date(post.timestamp)]: [None] is the Invalid Date that a value
    such as [infinity] gives. *)
Record Profile : Type := {
  profile_followers_count : Z;       (* followers_count *)
  following_count : Z;
}.

Record Media : Type := {
  hashtags : option (list (option string));
  likes_count : Z;
  comments_count : Z;
  timestamp : option Z;
}.

Record Insight : Type := {
  insight_profile_id : string;       (* profile_id *)
  insight_user_id : string;          (* user_id *)
  date : Z;
  followers_count : Z;
  followers_growth : Z;
  engagement_rate : PrimFloat.float;
  reach : Z;
  impressions : Z;
}.

Record HashtagMetric : Type := {
  metric_profile_id : string;        (* profile_id *)
  metric_user_id : string;           (* user_id *)
  hashtag : string;
  usage_count : Z;
  total_engagement : Z;
  avg_engagement : PrimFloat.float;
  first_used : Z;
  last_used : Z;
}.

(** The tables [deriveMetrics] writes. *)
Record Store : Type := {
  profile_insights_daily : list Insight;
  hashtags_metrics : list HashtagMetric;
}.

(** The answers of the record store to the other requests. *)
Record Env : Type := {
  now : Z;
  profile : option Profile;                 (* [None]: no row *)
  profile_error : option string;            (* message of [profileError] *)
  media : option (list Media);              (* [None]: the query failed *)
  insights_error : bool;                    (* the query of the last insight failed *)
  upsert_error : option string;
  hashtag_delete_error : bool;
  hashtag_insert_error : nat -> bool;       (* by index of the batch *)
}.

(** *** Daily insight *)

Definition totalLikes (media : option (list Media)) : Z :=
  match media with
  | Some l => Z_or (fold_left (fun sum m => sum + Z_or (likes_count m) 0) l 0) 0
  | None => 0
  end.

Definition totalComments (media : option (list Media)) : Z :=
  match media with
  | Some l => Z_or (fold_left (fun sum m => sum + Z_or (comments_count m) 0) l 0) 0
  | None => 0
  end.

Definition totalEngagement (media : option (list Media)) : Z :=
  totalLikes media + totalComments media.

Definition postsCount (media : option (list Media)) : Z :=
  match media with
  | Some l => Z_or (Z.of_nat (List.length l)) 0
  | None => 0
  end.

Definition engagementRate (followersCount : Z) (media : option (list Media))
  : PrimFloat.float :=
  if (0 <? followersCount) && (0 <? postsCount media)
  then PrimFloat.mul
         (PrimFloat.div
            (PrimFloat.div (num (totalEngagement media)) (num (postsCount media)))
            (num followersCount))
         (num 100)
  else num 0.

(** [.eq('profile_id', p).order('date', {ascending: false}).limit(1)] *)
Fixpoint latest (best : option Insight) (rows : list Insight) : option Insight :=
  match rows with
  | [] => best
  | r :: rows' =>
      match best with
      | Some b => if date b <? date r then latest (Some r) rows'
                  else latest best rows'
      | None => latest (Some r) rows'
      end
  end.

Definition previousInsights (env : Env) (profileId : string) (s : Store)
  : option Insight :=
  if insights_error env then None
  else latest None
         (filter (fun r => String.eqb (insight_profile_id r) profileId)
            (profile_insights_daily s)).

(** [previousInsights?.[0]?.followers_count || followersCount] *)
Definition previousFollowersCount (previous : option Insight)
  (followersCount : Z) : Z :=
  match previous with
  | Some r => Z_or (followers_count r) followersCount
  | None => followersCount
  end.

Definition followersGrowth (previous : option Insight) (followersCount : Z) : Z :=
  followersCount - previousFollowersCount previous followersCount.

Definition MS_PER_DAY : Z := 86400000.

(** [new Date().toISOString().split('T')[0]] *)
Definition today (env : Env) : Z := now env / MS_PER_DAY.

(** The row sent to [upsert]. *)
Definition insightRow (env : Env) (profileId userId : string)
  (p : Profile) (s : Store) : Insight :=
  let followersCount := Z_or (profile_followers_count p) 0 in
  {| insight_profile_id := profileId;
     insight_user_id := userId;
     date := today env;
     followers_count := followersCount;
     followers_growth :=
       followersGrowth (previousInsights env profileId s) followersCount;
     engagement_rate := engagementRate followersCount (media env);
     reach := 0;
     impressions := 0 |}.

Definition same_day (a b : Insight) : bool :=
  String.eqb (insight_profile_id a) (insight_profile_id b) &&
  (date a =? date b).

(** [upsert(row, {onConflict: 'profile_id,date'})] *)
Definition upsert_insight (row : Insight) (t : list Insight) : list Insight :=
  if existsb (same_day row) t
  then map (fun r => if same_day row r then row else r) t
  else t ++ [row].

(** *** Hashtag metrics *)

(** The statistics of a tag; [firstUsed] and [lastUsed] are [Date]
    objects, [None] for an Invalid Date. *)
Record TagStats : Type := {
  count : Z;
  sumLikes : Z;                      (* totalLikes *)
  sumComments : Z;                   (* totalComments *)
  firstUsed : option Z;
  lastUsed : option Z;
}.

(** [a < b] on two [Date] objects: the comparison is made on the time
    values, and is false as soon as one of them is [NaN]. *)
Definition date_lt (a b : option Z) : bool :=
  match a, b with
  | Some x, Some y => x <? y
  | _, _ => false
  end.

(** [l.forEach(f)] with a callback that can throw, [a] being the state
    the callback updates: the first exception ends the loop. *)
Fixpoint forEach {A B} (f : A -> B -> Outcome A) (l : list B) (a : A)
  : Outcome A :=
  match l with
  | [] => Returned a
  | b :: l' =>
      match f a b with
      | Returned a' => forEach f l' a'
      | Thrown e => Thrown e
      end
  end.

(** [l.map(f)] with a callback that can throw. *)
Fixpoint map_outcome {A B} (f : A -> Outcome B) (l : list A)
  : Outcome (list B) :=
  match l with
  | [] => Returned []
  | a :: l' =>
      match f a with
      | Returned b =>
          match map_outcome f l' with
          | Returned bs => Returned (b :: bs)
          | Thrown e => Thrown e
          end
      | Thrown e => Thrown e
      end
  end.

Definition cleanTag (tag : string) : string :=
  if String.prefix "#" tag then tag else String.append "#" tag.

(** The update of the statistics for an occurrence of [tag] in [post]. *)
Definition count_tag (post : Media) (m : list (string * TagStats)) (tag : string)
  : list (string * TagStats) :=
  let likes := Z_or (likes_count post) 0 in
  let comments := Z_or (comments_count post) 0 in
  let postDate := timestamp post in
  match Map_get (cleanTag tag) m with
  | Some current =>
      Map_set (cleanTag tag)
        {| count := count current + 1;
           sumLikes := sumLikes current + likes;
           sumComments := sumComments current + comments;
           firstUsed := if date_lt postDate (firstUsed current) then postDate
                        else firstUsed current;
           lastUsed := if date_lt (lastUsed current) postDate then postDate
                       else lastUsed current |} m
  | None =>
      Map_set (cleanTag tag)
        {| count := 1; sumLikes := likes; sumComments := comments;
           firstUsed := postDate; lastUsed := postDate |} m
  end.

(** The TypeError of [tag.startsWith('#')] on a null element. *)
Definition null_tag_error : JsError :=
  Error "Cannot read properties of null (reading 'startsWith')".

(** The RangeError of [toISOString()] on an Invalid Date. *)
Definition invalid_time_error : JsError := Error "Invalid time value".

(** The callback of [hashtags.forEach]. *)
Definition add_tag (post : Media) (m : list (string * TagStats))
  (tag : option string) : Outcome (list (string * TagStats)) :=
  match tag with
  | Some t => Returned (count_tag post m t)
  | None => Thrown null_tag_error
  end.

(** [post.hashtags || []] *)
Definition tags_of (post : Media) : list (option string) :=
  match hashtags post with Some l => l | None => [] end.

(** The callback of [media.forEach]. *)
Definition add_post (m : list (string * TagStats)) (post : Media)
  : Outcome (list (string * TagStats)) :=
  forEach (add_tag post) (tags_of post) m.

Definition hashtagStats (l : list Media) : Outcome (list (string * TagStats)) :=
  forEach add_post l [].

(** The callback of [Array.from(hashtagStats.entries()).map]. *)
Definition metric_of (profileId userId : string) (entry : string * TagStats)
  : Outcome HashtagMetric :=
  let '(tag, stats) := entry in
  let totalEngagement := sumLikes stats + sumComments stats in
  match firstUsed stats, lastUsed stats with
  | Some first, Some last =>
      Returned
        {| metric_profile_id := profileId;
           metric_user_id := userId;
           hashtag := tag;
           usage_count := count stats;
           total_engagement := totalEngagement;
           avg_engagement := PrimFloat.div (num totalEngagement) (num (count stats));
           first_used := first;
           last_used := last |}
  | _, _ => Thrown invalid_time_error
  end.

Definition hashtagMetrics (profileId userId : string) (l : list Media)
  : Outcome (list HashtagMetric) :=
  match hashtagStats l with
  | Returned stats => map_outcome (metric_of profileId userId) stats
  | Thrown e => Thrown e
  end.

Definition BATCH_SIZE : nat := 500.

(** The batches are inserted one after the other; a rejected batch is
    logged and the next ones are still sent. *)
Fixpoint insert_batches (insert_error : nat -> bool) (i : nat)
  (batches : list (list HashtagMetric)) (t : list HashtagMetric)
  : list HashtagMetric :=
  match batches with
  | [] => t
  | b :: rest =>
      insert_batches insert_error (S i) rest
        (if insert_error i then t else t ++ b)
  end.

Definition replace_hashtags (env : Env) (profileId : string)
  (rows : list HashtagMetric) (t : list HashtagMetric) : list HashtagMetric :=
  let kept :=
    if hashtag_delete_error env then t
    else filter (fun r => negb (String.eqb (metric_profile_id r) profileId)) t in
  insert_batches (hashtag_insert_error env) 0
    (slices (List.length rows) BATCH_SIZE rows) kept.

(** The block [if (media && media.length > 0) { ... }]: its completion and
    the table [hashtags_metrics] it leaves. An exception of the two loops
    comes before the table is touched. *)
Definition write_hashtags (env : Env) (profileId userId : string)
  (t : list HashtagMetric) : Outcome unit * list HashtagMetric :=
  match media env with
  | Some (post :: posts) =>
      match hashtagMetrics profileId userId (post :: posts) with
      | Thrown e => (Thrown e, t)
      | Returned [] => (Returned tt, t)
      | Returned rows => (Returned tt, replace_hashtags env profileId rows t)
      end
  | _ => (Returned tt, t)
  end.

(** *** deriveMetrics *)

(** The [catch] block logs the error and throws it again. *)
Definition deriveMetrics (env : Env) (profileId userId : string) (s : Store)
  : Outcome unit * Store :=
  match profile_error env, profile env with
  | Some msg, _ =>
      (Thrown (Error (String.append "Profile not found: " msg)), s)
  | None, None => (Thrown (Error "Profile not found: undefined"), s)
  | None, Some p =>
      match upsert_error env with
      | Some msg =>
          (Thrown (Error (String.append "Failed to insert insights: " msg)), s)
      | None =>
          let w := write_hashtags env profileId userId (hashtags_metrics s) in
          (fst w,
           {| profile_insights_daily :=
                upsert_insight (insightRow env profileId userId p s)
                  (profile_insights_daily s);
              hashtags_metrics := snd w |})
      end
  end.

(* --------------------------------------------------------------------- *)
(** *** The daily insight *)

Definition sum_of (f : Media -> Z) (l : list Media) : Z :=
  fold_right (fun m acc => f m + acc) 0 l.

(** Yesterday's insight of a profile that had no follower. *)
Definition no_followers_yesterday : Insight :=
  {| insight_profile_id := "p"; insight_user_id := "u"; date := 19999;
     followers_count := 0; followers_growth := 0;
     engagement_rate := num 0; reach := 0; impressions := 0 |}.

Definition fifty_followers : Profile :=
  {| profile_followers_count := 50; following_count := 10 |}.

Definition growth_env : Env :=
  {| now := 20000 * MS_PER_DAY + 3600000;
     profile := Some fifty_followers; profile_error := None;
     media := Some []; insights_error := false; upsert_error := None;
     hashtag_delete_error := false; hashtag_insert_error := fun _ => false |}.

Definition growth_store : Store :=
  {| profile_insights_daily := [no_followers_yesterday];
     hashtags_metrics := [] |}.

(** Yesterday's insight of a profile that had twenty followers. *)
Definition twenty_followers_yesterday : Insight :=
  {| insight_profile_id := "p"; insight_user_id := "u"; date := 19999;
     followers_count := 20; followers_growth := 5;
     engagement_rate := num 0; reach := 0; impressions := 0 |}.

Definition twenty_store : Store :=
  {| profile_insights_daily := [twenty_followers_yesterday];
     hashtags_metrics := [] |}.

(** The unique key of [profile_insights_daily]. *)
Definition insight_key (r : Insight) : string * Z :=
  (insight_profile_id r, date r).

(** The store rejects every batch of hashtag rows. *)
Definition env_rejecting_hashtags (l : list Media) : Env :=
  {| now := 20000 * MS_PER_DAY;
     profile := Some fifty_followers; profile_error := None;
     media := Some l; insights_error := false; upsert_error := None;
     hashtag_delete_error := false; hashtag_insert_error := fun _ => true |}.

(** The profile row cannot be read. *)
Definition env_without_profile : Env :=
  {| now := 20000 * MS_PER_DAY;
     profile := None; profile_error := Some "JSON object requested, multiple (or no) rows returned";
     media := Some []; insights_error := false; upsert_error := None;
     hashtag_delete_error := false; hashtag_insert_error := fun _ => false |}.

(** [s] is made of [\w] characters only. *)
Fixpoint all_word (s : string) : bool :=
  match s with
  | EmptyString => true
  | String c s' => is_word c && all_word s'
  end.

(** Every hashtag of every item, in the form it is keyed under, with the
    item it comes from. An item that lists a tag twice occurs twice. *)
Definition strings (tags : list (option string)) : list string :=
  flat_map (fun tag => match tag with Some t => [t] | None => [] end) tags.

Definition occurrences (l : list Media) : list (string * Media) :=
  flat_map (fun post => map (fun tag => (cleanTag tag, post))
                          (strings (tags_of post))) l.

(** The items bearing [tag], once per occurrence. *)
Definition bearing (tag : string) (l : list Media) : list Media :=
  map snd (filter (fun o => String.eqb (fst o) tag) (occurrences l)).

(** The hashtags of the item are strings. *)
Definition string_tags (post : Media) : bool :=
  forallb (fun tag => match tag with Some _ => true | None => false end)
    (tags_of post).

(** The timestamp of the item is a date. *)
Definition dated (post : Media) : bool :=
  match timestamp post with Some _ => true | None => false end.

(** An item the two loops read without exception. *)
Definition well_formed (post : Media) : bool := string_tags post && dated post.

Definition time_of (post : Media) : Z :=
  match timestamp post with Some z => z | None => 0 end.

Definition engagement (post : Media) : Z := likes_count post + comments_count post.

Definition earliest (ps : list Media) : Z :=
  match ps with
  | [] => 0
  | post :: ps' => fold_left Z.min (map time_of ps') (time_of post)
  end.

Definition most_recent (ps : list Media) : Z :=
  match ps with
  | [] => 0
  | post :: ps' => fold_left Z.max (map time_of ps') (time_of post)
  end.

(** The row the specification describes for a tag borne by [ps]. *)
Definition expected_metric (profileId userId tag : string) (ps : list Media)
  : HashtagMetric :=
  {| metric_profile_id := profileId;
     metric_user_id := userId;
     hashtag := tag;
     usage_count := Z.of_nat (List.length ps);
     total_engagement := sum_of engagement ps;
     avg_engagement :=
       PrimFloat.div (num (sum_of engagement ps)) (num (Z.of_nat (List.length ps)));
     first_used := earliest ps;
     last_used := most_recent ps |}.

Definition find_metric (tag : string) (rows : list HashtagMetric)
  : option HashtagMetric :=
  find (fun r => String.eqb (hashtag r) tag) rows.

(** What one occurrence does to the statistics of its tag. *)
Definition merge_stats (current : TagStats) (post : Media) : TagStats :=
  {| count := count current + 1;
     sumLikes := sumLikes current + Z_or (likes_count post) 0;
     sumComments := sumComments current + Z_or (comments_count post) 0;
     firstUsed := if date_lt (timestamp post) (firstUsed current)
                  then timestamp post else firstUsed current;
     lastUsed := if date_lt (lastUsed current) (timestamp post)
                 then timestamp post else lastUsed current |}.

Definition first_stats (post : Media) : TagStats :=
  {| count := 1; sumLikes := Z_or (likes_count post) 0;
     sumComments := Z_or (comments_count post) 0;
     firstUsed := timestamp post; lastUsed := timestamp post |}.

Definition acc_step (cur : option TagStats) (post : Media) : option TagStats :=
  Some match cur with
       | Some current => merge_stats current post
       | None => first_stats post
       end.

Definition add_occurrence (m : list (string * TagStats)) (o : string * Media)
  : list (string * TagStats) :=
  count_tag (snd o) m (fst o).

(** The statistics have two dates. *)
Definition dated_stats (stats : TagStats) : bool :=
  match firstUsed stats, lastUsed stats with
  | Some _, Some _ => true
  | _, _ => false
  end.

(** The row of an entry whose dates are valid. *)
Definition metric_row (profileId userId : string) (entry : string * TagStats)
  : HashtagMetric :=
  {| metric_profile_id := profileId;
     metric_user_id := userId;
     hashtag := fst entry;
     usage_count := count (snd entry);
     total_engagement := sumLikes (snd entry) + sumComments (snd entry);
     avg_engagement :=
       PrimFloat.div (num (sumLikes (snd entry) + sumComments (snd entry)))
         (num (count (snd entry)));
     first_used := match firstUsed (snd entry) with Some z => z | None => 0 end;
     last_used := match lastUsed (snd entry) with Some z => z | None => 0 end |}.

Definition post_of_caption (caption : string) (likes comments ts : Z) : Media :=
  {| hashtags := Some (map Some (hashtags_of_caption caption));
     likes_count := likes; comments_count := comments; timestamp := Some ts |}.

(** The two items of the example of the specification. *)
Definition example_media : list Media :=
  [ post_of_caption "Great day #sun #fun" 10 2 1700000000000;
    post_of_caption "#sun again" 5 1 1700086400000 ].

Definition old_row (profileId tag : string) : HashtagMetric :=
  {| metric_profile_id := profileId; metric_user_id := "u"; hashtag := tag;
     usage_count := 3; total_engagement := 30; avg_engagement := num 10;
     first_used := 1600000000000; last_used := 1650000000000 |}.

Definition old_store : Store :=
  {| profile_insights_daily := [];
     hashtags_metrics := [old_row "p" "#old"; old_row "q" "#other"] |}.

Definition env_with_media (l : list Media) : Env :=
  {| now := 20000 * MS_PER_DAY;
     profile := Some fifty_followers; profile_error := None;
     media := Some l; insights_error := false; upsert_error := None;
     hashtag_delete_error := false; hashtag_insert_error := fun _ => false |}.

(** An item without hashtag, and an item that names the same tag twice. *)
Definition untagged_media : list Media :=
  [ post_of_caption "no tags today" 4 1 1700000000000 ].

Definition repeated_tag_media : list Media :=
  [ post_of_caption "#sun after #sun" 10 2 1700000000000 ].

(** An item whose array of hashtags holds a null element, and an item
    whose timestamp is not a date, each after a regular item. *)
Definition null_tag_media : list Media :=
  [ post_of_caption "#sun again" 5 1 1700086400000;
    {| hashtags := Some [Some "fun"; None]; likes_count := 10;
       comments_count := 2; timestamp := Some 1700000000000 |} ].

Definition undated_media : list Media :=
  [ post_of_caption "#sun again" 5 1 1700086400000;
    {| hashtags := Some [Some "fun"]; likes_count := 10;
       comments_count := 2; timestamp := None |} ].

(** The statistics gathered from the occurrences of the tags. *)
Definition stats_of (l : list Media) : list (string * TagStats) :=
  fold_left add_occurrence (occurrences l) [].

(** The items read are all well formed (none is read when the query
    failed). *)
Definition well_formed_media (media : option (list Media)) : bool :=
  match media with
  | Some l => forallb well_formed l
  | None => true
  end.

Lemma Z_or_0 (z : Z) : Z_or z 0 = z.
Proof. unfold Z_or. destruct (Z.eqb_spec z 0); congruence. Qed.

Lemma fold_left_sum (f : Media -> Z) (l : list Media) :
  forall a, fold_left (fun sum m => sum + f m) l a = a + sum_of f l.
Proof.
  induction l as [|m l IH]; intros a; simpl; [lia|].
  rewrite IH. lia.
Qed.

Lemma sum_of_add (f g : Media -> Z) (l : list Media) :
  sum_of f l + sum_of g l = sum_of (fun m => f m + g m) l.
Proof. induction l as [|m l IH]; simpl; lia. Qed.

Lemma sum_of_ext (f g : Media -> Z) (l : list Media) :
  (forall m, f m = g m) -> sum_of f l = sum_of g l.
Proof. intros H. induction l as [|m l IH]; simpl; [reflexivity|]. now rewrite H, IH. Qed.

Lemma totalEngagement_sum (l : list Media) :
  totalEngagement (Some l) =
  sum_of (fun m => likes_count m + comments_count m) l.
Proof.
  unfold totalEngagement, totalLikes, totalComments.
  rewrite !Z_or_0, !fold_left_sum, !Z.add_0_l, sum_of_add.
  apply sum_of_ext. intros m. now rewrite !Z_or_0.
Qed.

Lemma postsCount_length (l : list Media) :
  postsCount (Some l) = Z.of_nat (List.length l).
Proof. apply Z_or_0. Qed.

Lemma same_day_refl (r : Insight) : same_day r r = true.
Proof. unfold same_day. now rewrite String.eqb_refl, Z.eqb_refl. Qed.

Lemma upsert_insight_find (row : Insight) (t : list Insight) :
  find (same_day row) (upsert_insight row t) = Some row.
Proof.
  unfold upsert_insight. destruct (existsb (same_day row) t) eqn:E.
  - induction t as [|r t IH]; simpl in *; [discriminate|].
    destruct (same_day row r) eqn:Er.
    + now rewrite same_day_refl.
    + rewrite Er. apply IH. exact E.
  - induction t as [|r t IH]; simpl in *.
    + now rewrite same_day_refl.
    + apply orb_false_iff in E. destruct E as [-> E]. now apply IH.
Qed.

Lemma upsert_insight_In (row r : Insight) (t : list Insight) :
  In r (upsert_insight row t) -> r = row \/ In r t.
Proof.
  unfold upsert_insight. destruct (existsb (same_day row) t).
  - rewrite in_map_iff. intros (r0 & E & Hin).
    destruct (same_day row r0); subst; auto.
  - rewrite in_app_iff. simpl. intuition.
Qed.

(** Once the profile is found and the upsert accepted, the insight of the
    day is written, whatever the hashtag block does next. *)
Lemma deriveMetrics_upserts env profileId userId p s :
  profile_error env = None -> profile env = Some p ->
  upsert_error env = None ->
  deriveMetrics env profileId userId s =
  (fst (write_hashtags env profileId userId (hashtags_metrics s)),
   {| profile_insights_daily :=
        upsert_insight (insightRow env profileId userId p s)
          (profile_insights_daily s);
      hashtags_metrics :=
        snd (write_hashtags env profileId userId (hashtags_metrics s)) |}).
Proof. intros He Hp Hu. unfold deriveMetrics. now rewrite He, Hp, Hu. Qed.

(* --------------------------------------------------------------------- *)
(** *** Hashtag statistics *)

Lemma cleanTag_idem (tag : string) : cleanTag (cleanTag tag) = cleanTag tag.
Proof.
  unfold cleanTag. destruct (String.prefix "#" tag) eqn:E.
  - now rewrite E.
  - cbn. destruct tag; reflexivity.
Qed.

Lemma count_tag_clean (post : Media) m (tag : string) :
  count_tag post m (cleanTag tag) = count_tag post m tag.
Proof. unfold count_tag. now rewrite cleanTag_idem. Qed.

(** The loop over the hashtags of an item: it takes them all when they
    are strings, and throws at the first null one. *)
Lemma forEach_add_tag (post : Media) (tags : list (option string)) :
  forallb (fun tag => match tag with Some _ => true | None => false end) tags
  = true ->
  forall m,
    forEach (add_tag post) tags m =
    Returned (fold_left (count_tag post) (strings tags) m).
Proof.
  unfold strings.
  induction tags as [|[t|] tags IH]; intros H m; [reflexivity| |discriminate].
  cbn [forEach add_tag flat_map app fold_left]. apply IH. exact H.
Qed.

Lemma forEach_add_tag_null (post : Media) (tags : list (option string)) :
  forallb (fun tag => match tag with Some _ => true | None => false end) tags
  = false ->
  forall m, forEach (add_tag post) tags m = Thrown null_tag_error.
Proof.
  induction tags as [|[t|] tags IH]; intros H m;
    [discriminate| |reflexivity].
  cbn [forEach add_tag]. apply IH. exact H.
Qed.

Lemma forEach_add_post (l : list Media) :
  forallb string_tags l = true ->
  forall m,
    forEach add_post l m = Returned (fold_left add_occurrence (occurrences l) m).
Proof.
  induction l as [|post l IH]; intros H m; [reflexivity|].
  cbn [forallb] in H. apply andb_prop in H. destruct H as [Hp Hl].
  cbn [forEach]. unfold add_post at 1. rewrite forEach_add_tag by exact Hp.
  rewrite IH by exact Hl. f_equal.
  cbn [occurrences flat_map]. fold (occurrences l). rewrite fold_left_app.
  f_equal.
  generalize (strings (tags_of post)) m. clear.
  intros tags. induction tags as [|tag tags IH]; intros m; [reflexivity|].
  cbn [map fold_left]. rewrite <- IH. f_equal.
  unfold add_occurrence. cbn [fst snd]. now rewrite count_tag_clean.
Qed.

Lemma forEach_add_post_null (l : list Media) :
  forallb string_tags l = false ->
  forall m, forEach add_post l m = Thrown null_tag_error.
Proof.
  induction l as [|post l IH]; intros H m; [discriminate|].
  cbn [forallb] in H. cbn [forEach]. unfold add_post at 1.
  destruct (string_tags post) eqn:Hp.
  - rewrite forEach_add_tag by exact Hp. apply IH. exact H.
  - now rewrite forEach_add_tag_null.
Qed.

Lemma forEach_add_post_no_tag (l : list Media) :
  flat_map tags_of l = [] ->
  forall m, forEach add_post l m = Returned m.
Proof.
  induction l as [|post l IH]; intros H m; [reflexivity|].
  cbn [flat_map] in H. apply app_eq_nil in H. destruct H as [Hp Hl].
  cbn [forEach]. unfold add_post at 1. rewrite Hp. cbn [forEach].
  now apply IH.
Qed.

Lemma occurrences_clean (l : list Media) (o : string * Media) :
  In o (occurrences l) -> cleanTag (fst o) = fst o.
Proof.
  unfold occurrences. rewrite in_flat_map. intros (post & _ & Hin).
  apply in_map_iff in Hin. destruct Hin as (tag & <- & _).
  apply cleanTag_idem.
Qed.

Lemma occurrences_In (l : list Media) (o : string * Media) :
  In o (occurrences l) -> In (snd o) l.
Proof.
  unfold occurrences. rewrite in_flat_map. intros (post & Hpost & Hin).
  apply in_map_iff in Hin. destruct Hin as (tag & <- & _). exact Hpost.
Qed.

Lemma bearing_In (tag : string) (l : list Media) (post : Media) :
  In post (bearing tag l) -> In post l.
Proof.
  unfold bearing. rewrite in_map_iff. intros (o & <- & Hin).
  apply filter_In in Hin. apply occurrences_In. exact (proj1 Hin).
Qed.

Lemma Map_get_count_tag (post : Media) m (t tag : string) :
  cleanTag tag = tag ->
  Map_get t (count_tag post m tag) =
  if String.eqb tag t then acc_step (Map_get t m) post else Map_get t m.
Proof.
  intros Hc. unfold count_tag. rewrite Hc.
  destruct (String.eqb_spec tag t) as [->|Hne].
  - destruct (Map_get t m); now rewrite Map_get_set_same.
  - destruct (Map_get tag m); now rewrite Map_get_set_other.
Qed.

Lemma Map_get_fold_occurrences (occs : list (string * Media)) (t : string) :
  (forall o, In o occs -> cleanTag (fst o) = fst o) ->
  forall m,
    Map_get t (fold_left add_occurrence occs m) =
    fold_left acc_step
      (map snd (filter (fun o => String.eqb (fst o) t) occs)) (Map_get t m).
Proof.
  induction occs as [|o occs IH]; intros Hc m; [reflexivity|].
  cbn [fold_left filter]. rewrite IH by (intros o' Ho'; apply Hc; now right).
  unfold add_occurrence. rewrite Map_get_count_tag by (apply Hc; now left).
  destruct (String.eqb (fst o) t); reflexivity.
Qed.

Lemma acc_step_fold (ps : list Media) :
  forallb dated ps = true ->
  forall c first last,
    firstUsed c = Some first -> lastUsed c = Some last ->
    fold_left acc_step ps (Some c) =
    Some {| count := count c + Z.of_nat (List.length ps);
            sumLikes := sumLikes c + sum_of likes_count ps;
            sumComments := sumComments c + sum_of comments_count ps;
            firstUsed := Some (fold_left Z.min (map time_of ps) first);
            lastUsed := Some (fold_left Z.max (map time_of ps) last) |}.
Proof.
  induction ps as [|post ps IH]; intros Hd c first last Hf Hl.
  - cbn [fold_left List.length map sum_of fold_right Z.of_nat].
    rewrite !Z.add_0_r, <- Hf, <- Hl. now destruct c.
  - cbn [forallb] in Hd. apply andb_prop in Hd. destruct Hd as [Hp Hps].
    cbn [fold_left].
    change (acc_step (Some c) post) with (Some (merge_stats c post)).
    unfold dated in Hp. destruct (timestamp post) as [z|] eqn:Ez; [|discriminate].
    rewrite (IH Hps (merge_stats c post) (Z.min first z) (Z.max last z)).
    + unfold merge_stats.
      cbn [count sumLikes sumComments firstUsed lastUsed List.length map
           fold_left].
      rewrite !Z_or_0. unfold sum_of, time_of. cbn [fold_right]. rewrite Ez.
      f_equal. f_equal; lia.
    + unfold merge_stats. cbn [firstUsed]. rewrite Ez, Hf. cbn [date_lt].
      destruct (Z.ltb_spec z first); f_equal; lia.
    + unfold merge_stats. cbn [lastUsed]. rewrite Ez, Hl. cbn [date_lt].
      destruct (Z.ltb_spec last z); f_equal; lia.
Qed.

Lemma acc_step_fold_None (post : Media) (ps : list Media) :
  forallb dated (post :: ps) = true ->
  fold_left acc_step (post :: ps) None =
  Some {| count := Z.of_nat (List.length (post :: ps));
          sumLikes := sum_of likes_count (post :: ps);
          sumComments := sum_of comments_count (post :: ps);
          firstUsed := Some (earliest (post :: ps));
          lastUsed := Some (most_recent (post :: ps)) |}.
Proof.
  intros Hd. cbn [forallb] in Hd. apply andb_prop in Hd. destruct Hd as [Hp Hps].
  cbn [fold_left].
  change (acc_step None post) with (Some (first_stats post)).
  unfold dated in Hp. destruct (timestamp post) as [z|] eqn:Ez; [|discriminate].
  rewrite (acc_step_fold ps Hps (first_stats post) z z)
    by (unfold first_stats; cbn; exact Ez).
  unfold first_stats.
  cbn [count sumLikes sumComments firstUsed lastUsed earliest most_recent
       sum_of fold_right].
  assert (Ht : time_of post = z) by (unfold time_of; now rewrite Ez).
  rewrite !Z_or_0, Ht. f_equal. f_equal; try reflexivity.
  change (List.length (post :: ps)) with (S (List.length ps)). lia.
Qed.

(** The statistics kept for a tag are those of the items bearing it. *)
Lemma stats_of_get (l : list Media) (t : string) :
  forallb dated l = true ->
  Map_get t (stats_of l) =
  match bearing t l with
  | [] => None
  | ps =>
      Some {| count := Z.of_nat (List.length ps);
              sumLikes := sum_of likes_count ps;
              sumComments := sum_of comments_count ps;
              firstUsed := Some (earliest ps);
              lastUsed := Some (most_recent ps) |}
  end.
Proof.
  intros Hd. unfold stats_of.
  rewrite Map_get_fold_occurrences by apply occurrences_clean.
  fold (bearing t l).
  assert (Hb : forallb dated (bearing t l) = true).
  { apply forallb_forall. intros post Hin. apply bearing_In in Hin.
    rewrite forallb_forall in Hd. now apply Hd. }
  destruct (bearing t l) as [|post ps]; [reflexivity|].
  now apply acc_step_fold_None.
Qed.

Lemma stats_of_NoDup (l : list Media) : NoDup (map fst (stats_of l)).
Proof.
  unfold stats_of.
  assert (H : forall occs m, NoDup (map fst m) ->
                NoDup (map fst (fold_left add_occurrence occs m))).
  { induction occs as [|o occs IH]; intros m Hm; [assumption|].
    cbn [fold_left]. apply IH. unfold add_occurrence, count_tag.
    destruct (Map_get (cleanTag (fst o)) m); now apply Map_set_NoDup. }
  apply H. constructor.
Qed.

Lemma stats_of_dated (l : list Media) :
  forallb dated l = true ->
  Forall (fun entry => dated_stats (snd entry) = true) (stats_of l).
Proof.
  intros Hd. apply Forall_forall. intros [k st] Hin.
  apply (Map_get_In k st) in Hin; [|apply stats_of_NoDup].
  rewrite stats_of_get in Hin by assumption.
  destruct (bearing k l); [discriminate|]. injection Hin as <-. reflexivity.
Qed.

(** The rows are built without exception from statistics that carry
    dates; the only exception of the loop is the one of an Invalid
    Date. *)
Lemma map_outcome_rows (profileId userId : string) (m : list (string * TagStats)) :
  Forall (fun entry => dated_stats (snd entry) = true) m ->
  map_outcome (metric_of profileId userId) m =
  Returned (map (metric_row profileId userId) m).
Proof.
  induction 1 as [|[k st] m Hst Hall IH]; [reflexivity|].
  cbn [map_outcome map]. rewrite IH. unfold metric_of, metric_row.
  cbn [fst snd] in *. unfold dated_stats in Hst.
  destruct (firstUsed st); [|discriminate].
  destruct (lastUsed st); [reflexivity | discriminate].
Qed.

Lemma map_outcome_thrown (profileId userId : string) (m : list (string * TagStats))
  (e : JsError) :
  map_outcome (metric_of profileId userId) m = Thrown e ->
  e = invalid_time_error.
Proof.
  induction m as [|[k st] m IH]; cbn [map_outcome]; [discriminate|].
  unfold metric_of at 1.
  destruct (firstUsed st); [destruct (lastUsed st)|];
    try (intros H; injection H as <-; reflexivity).
  destruct (map_outcome (metric_of profileId userId) m); [discriminate|].
  intros H. injection H as <-. now apply IH.
Qed.

Lemma well_formed_split (l : list Media) :
  forallb well_formed l = true ->
  forallb string_tags l = true /\ forallb dated l = true.
Proof.
  induction l as [|post l IH]; [now split|].
  cbn [forallb]. intros H. apply andb_prop in H. destruct H as [Hp Hl].
  unfold well_formed in Hp. apply andb_prop in Hp. destruct Hp as [H1 H2].
  destruct (IH Hl) as [H3 H4]. now rewrite H1, H2, H3, H4.
Qed.

(** On well formed items [hashtagMetrics] returns one row per entry of
    the statistics. *)
Lemma hashtagMetrics_rows (profileId userId : string) (l : list Media) :
  forallb well_formed l = true ->
  hashtagMetrics profileId userId l =
  Returned (map (metric_row profileId userId) (stats_of l)).
Proof.
  intros H. apply well_formed_split in H. destruct H as [Hs Hd].
  unfold hashtagMetrics, hashtagStats. rewrite forEach_add_post by assumption.
  fold (stats_of l). apply map_outcome_rows. now apply stats_of_dated.
Qed.

Lemma hashtagMetrics_null_tag (profileId userId : string) (l : list Media) :
  forallb string_tags l = false ->
  hashtagMetrics profileId userId l = Thrown null_tag_error.
Proof.
  intros H. unfold hashtagMetrics, hashtagStats.
  now rewrite forEach_add_post_null.
Qed.

Lemma hashtagMetrics_no_tag (profileId userId : string) (l : list Media) :
  flat_map tags_of l = [] ->
  hashtagMetrics profileId userId l = Returned [].
Proof.
  intros H. unfold hashtagMetrics, hashtagStats.
  now rewrite forEach_add_post_no_tag.
Qed.

Lemma date_lt_invalid (a : option Z) : date_lt a None = false.
Proof. now destruct a. Qed.

(** Statistics that start with an Invalid Date keep it: no date is
    earlier than it. *)
Lemma acc_step_undated (ps : list Media) :
  forall c,
    firstUsed c = None ->
    exists c', fold_left acc_step ps (Some c) = Some c' /\ firstUsed c' = None.
Proof.
  induction ps as [|post ps IH]; intros c Hc; [exists c; now split|].
  cbn [fold_left]. apply IH. cbn. now rewrite Hc, date_lt_invalid.
Qed.

Lemma Map_get_entry {V} (k : string) (v : V) (m : list (string * V)) :
  Map_get k m = Some v -> In (k, v) m.
Proof.
  induction m as [|[k' v'] m IH]; cbn [Map_get]; [discriminate|].
  destruct (String.eqb_spec k' k) as [->|Hne].
  - intros H. injection H as ->. now left.
  - intros H. right. now apply IH.
Qed.

(** The statistics of a tag whose first bearer has no date. *)
Lemma stats_of_undated (l : list Media) (t : string) (post : Media)
  (ps : list Media) :
  bearing t l = post :: ps -> timestamp post = None ->
  exists st, In (t, st) (stats_of l) /\ firstUsed st = None.
Proof.
  intros Hb Ht.
  assert (H : exists st, Map_get t (stats_of l) = Some st /\ firstUsed st = None).
  { unfold stats_of.
    rewrite Map_get_fold_occurrences by apply occurrences_clean.
    fold (bearing t l). rewrite Hb. cbn [fold_left Map_get].
    change (acc_step None post) with (Some (first_stats post)).
    apply acc_step_undated. exact Ht. }
  destruct H as (st & Hget & Hst). exists st. split; [|exact Hst].
  now apply Map_get_entry.
Qed.

Lemma map_outcome_undated (profileId userId : string)
  (m : list (string * TagStats)) (k : string) (st : TagStats) :
  In (k, st) m -> firstUsed st = None ->
  map_outcome (metric_of profileId userId) m = Thrown invalid_time_error.
Proof.
  intros Hin Hst. induction m as [|[k' st'] m IH]; [contradiction|].
  cbn [map_outcome]. destruct Hin as [E|Hin].
  - injection E as -> ->. unfold metric_of. now rewrite Hst.
  - rewrite (IH Hin). unfold metric_of.
    destruct (firstUsed st'); [destruct (lastUsed st')|]; reflexivity.
Qed.

(** When the first item that bears some hashtag has no date, the row of
    this hashtag cannot be built. *)
Lemma hashtagMetrics_undated (profileId userId : string) (l : list Media)
  (t : string) (post : Media) (ps : list Media) :
  forallb string_tags l = true ->
  bearing t l = post :: ps -> timestamp post = None ->
  hashtagMetrics profileId userId l = Thrown invalid_time_error.
Proof.
  intros Hs Hb Ht. unfold hashtagMetrics, hashtagStats.
  rewrite forEach_add_post by assumption. fold (stats_of l).
  destruct (stats_of_undated l t post ps Hb Ht) as (st & Hin & Hst).
  exact (map_outcome_undated _ _ _ _ _ Hin Hst).
Qed.

(** The two exceptions of [hashtagMetrics], and the items that cause
    them. *)
Lemma hashtagMetrics_thrown (profileId userId : string) (l : list Media)
  (e : JsError) :
  hashtagMetrics profileId userId l = Thrown e ->
  forallb well_formed l = false /\
  (e = null_tag_error \/ e = invalid_time_error) /\
  (e = null_tag_error <-> forallb string_tags l = false).
Proof.
  intros H. split.
  { destruct (forallb well_formed l) eqn:Hw; [|reflexivity].
    rewrite hashtagMetrics_rows in H by assumption. discriminate. }
  unfold hashtagMetrics, hashtagStats in H.
  destruct (forallb string_tags l) eqn:Hs.
  - rewrite forEach_add_post in H by assumption.
    apply map_outcome_thrown in H. subst e.
    split; [now right|]. split; discriminate.
  - rewrite forEach_add_post_null in H by assumption.
    injection H as <-. split; [now left|]. now split.
Qed.

Lemma find_metric_map (profileId userId tag : string) (m : list (string * TagStats)) :
  find_metric tag (map (metric_row profileId userId) m) =
  option_map (fun st => metric_row profileId userId (tag, st)) (Map_get tag m).
Proof.
  unfold find_metric. induction m as [|[k st] m IH]; [reflexivity|].
  cbn [map find Map_get metric_row hashtag fst snd].
  destruct (String.eqb_spec k tag) as [->|Hne]; [reflexivity | exact IH].
Qed.

(** One row per tag in use, with the statistics of its occurrences. *)
Lemma rows_find (profileId userId tag : string) (l : list Media) :
  forallb dated l = true ->
  find_metric tag (map (metric_row profileId userId) (stats_of l)) =
  match bearing tag l with
  | [] => None
  | ps => Some (expected_metric profileId userId tag ps)
  end.
Proof.
  intros Hd. rewrite find_metric_map, stats_of_get by assumption.
  destruct (bearing tag l) as [|post ps]; [reflexivity|].
  cbn [option_map]. unfold metric_row.
  cbn [count sumLikes sumComments firstUsed lastUsed fst snd].
  unfold expected_metric, engagement. now rewrite sum_of_add.
Qed.

Lemma rows_NoDup (profileId userId : string) (l : list Media) :
  NoDup (map hashtag (map (metric_row profileId userId) (stats_of l))).
Proof.
  rewrite map_map.
  rewrite (map_ext _ fst); [apply stats_of_NoDup|].
  now intros [k st].
Qed.

Lemma rows_nonempty (profileId userId : string) (l : list Media) :
  forallb dated l = true ->
  occurrences l <> [] ->
  map (metric_row profileId userId) (stats_of l) <> [].
Proof.
  intros Hd Hocc Hnil. destruct (occurrences l) as [|[t post] occs] eqn:E;
    [congruence|].
  pose proof (rows_find profileId userId t l Hd) as Hf.
  rewrite Hnil in Hf. unfold bearing in Hf. rewrite E in Hf.
  cbn [filter fst] in Hf. rewrite String.eqb_refl in Hf. discriminate.
Qed.

Lemma occurrences_no_tag (l : list Media) :
  flat_map tags_of l = [] -> occurrences l = [].
Proof.
  induction l as [|post l IH]; [reflexivity|].
  cbn [flat_map]. intros H. apply app_eq_nil in H. destruct H as [Hp Hl].
  cbn [occurrences flat_map]. fold (occurrences l).
  rewrite Hp, (IH Hl). reflexivity.
Qed.

Lemma earliest_spec (ps : list Media) :
  ps <> [] ->
  In (earliest ps) (map time_of ps) /\
  forall post, In post ps -> earliest ps <= time_of post.
Proof.
  destruct ps as [|p0 ps]; [congruence|]. intros _. unfold earliest.
  assert (H : forall a,
    (a = fold_left Z.min (map time_of ps) a \/
     In (fold_left Z.min (map time_of ps) a) (map time_of ps)) /\
    fold_left Z.min (map time_of ps) a <= a /\
    forall post, In post ps ->
                 fold_left Z.min (map time_of ps) a <= time_of post).
  { induction ps as [|q ps IH]; intros a; cbn [map fold_left].
    - split; [now left|]. split; [lia | contradiction].
    - destruct (IH (Z.min a (time_of q))) as ([H1|H1] & H2 & H3).
      + split; [|split].
        * destruct (Z.min_spec a (time_of q)) as [[_ Hm]|[_ Hm]];
            [left | right; left]; rewrite <- H1; lia.
        * lia.
        * intros post [<-|Hp]; [lia | now apply H3].
      + split; [right; now right|]. split; [lia|].
        intros post [<-|Hp]; [lia | now apply H3]. }
  destruct (H (time_of p0)) as ([H1|H1] & H2 & H3).
  - split; [left; exact H1|]. intros post [<-|Hp]; [lia | now apply H3].
  - split; [right; exact H1|]. intros post [<-|Hp]; [lia | now apply H3].
Qed.

Lemma most_recent_spec (ps : list Media) :
  ps <> [] ->
  In (most_recent ps) (map time_of ps) /\
  forall post, In post ps -> time_of post <= most_recent ps.
Proof.
  destruct ps as [|p0 ps]; [congruence|]. intros _. unfold most_recent.
  assert (H : forall a,
    (a = fold_left Z.max (map time_of ps) a \/
     In (fold_left Z.max (map time_of ps) a) (map time_of ps)) /\
    a <= fold_left Z.max (map time_of ps) a /\
    forall post, In post ps ->
                 time_of post <= fold_left Z.max (map time_of ps) a).
  { induction ps as [|q ps IH]; intros a; cbn [map fold_left].
    - split; [now left|]. split; [lia | contradiction].
    - destruct (IH (Z.max a (time_of q))) as ([H1|H1] & H2 & H3).
      + split; [|split].
        * destruct (Z.max_spec a (time_of q)) as [[_ Hm]|[_ Hm]];
            [right; left | left]; rewrite <- H1; lia.
        * lia.
        * intros post [<-|Hp]; [lia | now apply H3].
      + split; [right; now right|]. split; [lia|].
        intros post [<-|Hp]; [lia | now apply H3]. }
  destruct (H (time_of p0)) as ([H1|H1] & H2 & H3).
  - split; [left; exact H1|]. intros post [<-|Hp]; [lia | now apply H3].
  - split; [right; exact H1|]. intros post [<-|Hp]; [lia | now apply H3].
Qed.

(** The tags in use are keyed with a [#] in front. *)
Lemma bearing_prefix (tag : string) (l : list Media) :
  bearing tag l <> [] -> String.prefix "#" tag = true.
Proof.
  intros Hb. unfold bearing in Hb.
  destruct (filter (fun o => String.eqb (fst o) tag) (occurrences l))
    as [|o occs] eqn:E; [now contradiction Hb|].
  assert (Hin : In o (filter (fun o => String.eqb (fst o) tag) (occurrences l)))
    by (rewrite E; now left).
  apply filter_In in Hin. destruct Hin as [Hin Ht].
  apply String.eqb_eq in Ht. apply occurrences_clean in Hin.
  rewrite Ht in Hin. unfold cleanTag in Hin.
  destruct (String.prefix "#" tag) eqn:Ep; [reflexivity|].
  rewrite <- Hin in Ep. cbn in Ep. destruct tag; discriminate.
Qed.

(* --------------------------------------------------------------------- *)
(** *** Writing the statistics *)

Lemma slices_concat {A} (size : nat) (fuel : nat) :
  (0 < size)%nat ->
  forall rows : list A,
    (List.length rows <= fuel)%nat -> List.concat (slices fuel size rows) = rows.
Proof.
  intros Hs. induction fuel as [|fuel IH]; intros rows Hl.
  - destruct rows; [reflexivity | simpl in Hl; lia].
  - destruct rows as [|r rows]; [reflexivity|].
    cbn [slices List.concat]. rewrite IH.
    + apply firstn_skipn.
    + rewrite length_skipn. cbn [List.length] in *. lia.
Qed.

Lemma insert_batches_accepted (insert_error : nat -> bool)
  (batches : list (list HashtagMetric)) :
  (forall i, insert_error i = false) ->
  forall i t, insert_batches insert_error i batches t = t ++ List.concat batches.
Proof.
  intros Hok. induction batches as [|b batches IH]; intros i t; simpl.
  - now rewrite app_nil_r.
  - now rewrite Hok, IH, app_assoc.
Qed.

Lemma insert_batches_rejected (insert_error : nat -> bool)
  (batches : list (list HashtagMetric)) :
  (forall i, insert_error i = true) ->
  forall i t, insert_batches insert_error i batches t = t.
Proof.
  intros Hall. induction batches as [|b rest IH]; intros i t; [reflexivity|].
  cbn [insert_batches]. now rewrite Hall, IH.
Qed.

Lemma insert_batches_In (insert_error : nat -> bool)
  (batches : list (list HashtagMetric)) (r : HashtagMetric) :
  forall i t, In r t -> In r (insert_batches insert_error i batches t).
Proof.
  induction batches as [|b rest IH]; intros i t Hin; [assumption|].
  cbn [insert_batches]. apply IH.
  destruct (insert_error i); [assumption|]. apply in_app_iff. now left.
Qed.

(** The rows of the other profiles are in the table after the writes. *)
Lemma replace_hashtags_keeps env profileId rows t (r : HashtagMetric) :
  In r t -> metric_profile_id r <> profileId ->
  In r (replace_hashtags env profileId rows t).
Proof.
  intros Hin Hne. unfold replace_hashtags. apply insert_batches_In.
  destruct (hashtag_delete_error env); [assumption|].
  apply filter_In. split; [assumption|].
  apply negb_true_iff. now apply String.eqb_neq.
Qed.

Lemma write_hashtags_rows env profileId userId l t :
  media env = Some l -> forallb well_formed l = true -> occurrences l <> [] ->
  write_hashtags env profileId userId t =
  (Returned tt,
   replace_hashtags env profileId
     (map (metric_row profileId userId) (stats_of l)) t).
Proof.
  intros Hm Hw Hocc. unfold write_hashtags. rewrite Hm.
  destruct l as [|post posts]; [now contradiction Hocc|].
  rewrite hashtagMetrics_rows by assumption.
  pose proof (rows_nonempty profileId userId _
                (proj2 (well_formed_split _ Hw)) Hocc) as Hne.
  destruct (map (metric_row profileId userId) (stats_of (post :: posts)));
    [congruence | reflexivity].
Qed.

Lemma replace_hashtags_accepted env profileId rows t :
  hashtag_delete_error env = false ->
  (forall i, hashtag_insert_error env i = false) ->
  replace_hashtags env profileId rows t =
  filter (fun r => negb (String.eqb (metric_profile_id r) profileId)) t ++ rows.
Proof.
  intros Hd Hi. unfold replace_hashtags.
  rewrite Hd, insert_batches_accepted by assumption.
  f_equal. apply slices_concat; [unfold BATCH_SIZE; lia | lia].
Qed.

(** Without item, or without hashtag, the table is left as it is. *)
Lemma write_hashtags_no_tag env profileId userId t :
  media env = None \/ (exists l, media env = Some l /\ flat_map tags_of l = []) ->
  write_hashtags env profileId userId t = (Returned tt, t).
Proof.
  unfold write_hashtags. intros [Hm | (l & Hm & Hl)]; rewrite Hm; [reflexivity|].
  destruct l as [|post posts]; [reflexivity|].
  now rewrite hashtagMetrics_no_tag.
Qed.

(** The block returns on well formed items. *)
Lemma write_hashtags_returns env profileId userId t :
  well_formed_media (media env) = true ->
  fst (write_hashtags env profileId userId t) = Returned tt.
Proof.
  unfold write_hashtags, well_formed_media.
  destruct (media env) as [[|post posts]|]; try reflexivity.
  intros Hw. rewrite hashtagMetrics_rows by assumption.
  now destruct (map (metric_row profileId userId) (stats_of (post :: posts))).
Qed.

(** When the block throws, the table is as it was, and an item is not
    well formed. *)
Lemma write_hashtags_thrown env profileId userId t (e : JsError) :
  fst (write_hashtags env profileId userId t) = Thrown e ->
  snd (write_hashtags env profileId userId t) = t /\
  exists l,
    media env = Some l /\ forallb well_formed l = false /\
    (e = null_tag_error \/ e = invalid_time_error) /\
    (e = null_tag_error <-> forallb string_tags l = false).
Proof.
  unfold write_hashtags.
  destruct (media env) as [[|post posts]|]; try discriminate.
  destruct (hashtagMetrics profileId userId (post :: posts)) as [[|r rows]|e']
    eqn:E; try discriminate.
  cbn [fst snd]. intros H. injection H as ->. split; [reflexivity|].
  exists (post :: posts). split; [reflexivity|].
  exact (hashtagMetrics_thrown _ _ _ _ E).
Qed.

(** **** C7 *)

(** C7. The total engagement is the sum of likes and comments over the
    stored content items; the engagement rate of the row that is upserted
    is [(total_engagement / content_count) / followers_count * 100] when
    both counts are positive, and 0 when either is 0; with 1000 followers,
    5 items and a total engagement of 500 it is 10. Once the profile is
    found and the upsert accepted, the row is the one found in the table
    after the run, and the run is successful when the items read are well
    formed. *)
Theorem C7_engagement_rate
  (env : Env) (profileId userId : string) (p : Profile) (s : Store) :
  (forall l, totalEngagement (Some l) =
             sum_of (fun m => likes_count m + comments_count m) l) /\
  (forall l, postsCount (Some l) = Z.of_nat (List.length l)) /\
  (totalEngagement None = 0 /\ postsCount None = 0) /\
  (0 < profile_followers_count p -> 0 < postsCount (media env) ->
   engagement_rate (insightRow env profileId userId p s) =
   PrimFloat.mul
     (PrimFloat.div
        (PrimFloat.div (num (totalEngagement (media env)))
           (num (postsCount (media env))))
        (num (profile_followers_count p)))
     (num 100)) /\
  (profile_followers_count p = 0 \/ postsCount (media env) = 0 ->
   engagement_rate (insightRow env profileId userId p s) = num 0) /\
  (forall l,
     media env = Some l -> List.length l = 5%nat ->
     totalEngagement (Some l) = 500 -> profile_followers_count p = 1000 ->
     engagement_rate (insightRow env profileId userId p s) = num 10) /\
  (profile_error env = None -> profile env = Some p ->
   upsert_error env = None ->
   (well_formed_media (media env) = true ->
    fst (deriveMetrics env profileId userId s) = Returned tt) /\
   find (same_day (insightRow env profileId userId p s))
     (profile_insights_daily (snd (deriveMetrics env profileId userId s)))
   = Some (insightRow env profileId userId p s)).
Proof.
  split; [exact totalEngagement_sum|].
  split; [exact postsCount_length|].
  split; [split; reflexivity|].
  cbn [insightRow engagement_rate]. unfold engagementRate.
  rewrite Z_or_0.
  split; [|split; [|split]].
  - intros Hf Hp. apply Z.ltb_lt in Hf, Hp. now rewrite Hf, Hp.
  - intros [H|H]; rewrite H; [reflexivity|].
    now rewrite andb_false_r.
  - intros l Hm Hl Ht Hf. rewrite Hm, Hf, Ht, postsCount_length, Hl.
    reflexivity.
  - intros He Hp Hu. rewrite (deriveMetrics_upserts _ _ _ _ _ He Hp Hu).
    cbn [fst snd profile_insights_daily].
    split; [apply write_hashtags_returns | apply upsert_insight_find].
Qed.

(** **** C9 *)

Lemma latest_spec (rows : list Insight) :
  forall best r,
    latest best rows = Some r ->
    (best = Some r \/ In r rows) /\
    (forall b, best = Some b -> date b <= date r) /\
    (forall r', In r' rows -> date r' <= date r).
Proof.
  induction rows as [|x rows IH]; intros best r E; simpl in E.
  - subst. split; [now left|]. split.
    + intros b Hb. injection Hb as <-. lia.
    + contradiction.
  - destruct best as [b|].
    + destruct (Z.ltb_spec (date b) (date x)) as [Hlt|Hge];
        destruct (IH _ _ E) as (Hin & Hb & Hall).
      * split; [right; destruct Hin as [Hin|Hin];
                 [injection Hin as <-; now left | now right]|].
        specialize (Hb x eq_refl). split.
        -- intros b' Hb'. injection Hb' as <-. lia.
        -- intros r' [<-|Hr']; [lia | now apply Hall].
      * split; [destruct Hin; [now left | right; now right]|].
        specialize (Hb b eq_refl). split.
        -- intros b' Hb'. injection Hb' as <-. lia.
        -- intros r' [<-|Hr']; [lia | now apply Hall].
    + destruct (IH _ _ E) as (Hin & Hb & Hall).
      split; [right; destruct Hin as [Hin|Hin];
               [injection Hin as <-; now left | now right]|].
      specialize (Hb x eq_refl). split; [discriminate|].
      intros r' [<-|Hr']; [lia | now apply Hall].
Qed.

(** The insight read back is the most recent one stored for the profile. *)
Lemma previousInsights_latest env profileId s r :
  previousInsights env profileId s = Some r ->
  In r (profile_insights_daily s) /\ insight_profile_id r = profileId /\
  forall r', In r' (profile_insights_daily s) ->
             insight_profile_id r' = profileId -> date r' <= date r.
Proof.
  unfold previousInsights. destruct (insights_error env); [discriminate|].
  intros E. apply latest_spec in E. destruct E as ([E|Hin] & _ & Hall);
    [discriminate|].
  apply filter_In in Hin. destruct Hin as [Hin Hp].
  apply String.eqb_eq in Hp. repeat split; try assumption.
  intros r' Hr' Hp'. apply Hall. apply filter_In. split; [assumption|].
  now apply String.eqb_eq.
Qed.

(** Against a previous insight with a count other than 0 the growth is the
    difference; without a previous insight it is 0. *)
Lemma followersGrowth_previous (r : Insight) (followersCount : Z) :
  followers_count r <> 0 ->
  followersGrowth (Some r) followersCount = followersCount - followers_count r.
Proof.
  intros H. unfold followersGrowth, previousFollowersCount, Z_or.
  apply Z.eqb_neq in H. now rewrite H.
Qed.

Lemma followersGrowth_first (followersCount : Z) :
  followersGrowth None followersCount = 0.
Proof. unfold followersGrowth, previousFollowersCount. lia. Qed.

(** C9 (failing input). The most recent insight exists and records 0
    followers; the profile now has 50. [0 || followersCount] takes the
    current count for the previous one, and the growth written is 0. *)
Theorem C9_growth_after_zero_followers :
  previousInsights growth_env "p" growth_store = Some no_followers_yesterday /\
  followers_count no_followers_yesterday = 0 /\
  followersGrowth (Some no_followers_yesterday) 50 = 0 /\
  map (fun r => (date r, followers_count r, followers_growth r))
    (profile_insights_daily
       (snd (deriveMetrics growth_env "p" "u" growth_store))) =
  [(19999, 0, 0); (20000, 50, 0)].
Proof. repeat split; reflexivity. Qed.

(** **** C10 *)

(** C10. Whatever the inputs, every insight row in the table after
    [deriveMetrics] was there before or has [reach = 0] and
    [impressions = 0]; the row built for the upsert has both at 0. *)
Theorem C10_reach_and_impressions_are_zero
  (env : Env) (profileId userId : string) (p : Profile) (s : Store) :
  (reach (insightRow env profileId userId p s) = 0 /\
   impressions (insightRow env profileId userId p s) = 0) /\
  Forall (fun r => In r (profile_insights_daily s) \/
                   (reach r = 0 /\ impressions r = 0))
    (profile_insights_daily (snd (deriveMetrics env profileId userId s))).
Proof.
  split; [split; reflexivity|].
  apply Forall_forall. intros r Hr. unfold deriveMetrics in Hr.
  destruct (profile_error env); [now left|].
  destruct (profile env) as [p'|]; [|now left].
  destruct (upsert_error env); [now left|].
  simpl in Hr. apply upsert_insight_In in Hr.
  destruct Hr as [->|Hr]; [right; split; reflexivity | now left].
Qed.

(** **** C8 *)

(** C8 (as amended). The profile being found and the insight of the day
    written: a run that reads no content item, or whose items list no
    hashtag, returns and leaves the hashtag rows as they are. A run over
    well formed items (hashtags that are strings, timestamps that are
    dates) of which one at least lists a hashtag returns after deleting
    the rows of the account and inserting the fresh rows; the failures of
    these writes are only logged, so that the account has exactly the
    fresh rows when the store accepts the delete and every batch, and the
    rows of the other accounts are kept whatever the store answers. A run
    that throws has written no hashtag row. The fresh rows are one row per
    tag in use, keyed with a leading [#]; for each tag, [usage_count] is
    the number of its occurrences in the hashtag lists, [total_engagement]
    the likes and comments summed over these occurrences,
    [avg_engagement] their quotient, and [first_used] and [last_used] the
    least and greatest timestamps. On the example, [#sun] gets 2, 18 and 9
    and [#fun] gets 1 and 12. *)
Theorem C8_hashtag_metrics
  (env : Env) (profileId userId : string) (p : Profile) (s : Store) :
  profile_error env = None -> profile env = Some p ->
  upsert_error env = None ->
  (* no item, or no hashtag *)
  (media env = None \/
   (exists l, media env = Some l /\ flat_map tags_of l = []) ->
   fst (deriveMetrics env profileId userId s) = Returned tt /\
   hashtags_metrics (snd (deriveMetrics env profileId userId s)) =
     hashtags_metrics s) /\
  (* a run that throws *)
  (forall e,
     fst (deriveMetrics env profileId userId s) = Thrown e ->
     hashtags_metrics (snd (deriveMetrics env profileId userId s)) =
       hashtags_metrics s) /\
  (* well formed items with a hashtag *)
  (forall l,
     media env = Some l -> forallb well_formed l = true ->
     occurrences l <> [] ->
     exists rows,
       hashtagMetrics profileId userId l = Returned rows /\ rows <> [] /\
       fst (deriveMetrics env profileId userId s) = Returned tt /\
       (hashtag_delete_error env = false ->
        (forall i, hashtag_insert_error env i = false) ->
        hashtags_metrics (snd (deriveMetrics env profileId userId s)) =
          filter (fun r => negb (String.eqb (metric_profile_id r) profileId))
            (hashtags_metrics s) ++
          rows) /\
       (forall r, In r (hashtags_metrics s) ->
          metric_profile_id r <> profileId ->
          In r (hashtags_metrics (snd (deriveMetrics env profileId userId s)))) /\
       NoDup (map hashtag rows) /\
       (forall tag,
          find_metric tag rows =
          match bearing tag l with
          | [] => None
          | ps => Some (expected_metric profileId userId tag ps)
          end) /\
       (forall tag, bearing tag l <> [] ->
          String.prefix "#" tag = true /\
          (In (earliest (bearing tag l)) (map time_of (bearing tag l)) /\
           forall post, In post (bearing tag l) ->
                        earliest (bearing tag l) <= time_of post) /\
          (In (most_recent (bearing tag l)) (map time_of (bearing tag l)) /\
           forall post, In post (bearing tag l) ->
                        time_of post <= most_recent (bearing tag l)))) /\
  (* the example *)
  (forallb well_formed example_media = true /\
   exists rows,
     hashtagMetrics profileId userId example_media = Returned rows /\
     map (fun r => (hashtag r, usage_count r, total_engagement r,
                    avg_engagement r)) rows =
     [ ("#sun", 2, 18, num 9); ("#fun", 1, 12, num 12) ]).
Proof.
  intros He Hp Hu.
  rewrite (deriveMetrics_upserts _ _ _ _ _ He Hp Hu).
  cbn [fst snd hashtags_metrics].
  split; [|split; [|split]].
  - intros Hm. now rewrite write_hashtags_no_tag.
  - intros e Hthrown. now apply write_hashtags_thrown in Hthrown.
  - intros l Hm Hw Hocc.
    pose proof (proj2 (well_formed_split _ Hw)) as Hd.
    exists (map (metric_row profileId userId) (stats_of l)).
    rewrite (write_hashtags_rows env profileId userId l _ Hm Hw Hocc).
    cbn [fst snd].
    split; [now apply hashtagMetrics_rows|].
    split; [now apply rows_nonempty|].
    split; [reflexivity|].
    split; [intros Hdel Hins; now apply replace_hashtags_accepted|].
    split; [intros r Hin Hne; now apply replace_hashtags_keeps|].
    split; [apply rows_NoDup|].
    split; [intros tag; now apply rows_find|].
    intros tag Hb.
    split; [now apply bearing_prefix with (l := l)|].
    split; [now apply earliest_spec | now apply most_recent_spec].
  - split; [reflexivity|]. eexists. split; reflexivity.
Qed.

(** *** Concrete runs *)

Lemma C8_hashtag_metrics_witness :
  (forallb well_formed example_media = true /\
   occurrences example_media <> []) /\
  map (fun r => (metric_profile_id r, hashtag r, usage_count r))
    (hashtags_metrics
       (snd (deriveMetrics (env_with_media example_media) "p" "u" old_store)))
  = [("q", "#other", 3); ("p", "#sun", 2); ("p", "#fun", 1)].
Proof.
  assert (Hocc : occurrences example_media <> []) by (vm_compute; discriminate).
  split; [split; [reflexivity | exact Hocc]|].
  destruct (C8_hashtag_metrics (env_with_media example_media) "p" "u"
              fifty_followers old_store eq_refl eq_refl eq_refl)
    as (_ & _ & Hrun & _).
  destruct (Hrun example_media eq_refl eq_refl Hocc)
    as (rows & Hrows & _ & _ & Heq & _).
  rewrite (Heq eq_refl (fun _ => eq_refl)).
  injection Hrows as <-. reflexivity.
Defined.

(** C8 (counterexample). A run that finds no hashtag deletes nothing: the
    rows of the account stay. One item naming [#sun] twice gives
    [usage_count = 2] and a total engagement of 24 for its 12 likes and
    comments. In the example no row is keyed [sun]: the key is [#sun]. *)
Lemma C8_counterexample :
  (fst (deriveMetrics (env_with_media untagged_media) "p" "u" old_store)
   = Returned tt /\
   hashtags_metrics
     (snd (deriveMetrics (env_with_media untagged_media) "p" "u" old_store))
   = [old_row "p" "#old"; old_row "q" "#other"]) /\
  (List.length repeated_tag_media = 1%nat /\
   exists rows,
     hashtagMetrics "p" "u" repeated_tag_media = Returned rows /\
     map (fun r => (hashtag r, usage_count r, total_engagement r)) rows =
     [("#sun", 2, 24)]) /\
  (exists rows,
     hashtagMetrics "p" "u" example_media = Returned rows /\
     find_metric "sun" rows = None /\
     option_map usage_count (find_metric "#sun" rows) = Some 2).
Proof.
  split; [split; reflexivity|]. split.
  - split; [reflexivity|]. eexists. split; reflexivity.
  - eexists. repeat split; reflexivity.
Qed.

(* --------------------------------------------------------------------- *)
(** *** Growth *)

(** The growth stored is the difference between the count of the profile
    and the count of its most recent insight, the row of greatest date
    among those of the profile, whenever that count is not 0. *)
Theorem followers_growth_since_latest_insight
  (env : Env) (profileId userId : string) (p : Profile) (s : Store)
  (r : Insight) :
  previousInsights env profileId s = Some r ->
  followers_count r <> 0 ->
  followers_growth (insightRow env profileId userId p s) =
    profile_followers_count p - followers_count r /\
  In r (profile_insights_daily s) /\
  insight_profile_id r = profileId /\
  (forall r', In r' (profile_insights_daily s) ->
     insight_profile_id r' = profileId -> date r' <= date r).
Proof.
  intros Hprev Hne. split.
  - cbn [insightRow followers_growth]. rewrite Hprev.
    rewrite followersGrowth_previous by assumption. now rewrite Z_or_0.
  - exact (previousInsights_latest env profileId s r Hprev).
Qed.

Lemma followers_growth_since_latest_insight_witness :
  previousInsights growth_env "p" twenty_store = Some twenty_followers_yesterday /\
  followers_growth (insightRow growth_env "p" "u" fifty_followers twenty_store)
    = 30.
Proof.
  split; [reflexivity|].
  refine (proj1 (followers_growth_since_latest_insight growth_env "p" "u"
                   fifty_followers twenty_store twenty_followers_yesterday
                   eq_refl _)).
  vm_compute. discriminate.
Defined.

Lemma Z_or_same (z : Z) : Z_or z z = z.
Proof. unfold Z_or. destruct (z =? 0); reflexivity. Qed.

Lemma latest_all_equal (row : Insight) (rows : list Insight) :
  forall best,
    (forall r, In r rows -> date r <= date row /\ (date r = date row -> r = row)) ->
    (match best with
     | Some b => date b <= date row /\ (date b = date row -> b = row)
     | None => True
     end) ->
    (best = Some row \/ In row rows) ->
    latest best rows = Some row.
Proof.
  induction rows as [|r rows IH]; intros best Hall Hbest Hin.
  - destruct Hin as [-> | []]. reflexivity.
  - cbn [latest].
    assert (Hr : date r <= date row /\ (date r = date row -> r = row))
      by (apply Hall; now left).
    assert (Hrest : forall x, In x rows ->
              date x <= date row /\ (date x = date row -> x = row))
      by (intros x Hx; apply Hall; now right).
    destruct best as [b|].
    + destruct (Z.ltb_spec (date b) (date r)) as [Hlt|Hge].
      * apply IH; [assumption | exact Hr |].
        destruct Hin as [Hb | [-> | Hin]]; [|now left | now right].
        injection Hb as ->. lia.
      * apply IH; [assumption | exact Hbest |].
        destruct Hin as [Hb | [-> | Hin]]; [now left | | now right].
        left. f_equal. apply Hbest. lia.
    + apply IH; [assumption | exact Hr |].
      destruct Hin as [Hb | [-> | Hin]]; [discriminate | now left | now right].
Qed.

Lemma upsert_insight_In_other (row r : Insight) (t : list Insight) :
  In r (upsert_insight row t) -> r = row \/ (In r t /\ same_day row r = false).
Proof.
  unfold upsert_insight. destruct (existsb (same_day row) t) eqn:Ex.
  - rewrite in_map_iff. intros (x & Hx & Hin).
    destruct (same_day row x) eqn:Es; [left; congruence|].
    right. subst. now split.
  - rewrite in_app_iff. cbn [In]. intros [Hin | [<- | []]]; [right | now left].
    split; [assumption|].
    destruct (same_day row r) eqn:Es; [|reflexivity].
    assert (existsb (same_day row) t = true) by (apply existsb_exists; eauto).
    congruence.
Qed.

Lemma upsert_insight_has (row : Insight) (t : list Insight) :
  In row (upsert_insight row t).
Proof.
  pose proof (upsert_insight_find row t) as H. apply find_some in H.
  exact (proj1 H).
Qed.

(** A second run on the same day overwrites the growth of the day with 0:
    the most recent insight it compares the count with is the row the
    first run has just written. *)
Theorem second_run_of_the_day_resets_growth
  (env env' : Env) (profileId userId : string) (p p' : Profile) (s : Store) :
  profile_error env = None -> profile env = Some p ->
  upsert_error env = None ->
  insights_error env' = false ->
  today env' = today env ->
  profile_followers_count p' = profile_followers_count p ->
  (forall r, In r (profile_insights_daily s) ->
     insight_profile_id r = profileId -> date r <= today env) ->
  previousInsights env' profileId (snd (deriveMetrics env profileId userId s)) =
    Some (insightRow env profileId userId p s) /\
  followers_growth
    (insightRow env' profileId userId p'
       (snd (deriveMetrics env profileId userId s))) = 0.
Proof.
  intros Hpe Hp Hu Hie Hday Hcount Hpast.
  rewrite (deriveMetrics_upserts env profileId userId p s Hpe Hp Hu).
  cbn [snd].
  set (row := insightRow env profileId userId p s).
  assert (Hprev :
    previousInsights env' profileId
      {| profile_insights_daily := upsert_insight row (profile_insights_daily s);
         hashtags_metrics :=
           snd (write_hashtags env profileId userId (hashtags_metrics s)) |} =
    Some row).
  { unfold previousInsights. rewrite Hie. cbn [profile_insights_daily].
    apply latest_all_equal; [ | exact I | ].
    - intros r Hr. apply filter_In in Hr. destruct Hr as [Hr Hprof].
      apply String.eqb_eq in Hprof.
      apply upsert_insight_In_other in Hr.
      destruct Hr as [-> | [Hr Hs]]; [split; [lia | reflexivity]|].
      assert (Hle : date r <= today env) by now apply Hpast.
      unfold same_day in Hs. cbn [row insightRow insight_profile_id date] in Hs.
      rewrite Hprof, String.eqb_refl in Hs. cbn [andb] in Hs.
      apply Z.eqb_neq in Hs. cbn [row insightRow date].
      split; [assumption | intros E; congruence].
    - right. apply filter_In. split; [apply upsert_insight_has|].
      cbn [row insightRow insight_profile_id]. apply String.eqb_refl. }
  split; [exact Hprev|].
  cbn [insightRow followers_growth]. rewrite Hprev.
  unfold followersGrowth, previousFollowersCount.
  cbn [row insightRow followers_count]. rewrite Hcount, !Z_or_0, Z_or_same.
  lia.
Qed.

Lemma second_run_of_the_day_resets_growth_witness :
  map (fun r => (date r, followers_growth r))
    (profile_insights_daily (snd (deriveMetrics growth_env "p" "u" twenty_store)))
    = [(19999, 5); (20000, 30)] /\
  followers_growth
    (insightRow growth_env "p" "u" fifty_followers
       (snd (deriveMetrics growth_env "p" "u" twenty_store))) = 0.
Proof.
  split; [reflexivity|].
  refine (proj2 (second_run_of_the_day_resets_growth growth_env growth_env
                   "p" "u" fifty_followers fifty_followers twenty_store
                   eq_refl eq_refl eq_refl eq_refl eq_refl eq_refl _)).
  intros r [<- | []] _. vm_compute. discriminate.
Defined.

(* --------------------------------------------------------------------- *)
(** *** The insight table *)

Lemma same_day_key (a b : Insight) :
  same_day a b = true <-> insight_key a = insight_key b.
Proof.
  unfold same_day, insight_key. split.
  - intros H. apply andb_prop in H. destruct H as [H1 H2].
    apply String.eqb_eq in H1. apply Z.eqb_eq in H2. congruence.
  - intros H. injection H as -> ->. now rewrite String.eqb_refl, Z.eqb_refl.
Qed.

Lemma upsert_insight_keys (row : Insight) (t : list Insight) :
  NoDup (map insight_key t) -> NoDup (map insight_key (upsert_insight row t)).
Proof.
  intros Hnd. unfold upsert_insight.
  destruct (existsb (same_day row) t) eqn:Ex.
  - rewrite map_map.
    replace (map (fun x => insight_key (if same_day row x then row else x)) t)
      with (map insight_key t); [assumption|].
    apply map_ext. intros r. destruct (same_day row r) eqn:Es; [|reflexivity].
    apply same_day_key in Es. congruence.
  - rewrite map_app. cbn [map].
    apply NoDup_app_remove_l with (l := []). cbn [app].
    apply NoDup_Add with (a := insight_key row) (l := map insight_key t).
    + rewrite <- (app_nil_r (map insight_key t)) at 1. apply Add_app.
    + split; [assumption|]. intros Hin. apply in_map_iff in Hin.
      destruct Hin as (x & Hk & Hx).
      assert (existsb (same_day row) t = true).
      { apply existsb_exists. exists x. split; [assumption|].
        apply same_day_key. congruence. }
      congruence.
Qed.

Lemma upsert_insight_keeps (row r : Insight) (t : list Insight) :
  In r t -> same_day row r = false -> In r (upsert_insight row t).
Proof.
  intros Hin Hs. unfold upsert_insight.
  destruct (existsb (same_day row) t).
  - apply in_map_iff. exists r. now rewrite Hs.
  - apply in_app_iff. now left.
Qed.

(** [deriveMetrics] keeps one insight per profile and day: it leaves the
    table with distinct keys when it found it so, and the rows of the
    other profiles and of the other days are all still there. *)
Theorem deriveMetrics_one_insight_per_day
  (env : Env) (profileId userId : string) (s : Store) :
  NoDup (map insight_key (profile_insights_daily s)) ->
  NoDup (map insight_key
           (profile_insights_daily (snd (deriveMetrics env profileId userId s)))) /\
  (forall r, In r (profile_insights_daily s) ->
     insight_key r <> (profileId, today env) ->
     In r (profile_insights_daily (snd (deriveMetrics env profileId userId s)))).
Proof.
  intros Hnd. unfold deriveMetrics.
  destruct (profile_error env); [now split|].
  destruct (profile env) as [p|]; [|now split].
  destruct (upsert_error env); [now split|]. cbn [snd profile_insights_daily].
  split; [now apply upsert_insight_keys|].
  intros r Hin Hkey. apply upsert_insight_keeps; [assumption|].
  destruct (same_day (insightRow env profileId userId p s) r) eqn:Es;
    [|reflexivity].
  apply same_day_key in Es. unfold insight_key in *. cbn in Es. congruence.
Qed.

Lemma deriveMetrics_one_insight_per_day_witness :
  map insight_key
    (profile_insights_daily (snd (deriveMetrics growth_env "p" "u" twenty_store)))
  = [("p", 19999); ("p", 20000)] /\
  NoDup (map insight_key
           (profile_insights_daily
              (snd (deriveMetrics growth_env "p" "u"
                      (snd (deriveMetrics growth_env "p" "u" twenty_store)))))).
Proof.
  split; [reflexivity|].
  refine (proj1 (deriveMetrics_one_insight_per_day growth_env "p" "u"
                   (snd (deriveMetrics growth_env "p" "u" twenty_store)) _)).
  vm_compute. repeat constructor; simpl; intuition discriminate.
Defined.

(* --------------------------------------------------------------------- *)
(** *** Failures *)

Lemma prefix_append (a b : string) : String.prefix a (String.append a b) = true.
Proof.
  induction a as [|c a IH]; cbn.
  - destruct b; reflexivity.
  - destruct (ascii_dec c c); [assumption | congruence].
Qed.

(** When [deriveMetrics] throws, the hashtag rows are as they were. The
    error is either the one of the profile lookup or of the insight write,
    and then nothing at all has been written; or it is the TypeError of a
    null hashtag or the RangeError of a timestamp that is not a date,
    thrown by the hashtag computation and thrown again by the [catch]
    block, and then the insight of the day is written. A null hashtag
    among the items read always ends the run with the TypeError, once the
    insight is written; so does, with the RangeError, a hashtag whose
    first bearer has no date, all hashtags being strings. *)
Theorem deriveMetrics_failure_effects
  (env : Env) (profileId userId : string) (s : Store) :
  (forall e,
     fst (deriveMetrics env profileId userId s) = Thrown e ->
     hashtags_metrics (snd (deriveMetrics env profileId userId s)) =
       hashtags_metrics s /\
     ((snd (deriveMetrics env profileId userId s) = s /\
       exists msg,
         e = Error msg /\
         (String.prefix "Profile not found: " msg = true \/
          String.prefix "Failed to insert insights: " msg = true)) \/
      (exists p l,
         profile env = Some p /\ media env = Some l /\
         forallb well_formed l = false /\
         (e = null_tag_error \/ e = invalid_time_error) /\
         (e = null_tag_error <-> forallb string_tags l = false) /\
         profile_insights_daily (snd (deriveMetrics env profileId userId s)) =
           upsert_insight (insightRow env profileId userId p s)
             (profile_insights_daily s)))) /\
  (forall p l,
     profile_error env = None -> profile env = Some p ->
     upsert_error env = None ->
     media env = Some l -> forallb string_tags l = false ->
     deriveMetrics env profileId userId s =
     (Thrown null_tag_error,
      {| profile_insights_daily :=
           upsert_insight (insightRow env profileId userId p s)
             (profile_insights_daily s);
         hashtags_metrics := hashtags_metrics s |})) /\
  (forall p l t post ps,
     profile_error env = None -> profile env = Some p ->
     upsert_error env = None ->
     media env = Some l -> forallb string_tags l = true ->
     bearing t l = post :: ps -> timestamp post = None ->
     deriveMetrics env profileId userId s =
     (Thrown invalid_time_error,
      {| profile_insights_daily :=
           upsert_insight (insightRow env profileId userId p s)
             (profile_insights_daily s);
         hashtags_metrics := hashtags_metrics s |})).
Proof.
  split; [|split].
  - intros e. unfold deriveMetrics.
    destruct (profile_error env) as [m|].
    { cbn [fst snd]. intros H. injection H as <-. split; [reflexivity|].
      left. split; [reflexivity|]. eexists. split; [reflexivity|]. left.
      exact (prefix_append "Profile not found: " m). }
    destruct (profile env) as [p|].
    2:{ cbn [fst snd]. intros H. injection H as <-. split; [reflexivity|].
        left. split; [reflexivity|]. eexists. split; [reflexivity|].
        left. reflexivity. }
    destruct (upsert_error env) as [m|].
    { cbn [fst snd]. intros H. injection H as <-. split; [reflexivity|].
      left. split; [reflexivity|]. eexists. split; [reflexivity|]. right.
      exact (prefix_append "Failed to insert insights: " m). }
    cbn [fst snd hashtags_metrics profile_insights_daily]. intros H.
    apply write_hashtags_thrown in H.
    destruct H as (Ht & l & Hm & Hw & He & Hiff).
    split; [exact Ht|]. right. exists p, l. repeat split; try assumption.
    + apply Hiff.
    + apply Hiff.
  - intros p l Hpe Hp Hu Hm Hnull.
    rewrite (deriveMetrics_upserts _ _ _ _ _ Hpe Hp Hu).
    unfold write_hashtags. rewrite Hm.
    destruct l as [|post posts]; [discriminate|].
    now rewrite hashtagMetrics_null_tag.
  - intros p l t post ps Hpe Hp Hu Hm Hs Hb Ht.
    rewrite (deriveMetrics_upserts _ _ _ _ _ Hpe Hp Hu).
    unfold write_hashtags. rewrite Hm.
    destruct l as [|post0 posts]; [discriminate|].
    now rewrite (hashtagMetrics_undated _ _ _ t post ps).
Qed.

Lemma deriveMetrics_failure_effects_witness :
  forallb string_tags null_tag_media = false /\
  (fst (deriveMetrics (env_with_media null_tag_media) "p" "u" old_store) =
     Thrown (Error "Cannot read properties of null (reading 'startsWith')") /\
   map (fun r => (insight_profile_id r, date r, followers_count r))
     (profile_insights_daily
        (snd (deriveMetrics (env_with_media null_tag_media) "p" "u" old_store)))
   = [("p", 20000, 50)] /\
   hashtags_metrics
     (snd (deriveMetrics (env_with_media null_tag_media) "p" "u" old_store))
   = [old_row "p" "#old"; old_row "q" "#other"]) /\
  forallb string_tags undated_media = true /\
  option_map timestamp (hd_error (bearing "#fun" undated_media)) = Some None /\
  fst (deriveMetrics (env_with_media undated_media) "p" "u" old_store) =
    Thrown (Error "Invalid time value").
Proof.
  split; [reflexivity|]. split; [|split; [reflexivity|split; [reflexivity|]]].
  - rewrite (proj1 (proj2 (deriveMetrics_failure_effects
                             (env_with_media null_tag_media) "p" "u" old_store))
               fifty_followers null_tag_media eq_refl eq_refl eq_refl eq_refl
               eq_refl).
    repeat split; reflexivity.
  - rewrite (proj2 (proj2 (deriveMetrics_failure_effects
                             (env_with_media undated_media) "p" "u" old_store))
               fifty_followers undated_media "#fun" _ [] eq_refl eq_refl
               eq_refl eq_refl eq_refl eq_refl eq_refl).
    reflexivity.
Defined.

(** The run over an item whose timestamp is not a date, and the run
    without profile. *)
Example deriveMetrics_other_failures :
  fst (deriveMetrics (env_with_media undated_media) "p" "u" old_store) =
    Thrown (Error "Invalid time value") /\
  map (fun r => (insight_profile_id r, date r, followers_count r))
    (profile_insights_daily
       (snd (deriveMetrics (env_with_media undated_media) "p" "u" old_store)))
  = [("p", 20000, 50)] /\
  fst (deriveMetrics env_without_profile "p" "u" old_store) =
    Thrown (Error "Profile not found: JSON object requested, multiple (or no) rows returned") /\
  snd (deriveMetrics env_without_profile "p" "u" old_store) = old_store.
Proof. repeat split; reflexivity. Qed.

(** The failures of the hashtag writes are only logged: on well formed
    items [deriveMetrics] completes normally, and when the store rejects
    every batch after the delete, the hashtag rows of the profile are gone
    while those of the other profiles are kept. *)
Theorem deriveMetrics_ignores_hashtag_failures
  (env : Env) (profileId userId : string) (p : Profile) (l : list Media)
  (s : Store) :
  profile_error env = None -> profile env = Some p ->
  upsert_error env = None ->
  media env = Some l -> forallb well_formed l = true ->
  occurrences l <> [] ->
  hashtag_delete_error env = false ->
  (forall i, hashtag_insert_error env i = true) ->
  fst (deriveMetrics env profileId userId s) = Returned tt /\
  hashtags_metrics (snd (deriveMetrics env profileId userId s)) =
    filter (fun r => negb (String.eqb (metric_profile_id r) profileId))
      (hashtags_metrics s).
Proof.
  intros Hpe Hp Hu Hm Hw Hocc Hdel Hins.
  rewrite (deriveMetrics_upserts env profileId userId p s Hpe Hp Hu).
  rewrite (write_hashtags_rows env profileId userId l _ Hm Hw Hocc).
  cbn [fst snd hashtags_metrics]. split; [reflexivity|].
  unfold replace_hashtags. rewrite Hdel.
  now rewrite insert_batches_rejected.
Qed.

Lemma deriveMetrics_ignores_hashtag_failures_witness :
  fst (deriveMetrics (env_rejecting_hashtags example_media) "p" "u" old_store) =
    Returned tt /\
  hashtags_metrics
    (snd (deriveMetrics (env_rejecting_hashtags example_media) "p" "u" old_store)) =
    [old_row "q" "#other"].
Proof.
  assert (Hocc : occurrences example_media <> []) by (vm_compute; discriminate).
  exact (deriveMetrics_ignores_hashtag_failures
           (env_rejecting_hashtags example_media) "p" "u" fifty_followers
           example_media old_store eq_refl eq_refl eq_refl eq_refl eq_refl Hocc
           eq_refl (fun _ => eq_refl)).
Defined.

(* --------------------------------------------------------------------- *)
(** *** The hashtags of a caption *)

Lemma all_word_append (w : string) (c : ascii) :
  all_word w = true -> is_word c = true ->
  all_word (String.append w (String c EmptyString)) = true.
Proof.
  induction w as [|a w IH]; cbn [String.append all_word]; intros Hw Hc.
  - now rewrite Hc.
  - apply andb_prop in Hw. destruct Hw as [Ha Hw]. rewrite Ha. cbn [andb].
    now apply IH.
Qed.

Lemma emit_tokens (w tag : string) :
  all_word w = true -> In tag (emit w) ->
  tag <> EmptyString /\ all_word tag = true.
Proof.
  intros Hw. destruct w as [|c w]; cbn [emit In]; [contradiction|].
  intros [<- | []]. split; [discriminate | assumption].
Qed.

Lemma scan_hashtags_tokens (s : string) :
  forall cur tag,
    (forall w, cur = Some w -> all_word w = true) ->
    In tag (scan_hashtags s cur) ->
    tag <> EmptyString /\ all_word tag = true.
Proof.
  induction s as [|c s IH]; intros cur tag Hcur.
  - cbn [scan_hashtags]. destruct cur as [w|]; [|contradiction].
    apply emit_tokens. now apply Hcur.
  - cbn [scan_hashtags].
    assert (Hnext : forall w,
              (if Ascii.eqb c "#" then Some EmptyString else None) = Some w ->
              all_word w = true).
    { intros w. destruct (Ascii.eqb c "#"); [|discriminate].
      intros H. injection H as <-. reflexivity. }
    destruct cur as [w|].
    + destruct (is_word c) eqn:Hc.
      * apply IH. intros w' H. injection H as <-.
        apply all_word_append; [now apply Hcur | assumption].
      * rewrite in_app_iff. intros [H | H].
        -- eapply emit_tokens; [apply Hcur; reflexivity | exact H].
        -- eapply IH; [exact Hnext | exact H].
    + apply IH. exact Hnext.
Qed.

(** The hashtags [fetchMediaViaGraphQL] extracts from a caption are not
    empty and made of word characters only, without their [#]; so
    [deriveMetrics] keys every one of them under the tag with a [#] put
    back in front. *)
Theorem scraped_hashtags_are_words (caption tag : string) :
  In tag (hashtags_of_caption caption) ->
  tag <> EmptyString /\ all_word tag = true /\
  cleanTag tag = String "#" tag.
Proof.
  intros Hin. unfold hashtags_of_caption in Hin.
  apply scan_hashtags_tokens in Hin; [|discriminate].
  destruct Hin as [Hne Hw]. split; [assumption|]. split; [assumption|].
  destruct tag as [|c tag]; [congruence|].
  cbn [all_word] in Hw. apply andb_prop in Hw. destruct Hw as [Hc _].
  unfold cleanTag. cbn [String.prefix].
  destruct (ascii_dec "#" c) as [<-|_]; [discriminate Hc | reflexivity].
Qed.

Lemma scraped_hashtags_are_words_witness :
  hashtags_of_caption "Great day #sun #fun" = ["sun"; "fun"] /\
  cleanTag "sun" = "#sun".
Proof.
  split; [reflexivity|].
  refine (proj2 (proj2 (scraped_hashtags_are_words "Great day #sun #fun" "sun" _))).
  left. reflexivity.
Defined.

End Metrics.
